(** * migrate: a shallow embedding of [migrate.py] and its properties

    The development follows the layout of the program:
    - [Text]: characters, whitespace, and the six regular expressions of the
      module header, each as a recogniser over strings;
    - [Sha256]: the digest behind [hashlib.sha256];
    - [Files]: what the program reads of the file system;
    - [Parser]: [read_migration] and [hash_migration];
    - [Selector]: [_parse_migrations_rev], [list_directory], [load_migrations];
    - [Py]: the values of a row and their [str];
    - [Session]: the connection, its transactions and standard output, as a
      state and exception monad over an abstract driver;
    - [Executor]: [execute_migration], [apply_migrations],
      [pending_migrations], [status_migrations];
    - [Dumper]: [filter_selection] and [escape];
    - [Doubles]: a directory of files and a small database, for the
      scenarios;
    - [Reading], [Naming], [Running], [Escaping]: the notions the further
      properties are stated with, and [migration_name];
    - [Dump]: [dump_database], [dump_table], [dump_values] and the body of
      the loop of [dump].

    The properties follow, in [Checks] (the definitions on small inputs),
    [TextFacts], [ParserFacts], [SelectorFacts], [DumperFacts] and
    [ExecutorFacts], and then in [ReadingFacts], [NamingFacts],
    [RunningFacts], [EscapingFacts] and [DumpFacts].

    Python [str] values are modelled as [string]: the sequence of the
    UTF-8 bytes of the text.  The whitespace of [\s] is that of [str], with
    the characters beyond code 127 recognised by their bytes.  The built-in
    [int], whose reading of a text depends on the interpreter, is a
    parameter of the functions that call it. *)

From Stdlib Require Import ZArith NArith Ascii String DecimalString Sorted.
From stdpp Require Import gmap strings list fin_maps.

Local Open Scope string_scope.

(** ** Characters and regular expressions *)
Module Text.

Definition newline : ascii := "010"%char.

(** The whitespace of [str] below code 128, each one byte: TAB, LF, VT,
    FF, CR, FS, GS, RS, US, SPACE. *)
Definition is_space (c : ascii) : bool :=
  let n := nat_of_ascii c in
  ((9 <=? n)%nat && (n <=? 13)%nat) || ((28 <=? n)%nat && (n <=? 32)%nat).

(** The whitespace of [str] that takes two bytes: U+0085 and U+00A0. *)
Definition is_space2 (c1 c2 : ascii) : bool :=
  let a := nat_of_ascii c1 in
  let b := nat_of_ascii c2 in
  (a =? 194)%nat && ((b =? 133)%nat || (b =? 160)%nat).

(** The whitespace of [str] that takes three bytes: U+1680, U+2000 to
    U+200A, U+2028, U+2029, U+202F, U+205F and U+3000. *)
Definition is_space3 (c1 c2 c3 : ascii) : bool :=
  let a := nat_of_ascii c1 in
  let b := nat_of_ascii c2 in
  let c := nat_of_ascii c3 in
  ((a =? 225)%nat && (b =? 154)%nat && (c =? 128)%nat)
  || ((a =? 226)%nat && (b =? 128)%nat
      && (((128 <=? c)%nat && (c <=? 138)%nat)
          || (c =? 168)%nat || (c =? 169)%nat || (c =? 175)%nat))
  || ((a =? 226)%nat && (b =? 129)%nat && (c =? 159)%nat)
  || ((a =? 227)%nat && (b =? 128)%nat && (c =? 128)%nat).

(** The text after the whitespace character [s] starts with, when it
    starts with one. *)
Definition space_prefix (s : string) : option string :=
  match s with
  | EmptyString => None
  | String c1 r1 =>
      if is_space c1 then Some r1
      else match r1 with
           | EmptyString => None
           | String c2 r2 =>
               if is_space2 c1 c2 then Some r2
               else match r2 with
                    | EmptyString => None
                    | String c3 r3 => if is_space3 c1 c2 c3 then Some r3 else None
                    end
           end
  end.

Definition is_newline (c : ascii) : bool := Ascii.eqb c newline.

Fixpoint has_newline (s : string) : bool :=
  match s with
  | EmptyString => false
  | String c r => is_newline c || has_newline r
  end.

(** [str.lstrip()]: the text after the whitespace characters it starts
    with. *)
Fixpoint lstrip (s : string) : string :=
  match s with
  | EmptyString => EmptyString
  | String c1 r1 =>
      if is_space c1 then lstrip r1
      else match r1 with
           | EmptyString => s
           | String c2 r2 =>
               if is_space2 c1 c2 then lstrip r2
               else match r2 with
                    | EmptyString => s
                    | String c3 r3 => if is_space3 c1 c2 c3 then lstrip r3 else s
                    end
           end
  end.

(** Whitespace only. *)
Definition all_space (s : string) : bool :=
  match lstrip s with
  | EmptyString => true
  | _ => false
  end.

(** [str.rstrip()]: the text before the whitespace it ends with. *)
Fixpoint rstrip (s : string) : string :=
  match s with
  | EmptyString => EmptyString
  | String c r => if all_space s then EmptyString else String c (rstrip r)
  end.

Definition strip (s : string) : string := rstrip (lstrip s).

(** [s[n:]] *)
Fixpoint drop_chars (n : nat) (s : string) : string :=
  match n, s with
  | O, _ => s
  | S n', String _ r => drop_chars n' r
  | S _, EmptyString => EmptyString
  end.

(** The longest prefix without a whitespace character. *)
Fixpoint take_nonspace (s : string) : string :=
  match s with
  | EmptyString => EmptyString
  | String c r =>
      match space_prefix s with
      | Some _ => EmptyString
      | None => String c (take_nonspace r)
      end
  end.

(** The end anchor after a run of dots: no newline up to the end of the
    string, except that the string may end in one. *)
Fixpoint newline_free_to_end (s : string) : bool :=
  match s with
  | EmptyString => true
  | String c r =>
      if is_newline c then
        match r with EmptyString => true | _ => false end
      else newline_free_to_end r
  end.

(** COMMENTS, the pattern  ^ \s* -- \s* ( .*? ) \s* $  used with .match(line):
    the result is group 1.  (Patterns are shown here with spaces between their
    parts.)  The leading \s* stops at the first character that is not
    whitespace, which has to start the two dashes; the lazy group then takes
    the shortest text after which only whitespace is left, and the dot does
    not match a newline. *)
Definition COMMENTS_match (line : string) : option string :=
  match lstrip line with
  | String "-" (String "-" r) =>
      let body := strip r in
      if has_newline body then None else Some body
  | _ => None
  end.

(** MIGRATE_KEY, the pattern  migrate: \s* ( [^\s]* )  used with .match(text):
    anchored at the start, the result is group 1. *)
Definition MIGRATE_KEY_match (text : string) : option string :=
  if String.prefix "migrate:" text
  then Some (take_nonspace (lstrip (drop_chars 8 text)))
  else None.

(** What may follow the semicolon in SQL_IS_COMPLETE:  \s* ( -- .* )? $  *)
Definition after_terminator (r : string) : bool :=
  match lstrip r with
  | EmptyString => true
  | String "-" (String "-" x) => newline_free_to_end x
  | _ => false
  end.

(** SQL_IS_COMPLETE, the pattern  .* ; \s* ( -- .* )? $  used with
    .match(line): some semicolon with no newline before it is followed by
    [after_terminator]. *)
Fixpoint SQL_IS_COMPLETE_match (line : string) : bool :=
  match line with
  | EmptyString => false
  | String c r =>
      (Ascii.eqb c ";" && after_terminator r)
      || (negb (is_newline c) && SQL_IS_COMPLETE_match r)
  end.

(** EMPTY_LINE, the pattern  ^ \s* $  used with .match(line). *)
Definition EMPTY_LINE_match (line : string) : bool := all_space line.

(** MAY_FAIL, the pattern  \s* @  tried at the start of [s]: the text left
    after the match. *)
Definition MAY_FAIL_at (s : string) : option string :=
  match lstrip s with
  | String "@" r => Some r
  | _ => None
  end.

(** MAY_FAIL.sub with the empty replacement and count=1: sub searches, so the
    pattern is tried at every position from the left and the first match is
    removed. *)
Fixpoint MAY_FAIL_sub (s : string) : string :=
  match MAY_FAIL_at s with
  | Some r => r
  | None =>
      match s with
      | EmptyString => EmptyString
      | String c r => String c (MAY_FAIL_sub r)
      end
  end.

(** The part of MIGRATION_PATERN after the first character:  .* \.sql $  *)
Fixpoint ends_dot_sql (s : string) : bool :=
  String.eqb s ".sql" || String.eqb s (".sql" ++ String newline EmptyString)
  || match s with
     | EmptyString => false
     | String c r => negb (is_newline c) && ends_dot_sql r
     end.

(** MIGRATION_PATERN, the pattern  ^ [^.] .* \.sql $  used with .match(name). *)
Definition MIGRATION_PATERN_match (name : string) : bool :=
  match name with
  | EmptyString => false
  | String c r => negb (Ascii.eqb c ".") && ends_dot_sql r
  end.

(** [sep.join(parts)] *)
Fixpoint join (sep : string) (parts : list string) : string :=
  match parts with
  | [] => EmptyString
  | [p] => p
  | p :: rest => p ++ sep ++ join sep rest
  end.

(** The join of [parts] with the empty separator. *)
Definition concat_lines (parts : list string) : string :=
  fold_right String.append EmptyString parts.

Definition is_dot (c : ascii) : bool := Ascii.eqb c ".".

(** [s.split] on the separator made of two dots: the text is cut at each
    occurrence of the separator, found from the left. *)
Fixpoint split_dotdot (s : string) : list string :=
  match s with
  | EmptyString => [EmptyString]
  | String c r =>
      let keep := match split_dotdot r with
                  | h :: t => String c h :: t
                  | [] => [String c EmptyString]
                  end in
      match r with
      | String c' r' =>
          if is_dot c && is_dot c' then EmptyString :: split_dotdot r' else keep
      | EmptyString => keep
      end
  end.

(** Whether two dots in a row occur in [s]. *)
Fixpoint contains_dotdot (s : string) : bool :=
  match s with
  | EmptyString => false
  | String c r =>
      (is_dot c && match r with
                   | String c' _ => is_dot c'
                   | EmptyString => false
                   end)
      || contains_dotdot r
  end.

(** [str(n)] for an [int]. *)
Definition str_of_Z (n : Z) : string := NilZero.string_of_int (Z.to_int n).

(** [str <= str]: lexicographic on character codes. *)
Definition str_le (a b : string) : bool :=
  match String.compare a b with Gt => false | _ => true end.

(** An at sign somewhere in [s]. *)
Fixpoint has_at (s : string) : bool :=
  match s with
  | EmptyString => false
  | String c r => Ascii.eqb c "@" || has_at r
  end.

End Text.

(** ** SHA-256, the digest of [hashlib.sha256] *)
Module Sha256.
Local Open Scope Z_scope.

(** Words are 32-bit: every sum is reduced modulo [2^32]. *)
Definition wrap (x : Z) : Z := x mod 4294967296.

Definition rotr (n x : Z) : Z :=
  Z.lor (Z.shiftr x n) (wrap (Z.shiftl x (32 - n))).

Definition Ch (x y z : Z) : Z :=
  Z.lxor (Z.land x y) (Z.land (Z.lnot x) z).
Definition Maj (x y z : Z) : Z :=
  Z.lxor (Z.land x y) (Z.lxor (Z.land x z) (Z.land y z)).
Definition Sigma0 (x : Z) : Z :=
  Z.lxor (rotr 2 x) (Z.lxor (rotr 13 x) (rotr 22 x)).
Definition Sigma1 (x : Z) : Z :=
  Z.lxor (rotr 6 x) (Z.lxor (rotr 11 x) (rotr 25 x)).
Definition sigma0 (x : Z) : Z :=
  Z.lxor (rotr 7 x) (Z.lxor (rotr 18 x) (Z.shiftr x 3)).
Definition sigma1 (x : Z) : Z :=
  Z.lxor (rotr 17 x) (Z.lxor (rotr 19 x) (Z.shiftr x 10)).

Definition K : list Z :=
  [1116352408; 1899447441; 3049323471; 3921009573; 961987163; 1508970993;
   2453635748; 2870763221; 3624381080; 310598401; 607225278; 1426881987;
   1925078388; 2162078206; 2614888103; 3248222580; 3835390401; 4022224774;
   264347078; 604807628; 770255983; 1249150122; 1555081692; 1996064986;
   2554220882; 2821834349; 2952996808; 3210313671; 3336571891; 3584528711;
   113926993; 338241895; 666307205; 773529912; 1294757372; 1396182291;
   1695183700; 1986661051; 2177026350; 2456956037; 2730485921; 2820302411;
   3259730800; 3345764771; 3516065817; 3600352804; 4094571909; 275423344;
   430227734; 506948616; 659060556; 883997877; 958139571; 1322822218;
   1537002063; 1747873779; 1955562222; 2024104815; 2227730452; 2361852424;
   2428436474; 2756734187; 3204031479; 3329325298].

(** The eight working registers. *)
Record regs : Type := Regs {
  ra : Z; rb : Z; rc : Z; rd : Z; re : Z; rf : Z; rg : Z; rh : Z }.

Definition initial : regs :=
  Regs 1779033703 3144134277 1013904242 2773480762
       1359893119 2600822924 528734635 1541459225.

Definition bytes_of (msg : string) : list Z :=
  (fun c => Z.of_nat (nat_of_ascii c)) <$> list_ascii_of_string msg.

(** Padding: one [0x80] byte, zero bytes up to 56 modulo 64, then the length
    in bits as eight big-endian bytes. *)
Definition padding (len : Z) : list Z :=
  let bits := 8 * len in
  128 :: replicate (Z.to_nat ((55 - len) mod 64)) 0
  ++ ((fun i => Z.land (Z.shiftr bits i) 255) <$> [56; 48; 40; 32; 24; 16; 8; 0]).

Definition pad (bs : list Z) : list Z := bs ++ padding (Z.of_nat (length bs)).

Fixpoint be_words (bs : list Z) : list Z :=
  match bs with
  | b0 :: b1 :: b2 :: b3 :: rest =>
      (b0 * 16777216 + b1 * 65536 + b2 * 256 + b3) :: be_words rest
  | _ => []
  end.

Fixpoint blocks (fuel : nat) (ws : list Z) : list (list Z) :=
  match fuel, ws with
  | S fuel', _ :: _ => take 16 ws :: blocks fuel' (drop 16 ws)
  | _, _ => []
  end.

(** The message schedule: [n] further words after the sixteen of the block. *)
Fixpoint schedule (n : nat) (w : list Z) : list Z :=
  match n with
  | O => w
  | S n' =>
      let t := length w in
      let at_ k := nth (t - k) w 0 in
      schedule n'
        (w ++ [wrap (sigma1 (at_ 2%nat) + at_ 7%nat + sigma0 (at_ 15%nat) + at_ 16%nat)])
  end.

Definition round (s : regs) (kw : Z * Z) : regs :=
  let t1 := wrap (rh s + Sigma1 (re s) + Ch (re s) (rf s) (rg s) + kw.1 + kw.2) in
  let t2 := wrap (Sigma0 (ra s) + Maj (ra s) (rb s) (rc s)) in
  Regs (wrap (t1 + t2)) (ra s) (rb s) (rc s) (wrap (rd s + t1)) (re s) (rf s) (rg s).

Definition compress (h : regs) (block : list Z) : regs :=
  let s := fold_left round (zip K (schedule 48 block)) h in
  Regs (wrap (ra h + ra s)) (wrap (rb h + rb s)) (wrap (rc h + rc s))
       (wrap (rd h + rd s)) (wrap (re h + re s)) (wrap (rf h + rf s))
       (wrap (rg h + rg s)) (wrap (rh h + rh s)).

Definition sha256 (msg : string) : regs :=
  let ws := be_words (pad (bytes_of msg)) in
  fold_left compress (blocks (length ws) ws) initial.

Definition hex_digits : list ascii :=
  ["0"; "1"; "2"; "3"; "4"; "5"; "6"; "7"; "8"; "9"; "a"; "b"; "c"; "d"; "e"; "f"]%char.

Definition hex_digit (x : Z) : ascii :=
  nth (Z.to_nat (Z.land x 15)) hex_digits "0"%char.

Definition hex8 (w : Z) (rest : string) : string :=
  String (hex_digit (Z.shiftr w 28)) (String (hex_digit (Z.shiftr w 24))
  (String (hex_digit (Z.shiftr w 20)) (String (hex_digit (Z.shiftr w 16))
  (String (hex_digit (Z.shiftr w 12)) (String (hex_digit (Z.shiftr w 8))
  (String (hex_digit (Z.shiftr w 4)) (String (hex_digit w) rest))))))).

(** [hexdigest()]: the eight registers, most significant digit first. *)
Definition hex_of_regs (s : regs) : string :=
  hex8 (ra s) (hex8 (rb s) (hex8 (rc s) (hex8 (rd s)
  (hex8 (re s) (hex8 (rf s) (hex8 (rg s) (hex8 (rh s) EmptyString))))))).

Definition sha256_hex (msg : string) : string := hex_of_regs (sha256 msg).

Definition is_hex (c : ascii) : bool := bool_decide (c ∈ hex_digits).

Fixpoint all_hex (s : string) : bool :=
  match s with
  | EmptyString => true
  | String c r => is_hex c && all_hex r
  end.

End Sha256.

(** ** Files *)
Module Files.
Import Text.

(** What the program sees of the file system.  [fs_scandir d] is the content
    of directory [d] as [os.scandir] yields it, each entry with its
    [is_file()], in the order of the operating system; [fs_read p] is the
    content of the file at [p].  [None] stands for the exception raised when
    the directory or the file cannot be opened or decoded. *)
Record filesystem : Type := {
  fs_scandir : string -> option (list (string * bool));
  fs_read : string -> option string
}.

Definition ends_with_slash (s : string) : bool :=
  match String.get (String.length s - 1) s with
  | Some c => Ascii.eqb c "/" && negb (String.eqb s EmptyString)
  | None => false
  end.

(** [os.path.join(a, b)] *)
Definition path_join (a b : string) : string :=
  if String.prefix "/" b then b
  else if String.eqb a EmptyString || ends_with_slash a then a ++ b
  else a ++ "/" ++ b.

Definition is_cr (c : ascii) : bool := Ascii.eqb c "013".

(** Text mode with universal newlines: CR LF and a lone CR are read as LF. *)
Fixpoint universal_newlines (s : string) : string :=
  match s with
  | EmptyString => EmptyString
  | String c r =>
      if is_cr c then
        String newline
          (universal_newlines
             match r with
             | String c' r' => if is_newline c' then r' else r
             | EmptyString => r
             end)
      else String c (universal_newlines r)
  end.

(** Iterating over a text file: the lines, each with its newline. *)
Fixpoint file_lines (s : string) : list string :=
  match s with
  | EmptyString => []
  | String c r =>
      if is_newline c then String c EmptyString :: file_lines r
      else match file_lines r with
           | l :: ls => String c l :: ls
           | [] => [String c EmptyString]
           end
  end.

(** The lines a [for line in file] loop sees, for the file at [path]. *)
Definition open_lines (fs : filesystem) (path : string) : option (list string) :=
  (fun text => file_lines (universal_newlines text)) <$> fs_read fs path.

End Files.

(** ** Directive parser and content hash *)
Module Parser.
Import Text Files.

(** A migration: section key to its statements.  (The insertion order of the
    Python dict, which only the [show] and [execute] commands look at, is not
    kept.) *)
Abbreviation Migration := (gmap string (list string)).

(** The inner function [flush] of [read_migration], with the dict it closes
    over as an argument; the caller resets [current] to the empty list. *)
Definition flush (key : string) (current : list string) (m : Migration) : Migration :=
  let stmts := default [] (m !! key) in
  <[key := match current with
           | [] => stmts
           | _ => (stmts ++ [concat_lines current])%list
           end]> m.

Record reader : Type := Reader {
  sections : Migration;
  current : list string;
  key : string
}.

Definition reader_init : reader := Reader ∅ [] "prolog".

(** The body of the loop over the lines. *)
Definition read_line (st : reader) (line : string) : reader :=
  match COMMENTS_match line with
  | Some c =>
      match MIGRATE_KEY_match c with
      | Some k => Reader (flush k (current st) (sections st)) [] k
      | None => st
      end
  | None =>
      if EMPTY_LINE_match line then st
      else
        let cur := (current st ++ [line])%list in
        if SQL_IS_COMPLETE_match line
        then Reader (flush (key st) cur (sections st)) [] (key st)
        else Reader (sections st) cur (key st)
  end.

(** After the loop: the last flush, then a prolog without an up section
    becomes the up section. *)
Definition read_finish (st : reader) : Migration :=
  let m := match current st with
           | [] => sections st
           | cur => flush (key st) cur (sections st)
           end in
  match m !! "up", m !! "prolog" with
  | None, Some p => delete "prolog" (<["up" := p]> m)
  | _, _ => m
  end.

Definition read_lines (lines : list string) : Migration :=
  read_finish (fold_left read_line lines reader_init).

(** [read_migration(path, directory)]; [None] when opening or reading the
    file raises. *)
Definition read_migration (fs : filesystem) (path directory : string) : option Migration :=
  read_lines <$> open_lines fs (path_join directory path).

(** A line whose first characters after its leading whitespace are two
    dashes. *)
Definition full_line_comment (line : string) : bool :=
  String.prefix "--" (lstrip line).

(** A line the loop reads as a directive. *)
Definition directive (line : string) : bool :=
  match COMMENTS_match line with
  | Some c =>
      match MIGRATE_KEY_match c with
      | Some _ => true
      | None => false
      end
  | None => false
  end.

(** A full-line comment that is not a directive. *)
Definition dropped_comment (line : string) : bool :=
  full_line_comment line && negb (directive line).

Definition nl : string := String newline EmptyString.

(** [migration.get(key, [])] *)
Definition section (m : Migration) (key : string) : list string :=
  default [] (m !! key).

(** The object [m = hashlib.sha256()] is the text fed to it so far;
    [update] appends, [hexdigest] hashes. *)
Definition update (m data : string) : string := m ++ data.

Definition hash_migration (migration : Migration) : string :=
  let m := EmptyString in
  let m := update m (join nl (section migration "prolog")) in
  let m := update m (join nl (section migration "up")) in
  let m := update m (join nl (section migration "down")) in
  let m := update m (join nl (section migration "epilog")) in
  Sha256.sha256_hex m.

(** *** Where the statements of a migration come from

    [lines] are the lines of the file. *)

(** A line of the file that COMMENTS does not match. *)
Definition clean (lines : list string) (l : string) : Prop :=
  l ∈ lines ∧ COMMENTS_match l = None.

(** A statement put together from clean lines. *)
Definition built (lines : list string) (s : string) : Prop :=
  ∃ ls, s = concat_lines ls ∧ ls ≠ [] ∧ Forall (clean lines) ls.

Definition all_built (lines : list string) (m : Migration) : Prop :=
  ∀ key stmts, m !! key = Some stmts → Forall (built lines) stmts.

Definition reader_ok (lines : list string) (st : reader) : Prop :=
  all_built lines (sections st) ∧ Forall (clean lines) (current st).

End Parser.

(** ** Selector *)
Module Selector.
Import Text Files Parser.

(** The result of [_parse_migrations_rev]: [(start_at, stop_at, includes, count)]. *)
Record selection : Type := Selection {
  start_at : option string;
  stop_at : option string;
  includes : option (list string);
  count : option Z
}.

(** [x if len(x) else None] *)
Definition bound (x : string) : option string :=
  match x with
  | EmptyString => None
  | _ => Some x
  end.

Section Int.

(** The built-in [int] on a [str]: the number read, or [None] where it
    raises [ValueError]. *)
Variable int : string -> option Z.

(** [filters] is [None] or a list of tokens.  Unpacking the split into two
    names raises [ValueError] unless there are exactly two parts, and so does
    [int] on a token it does not read: both are caught and the next shape is
    tried. *)
Definition _parse_migrations_rev (filters : option (list string)) : selection :=
  let names := Selection None None filters None in
  match filters with
  | Some [token] =>
      match split_dotdot token with
      | [a; b] => Selection (bound a) (bound b) None None
      | _ =>
          match int token with
          | Some n => if (0 <? n)%Z then Selection None None None (Some n) else names
          | None => names
          end
      end
  | _ => names
  end.

(** The condition of the [if] in [load_migrations]. *)
Definition wanted (sel : selection) (done : Z) (name : string) : bool :=
  match start_at sel with None => true | Some a => str_le a name end
  && match stop_at sel with None => true | Some b => str_le name b end
  && match includes sel with
     | None => true
     | Some l => (length l =? 0)%nat || bool_decide (name ∈ l)
     end
  && match count sel with None => true | Some n => (done <? n)%Z end.

(** The loop of [load_migrations], as the list of the pairs it yields.  A file
    that fails to load is logged and skipped, after [done] was incremented. *)
Fixpoint load_loop (fs : filesystem) (directory : string) (sel : selection)
    (done : Z) (migrations : list string) : list (string * Migration) :=
  match migrations with
  | [] => []
  | name :: rest =>
      if wanted sel done name then
        match read_migration fs name directory with
        | Some m => (name, m) :: load_loop fs directory sel (done + 1) rest
        | None => load_loop fs directory sel (done + 1) rest
        end
      else load_loop fs directory sel done rest
  end.

Definition load_migrations (fs : filesystem) (migrations : list string)
    (directory : string) (filters : option (list string)) : list (string * Migration) :=
  load_loop fs directory (_parse_migrations_rev filters) 0 migrations.

End Int.

(** [list.sort()] on strings. *)
Fixpoint insert_sorted (x : string) (l : list string) : list string :=
  match l with
  | [] => [x]
  | y :: r => if str_le x y then x :: l else y :: insert_sorted x r
  end.

Definition sort_names (l : list string) : list string :=
  fold_right insert_sorted [] l.

(** [list_directory(directory, reverse)]; [None] when [os.scandir] raises. *)
Definition list_directory (fs : filesystem) (directory : string) (reverse : bool)
    : option (list string) :=
  entries ← fs_scandir fs directory;
  let migrations :=
    sort_names
      (fst <$> filter (fun e => MIGRATION_PATERN_match e.1 && e.2 = true) entries) in
  Some (if reverse then rev migrations else migrations).

(** What loading does to one candidate. *)
Definition loaded (fs : filesystem) (directory name : string)
    : option (string * Migration) :=
  (fun m => (name, m)) <$> read_migration fs name directory.

End Selector.

(** ** Python values met in result rows *)
Module Py.
Import Text.

Record datetime : Type := Datetime {
  year : nat; month : nat; day : nat;
  hour : nat; minute : nat; second : nat; microsecond : nat
}.

(** A value of a result row.  A [Decimal] is kept as its [str] together
    with whether it is non-zero; [POther] is a value of any other type, with
    the name of the type, its [str] and its truth value.  [bool] is a
    subclass of [int]. *)
Inductive value : Type :=
  | PNone
  | PBool (b : bool)
  | PInt (n : Z)
  | PStr (s : string)
  | PDatetime (d : datetime)
  | PDecimal (text : string) (nonzero : bool)
  | POther (type_name text : string) (truth : bool).

Fixpoint zeros (n : nat) : string :=
  match n with
  | O => EmptyString
  | S n' => String "0" (zeros n')
  end.

(** [%0<width>d] *)
Definition zpad (width n : nat) : string :=
  let s := str_of_Z (Z.of_nat n) in
  zeros (width - String.length s) ++ s.

(** [strftime] with [%Y-%m-%d %H:%M:%S] (the year is padded to four digits). *)
Definition strftime_sql (d : datetime) : string :=
  zpad 4 (year d) ++ "-" ++ zpad 2 (month d) ++ "-" ++ zpad 2 (day d) ++ " "
  ++ zpad 2 (hour d) ++ ":" ++ zpad 2 (minute d) ++ ":" ++ zpad 2 (second d).

(** [str(v)] *)
Definition str (v : value) : string :=
  match v with
  | PNone => "None"
  | PBool true => "True"
  | PBool false => "False"
  | PInt n => str_of_Z n
  | PStr s => s
  | PDatetime d =>
      strftime_sql d
      ++ match microsecond d with
         | O => EmptyString
         | us => "." ++ zpad 6 us
         end
  | PDecimal text _ => text
  | POther _ text _ => text
  end.

(** [bool(v)] *)
Definition truthy (v : value) : bool :=
  match v with
  | PNone => false
  | PBool b => b
  | PInt n => negb (n =? 0)%Z
  | PStr s => negb (String.eqb s EmptyString)
  | PDatetime _ => true
  | PDecimal _ nonzero => nonzero
  | POther _ _ truth => truth
  end.

End Py.

(** ** The database session *)
Module Session.
Import Py.

(** A parameter of a query: a string, or a list of strings. *)
Inductive sqlarg : Type :=
  | ArgStr (s : string)
  | ArgList (l : list string).

Abbreviation row := (list value).

(** What [cursor.execute(sql, args)] does to the database contents [db] the
    connection works on: it raises, or it returns [res] (kept as its truth
    value) and leaves the rows that [fetchone] and [fetchall] read. *)
Inductive reply (db : Type) : Type :=
  | Raised (d : db)
  | Returned (d : db) (res : bool) (rows : list row).
Arguments Raised {db} d.
Arguments Returned {db} d res rows.

(** The calls made on the connection and its cursors, oldest first. *)
Inductive call : Type :=
  | Begin
  | Commit
  | Rollback
  | Execute (sql : string) (args : list sqlarg).

(** A transactional connection: the committed contents, the contents the
    open transaction works on, and the calls made so far. *)
Record connection (db : Type) : Type := Connection {
  committed : db;
  working : db;
  calls : list call
}.
Arguments Connection {db} committed working calls.
Arguments committed {db} c.
Arguments working {db} c.
Arguments calls {db} c.

(** The connection and the lines printed on standard output. *)
Record world (db : Type) : Type := World {
  cnx : connection db;
  stdout : list string
}.
Arguments World {db} cnx stdout.
Arguments cnx {db} w.
Arguments stdout {db} w.

(** A connection with no open work, on contents [d]. *)
Definition connect {db : Type} (d : db) : world db :=
  World (Connection d d []) [].

Inductive result (A : Type) : Type :=
  | Val (a : A)
  | Exc.
Arguments Val {A} a.
Arguments Exc {A}.

(** Computations that act on the world and return or raise. *)
Definition M (db : Type) (A : Type) : Type := world db -> result A * world db.

Definition ret {db A} (a : A) : M db A := fun w => (Val a, w).

Definition bind {db A B} (m : M db A) (f : A -> M db B) : M db B := fun w =>
  match m w with
  | (Val a, w') => f a w'
  | (Exc, w') => (Exc, w')
  end.

Declare Scope session_scope.
Delimit Scope session_scope with session.
Bind Scope session_scope with M.
Notation "'let*' x ':=' m 'in' k" := (bind m (fun x => k))
  (at level 10, x name, m at level 100, k at level 200) : session_scope.
Notation "m ;; k" := (bind m (fun _ => k))
  (at level 100, k at level 200, right associativity) : session_scope.

Definition raise {db A} : M db A := fun w => (Exc, w).

(** [try: body  except: handler] *)
Definition try_except {db A} (body handler : M db A) : M db A := fun w =>
  match body w with
  | (Val a, w') => (Val a, w')
  | (Exc, w') => handler w'
  end.

Definition lift_option {db A} (o : option A) : M db A :=
  match o with
  | Some a => ret a
  | None => raise
  end.

Definition log_call {db} (c : call) (x : connection db) : connection db :=
  Connection (committed x) (working x) (calls x ++ [c])%list.

Definition begin {db} : M db unit := fun w =>
  (Val tt, World (log_call Begin (cnx w)) (stdout w)).

Definition commit {db} : M db unit := fun w =>
  let x := log_call Commit (cnx w) in
  (Val tt, World (Connection (working x) (working x) (calls x)) (stdout w)).

Definition rollback {db} : M db unit := fun w =>
  let x := log_call Rollback (cnx w) in
  (Val tt, World (Connection (committed x) (committed x) (calls x)) (stdout w)).

(** [print(line)] *)
Definition print {db} (line : string) : M db unit := fun w =>
  (Val tt, World (cnx w) (stdout w ++ [line])%list).

Section Cursor.
Context {db : Type}.
(** The driver: what a statement does to the working contents. *)
Variable execute : string -> list sqlarg -> db -> reply db.

(** [res = cursor.execute(sql, args)], with the rows left in the cursor. *)
Definition cursor_execute (sql : string) (args : list sqlarg)
    : M db (bool * list row) := fun w =>
  let x := log_call (Execute sql args) (cnx w) in
  match execute sql args (working x) with
  | Raised d => (Exc, World (Connection (committed x) d (calls x)) (stdout w))
  | Returned d res rows =>
      (Val (res, rows), World (Connection (committed x) d (calls x)) (stdout w))
  end.
End Cursor.

(** [FakeConnection]: [execute] returns [False], [fetchone] returns [None],
    [fetchall] returns the empty list; nothing is stored. *)
Definition FakeConnection_execute : string -> list sqlarg -> unit -> reply unit :=
  fun _ _ d => Returned d false [].

(** A computation that ends no transaction: it leaves the committed
    contents as they are. *)
Definition keeps_committed {db A} (m : M db A) : Prop :=
  ∀ w r w', m w = (r, w') → committed (cnx w') = committed (cnx w).

(** Case analysis on the next computation that is run. *)
Ltac run_cases :=
  repeat match goal with
  | |- context [match ?m ?w with _ => _ end] =>
      match type of (m w) with
      | (result _ * world _)%type =>
          let a := fresh "a" in let w' := fresh "w" in let E := fresh "E" in
          destruct (m w) as [[a|] w'] eqn:E
      end
  end.

End Session.

(** ** Ledger, reconciler and executor *)
Module Executor.
Import Text Files Parser Selector Py Session.

Inductive Kind : Type := UP | DOWN.

(** [kind.value] *)
Definition Kind_value (k : Kind) : string :=
  match k with
  | UP => "up"
  | DOWN => "down"
  end.

Definition indent : string := "                ".

(** The query texts, with the table name interpolated. *)
Definition status_sql (table : string) : string :=
  nl ++ indent ++ "SELECT name, applied, hash, %s as hash_consistent" ++ nl
  ++ indent ++ "FROM `" ++ table ++ "` WHERE name=%s;" ++ nl ++ indent.

Definition insert_sql (table : string) : string :=
  nl ++ indent ++ "INSERT INTO `" ++ table ++ "` VALUES(%s, now(), %s)" ++ nl
  ++ indent ++ "ON DUPLICATE KEY UPDATE hash=VALUES(hash), applied=VALUES(applied)"
  ++ nl ++ indent.

Definition delete_sql (table : string) : string :=
  "DELETE FROM `" ++ table ++ "` WHERE name=%s".

Definition missing_sql (table : string) : string :=
  "SELECT name, applied, hash FROM `" ++ table ++ "` WHERE name NOT IN %s".

Section Driver.
Context {db : Type}.
Variable execute : string -> list sqlarg -> db -> reply db.

(** The built-in [int], as in [Selector]. *)
Variable int : string -> option Z.

Abbreviation M := (Session.M db).
Local Open Scope session_scope.

(** [_migration_status]: the hash and the row [fetchone] gives when [res]
    is true. *)
Definition _migration_status (name : string) (migration : Migration)
    (table : string) : M (string * option row) :=
  let h := hash_migration migration in
  let* r := cursor_execute execute (status_sql table) [ArgStr h; ArgStr name] in
  ret (h, if r.1 then head r.2 else None).

(** [is_pending]; [m[3]] raises on a row of fewer than four columns, and
    the warning it guards is not modelled. *)
Definition is_pending (name : string) (migration : Migration) (table : string)
    : M bool :=
  let* s := _migration_status name migration table in
  match s.2 with
  | None => ret true
  | Some r =>
      match r !! 3%nat with
      | None => raise
      | Some _ => ret false
      end
  end.

(** The loop over the queries of [execute_migration].  A statement that
    raises stops the loop unless [may_fail] holds for it. *)
Fixpoint run_queries (queries : list string) : M unit :=
  match queries with
  | [] => ret tt
  | query :: rest =>
      let real_query := MAY_FAIL_sub query in
      let may_fail := negb (String.eqb real_query query) in
      try_except
        (cursor_execute execute real_query [];; ret tt)
        (if may_fail then ret tt else raise);;
      run_queries rest
  end.

Definition execute_migration (name : string) (migration : Migration)
    (kind : Kind) (table : string) (template : Migration) : M bool :=
  try_except
    (run_queries
       (section template "prolog" ++ section migration "prolog"
        ++ section template (Kind_value kind) ++ section migration (Kind_value kind)
        ++ section migration "epilog" ++ section template "epilog")%list;;
     ret true)
    (ret false).

Definition insert_migration (name : string) (migration : Migration)
    (table : string) : M bool :=
  let h := hash_migration migration in
  let* r := cursor_execute execute (insert_sql table) [ArgStr name; ArgStr h] in
  ret r.1.

Definition delete_migration (name table : string) : M bool :=
  let* r := cursor_execute execute (delete_sql table) [ArgStr name] in
  ret r.1.

(** The ledger update of [apply_migrations]:
    [kind is UP and insert_migration(..) or kind is DOWN and delete_migration(..)]. *)
Definition record_migration (name : string) (migration : Migration)
    (kind : Kind) (table : string) : M bool :=
  let* inserted := match kind with
             | UP => insert_migration name migration table
             | DOWN => ret false
             end in
  if inserted then ret true
  else match kind with
       | DOWN => delete_migration name table
       | UP => ret false
       end.

(** One turn of the loop of [apply_migrations]: [true] when the loop goes
    on, [false] when the function returns after a rollback.  The template
    is not passed on to [execute_migration], which takes its default. *)
Definition apply_one (kind : Kind) (one_transaction : bool) (table : string)
    (item : string * Migration) : M bool :=
  (if one_transaction then ret tt else begin);;
  let* ok := execute_migration item.1 item.2 kind table ∅ in
  if negb ok then rollback;; ret false
  else
    let* recorded := record_migration item.1 item.2 kind table in
    if recorded then
      print item.1;;
      (if one_transaction then ret tt else commit);;
      ret true
    else rollback;; ret false.

Fixpoint apply_loop (kind : Kind) (one_transaction : bool) (table : string)
    (migrations : list (string * Migration)) : M bool :=
  match migrations with
  | [] => ret true
  | item :: rest =>
      let* continue := apply_one kind one_transaction table item in
      if continue then apply_loop kind one_transaction table rest
      else ret false
  end.

(** The part of [apply_migrations] before the last commit: [true] when
    the loop came to its end.  The batch is the sequence of pairs the
    iterable [migrations] yields. *)
Definition apply_batch (migrations : list (string * Migration))
    (kind : Kind) (one_transaction : bool) (table : string) : M bool :=
  (if one_transaction then begin else ret tt);;
  apply_loop kind one_transaction table migrations.

Definition apply_migrations (migrations : list (string * Migration))
    (kind : Kind) (one_transaction : bool) (table : string)
    (template : Migration) : M unit :=
  let* finished := apply_batch migrations kind one_transaction table in
  if finished && one_transaction then commit else ret tt.

(** The loop of [pending_migrations], as the list of the pairs it yields:
    whatever the check raises, the pair is yielded. *)
Fixpoint pending_loop (table : string) (loaded : list (string * Migration))
    : M (list (string * Migration)) :=
  match loaded with
  | [] => ret []
  | (name, migration) :: rest =>
      let* keep := try_except (is_pending name migration table) (ret true) in
      let* more := pending_loop table rest in
      ret (if keep then (name, migration) :: more else more)
  end.

Definition pending_migrations (fs : filesystem) (directory : string)
    (filters : option (list string)) (table : string)
    : M (list (string * Migration)) :=
  let* names := lift_option (list_directory fs directory false) in
  pending_loop table (load_migrations int fs names directory filters).

(** The line of one migration in [status_migrations]:
    [status, name, ' '.join(more)] separated by spaces.  The join raises
    when the stored hash [m[2]] of a drifted row is not a string. *)
Definition status_line (name h : string) (m : option row) : M (option string) :=
  match m with
  | None => ret (Some ("P " ++ name ++ " " ++ join " " [h]))
  | Some r =>
      match r !! 3%nat, r !! 1%nat, r !! 2%nat with
      | Some consistent, Some applied, Some stored =>
          if negb (truthy consistent) then
            ret (match stored with
                  | PStr s => Some ("D " ++ name ++ " " ++ join " " [str applied; h; s])
                  | _ => None
                  end)
          else ret (Some ("A " ++ name ++ " " ++ join " " [str applied; h]))
      | _, _, _ => raise
      end
  end.

(** The first loop of [status_migrations]; the result is [found]. *)
Fixpoint status_loop (show_missings : bool) (table : string)
    (loaded : list (string * Migration)) (found : list string)
    : M (list string) :=
  match loaded with
  | [] => ret found
  | (name, migration) :: rest =>
      let found := (found ++ [name])%list in
      let* s := _migration_status name migration table in
      let* line := status_line name s.1 s.2 in
      (if show_missings then ret tt
       else match line with
            | Some l => print l
            | None => raise
            end);;
      status_loop show_missings table rest found
  end.

(** [print("M", *m, sep=" ")] *)
Definition missing_line (m : row) : string := join " " ("M" :: (str <$> m)).

Fixpoint print_lines (lines : list string) : M unit :=
  match lines with
  | [] => ret tt
  | l :: rest => print l;; print_lines rest
  end.

Definition status_migrations (fs : filesystem) (directory : string)
    (filters : option (list string)) (show_missings : bool) (table : string)
    : M unit :=
  let* names := lift_option (list_directory fs directory false) in
  let* found := status_loop show_missings table
            (load_migrations int fs names directory
               (if show_missings then None else filters))
            [EmptyString] in
  if show_missings then
    let* r := cursor_execute execute (missing_sql table) [ArgList found] in
    print_lines (missing_line <$> r.2)
  else ret tt.

End Driver.
End Executor.

(** ** Dumper: table selection and value escaping *)
Module Dumper.
Import Text Py.

(** The state of the loop of [filter_selection]. *)
Record picking : Type := Picking {
  res : list string;
  present : gset string;
  star_present : bool
}.

(** The body of the loop over the items of the selection. *)
Definition pick (existings : list string) (st : picking) (item : string) : picking :=
  if String.eqb item "*" then Picking (res st) (present st) true
  else if String.prefix "-" item
  then Picking (res st) ({[drop_chars 1 item]} ∪ present st) true
  else if bool_decide (item ∈ existings)
  then Picking (res st ++ [item])%list ({[item]} ∪ present st) (star_present st)
  else st.

(** [filter_selection(selection, existings)]; [selection] is [None] or a
    sequence of tokens, and is false when it is [None] or empty. *)
Definition filter_selection (selection : option (list string))
    (existings : list string) : list string :=
  let star := match selection with
              | None | Some [] => true
              | Some _ => false
              end in
  let st := fold_left (pick existings) (default [] selection) (Picking [] ∅ star) in
  if star_present st
  then (res st ++ filter (fun e => e ∉ present st) existings)%list
  else res st.

Definition backslash : ascii := "\".
Definition dquote : ascii := "034".

(** [_escape_table]: the 128 one-character strings, seven of them replaced. *)
Definition _escape_table : list string :=
  <[39%nat := "\'"]>
  (<[34%nat := String backslash (String dquote EmptyString)]>
  (<[26%nat := "\Z"]>
  (<[13%nat := "\r"]>
  (<[10%nat := "\n"]>
  (<[92%nat := "\\"]>
  (<[0%nat := "\0"]>
  ((fun x => String (ascii_of_nat x) EmptyString) <$> seq 0 128))))))).

(** [str.translate(table)] with a list as table: a character whose code is
    outside the list is kept. *)
Fixpoint translate (table : list string) (s : string) : string :=
  match s with
  | EmptyString => EmptyString
  | String c r =>
      default (String c EmptyString) (table !! nat_of_ascii c) ++ translate table r
  end.

(** The classes [escape] tests with [isinstance]. *)
Inductive class : Type := Cstr | Cint | Cdatetime | CDecimal.

(** [isinstance(v, c)]; a [bool] is an [int]. *)
Definition isinstance (v : value) (c : class) : bool :=
  match v, c with
  | PStr _, Cstr => true
  | PInt _, Cint => true
  | PBool _, Cint => true
  | PDatetime _, Cdatetime => true
  | PDecimal _ _, CDecimal => true
  | _, _ => false
  end.

Definition is_None (v : value) : bool :=
  match v with
  | PNone => true
  | _ => false
  end.

(** [escape(value)]; [None] stands for the exception raised at the end. *)
Definition escape (v : value) : option string :=
  if is_None v then Some "NULL"
  else if isinstance v Cstr
  then Some ("'" ++ translate _escape_table (str v) ++ "'")
  else if isinstance v Cint then Some (str v)
  else if isinstance v Cdatetime
  then match v with
       | PDatetime d => Some ("'" ++ strftime_sql d ++ "'")
       | _ => None
       end
  else if isinstance v CDecimal then Some (str v)
  else None.

(** The names a selection leaves out: its dash tokens without the dash. *)
Fixpoint excluded (selection : list string) : list string :=
  match selection with
  | [] => []
  | item :: rest =>
      if String.eqb item "*" then excluded rest
      else if String.prefix "-" item then drop_chars 1 item :: excluded rest
      else excluded rest
  end.

(** The tokens of a selection that name an existing table. *)
Fixpoint named (selection existings : list string) : list string :=
  match selection with
  | [] => []
  | item :: rest =>
      if String.eqb item "*" then named rest existings
      else if String.prefix "-" item then named rest existings
      else if bool_decide (item ∈ existings) then item :: named rest existings
      else named rest existings
  end.

(** Whether some token is the star or starts with a dash. *)
Definition forces_all (selection : list string) : bool :=
  existsb (fun item => String.eqb item "*" || String.prefix "-" item) selection.

(** The values [escape] accepts, as the claim lists them. *)
Definition supported (v : value) : bool :=
  is_None v || isinstance v Cstr || isinstance v Cint
  || isinstance v Cdatetime || isinstance v CDecimal.

End Dumper.

(** ** Test doubles: a directory of files *)
Module Doubles.
Import Text Files.

(** The content of the file at [path] among [files], each a name in
    [directory] with its content, or with [None] when it cannot be read. *)
Fixpoint read_from (directory : string) (files : list (string * option string))
    (path : string) : option string :=
  match files with
  | [] => None
  | (name, content) :: rest =>
      if String.eqb (path_join directory name) path then content
      else read_from directory rest path
  end.

(** A file system with the one directory [directory], holding [files]. *)
Definition disk (directory : string) (files : list (string * option string))
    : filesystem :=
  {| fs_scandir := fun d =>
       if String.eqb d directory then Some ((fun f => (f.1, true)) <$> files)
       else None;
     fs_read := read_from directory files |}.

(** U+00A0, the no-break space, and U+3000, the ideographic space. *)
Definition nbsp : string := String "194" (String "160" EmptyString).

Definition wide_space : string :=
  String "227" (String "128" (String "128" EmptyString)).

Fixpoint digits_value (acc : Z) (s : string) : option Z :=
  match s with
  | EmptyString => Some acc
  | String c r =>
      let n := nat_of_ascii c in
      if (48 <=? n)%nat && (n <=? 57)%nat
      then digits_value (10 * acc + (Z.of_nat n - 48)) r
      else None
  end.

(** A stand-in for [int] in the scenarios: it reads the texts made of the
    digits 0 to 9 and no other. *)
Definition int_of_digits (s : string) : option Z :=
  match s with
  | EmptyString => None
  | _ => digits_value 0 s
  end.

(** The contents of a small database: whether the ledger table exists, its
    rows as name and hash, and the statements that were run. *)
Record store : Type := Store {
  has_ledger : bool;
  ledger : list (string * string);
  ran : list string
}.

Definition ledger_row (h : string) (e : string * string) : list Py.value :=
  [Py.PStr e.1; Py.PStr "2024-01-01 00:00:00"; Py.PStr e.2; Py.PStr h].

Definition not_empty {A} (l : list A) : bool :=
  match l with
  | [] => false
  | _ => true
  end.

(** A driver on [store]: the four ledger queries of the program act on the
    ledger and raise when the table does not exist; of the other statements,
    those starting with CREATE LEDGER create the ledger table, those
    starting with FAIL raise, and all others are recorded as run. *)
Definition memory_execute (table : string) (sql : string)
    (args : list Session.sqlarg) (d : store) : Session.reply store :=
  if String.eqb sql (Executor.status_sql table) then
    match args, has_ledger d with
    | [Session.ArgStr h; Session.ArgStr name], true =>
        let rows := ledger_row h <$> filter (fun e => e.1 = name) (ledger d) in
        Session.Returned d (not_empty rows) rows
    | _, _ => Session.Raised d
    end
  else if String.eqb sql (Executor.insert_sql table) then
    match args, has_ledger d with
    | [Session.ArgStr name; Session.ArgStr h], true =>
        Session.Returned
          (Store true ((name, h) :: filter (fun e => e.1 ≠ name) (ledger d)) (ran d))
          true []
    | _, _ => Session.Raised d
    end
  else if String.eqb sql (Executor.delete_sql table) then
    match args, has_ledger d with
    | [Session.ArgStr name], true =>
        Session.Returned
          (Store true (filter (fun e => e.1 ≠ name) (ledger d)) (ran d))
          (not_empty (filter (fun e => e.1 = name) (ledger d))) []
    | _, _ => Session.Raised d
    end
  else if String.eqb sql (Executor.missing_sql table) then
    match args, has_ledger d with
    | [Session.ArgList found], true =>
        let rows := ledger_row "" <$> filter (fun e => e.1 ∉ found) (ledger d) in
        Session.Returned d (not_empty rows) (take 3 <$> rows)
    | _, _ => Session.Raised d
    end
  else if String.prefix "CREATE LEDGER" sql then
    Session.Returned (Store true (ledger d) (ran d ++ [sql])%list) true []
  else if String.prefix "FAIL" sql then Session.Raised d
  else Session.Returned (Store (has_ledger d) (ledger d) (ran d ++ [sql])%list) true [].

(** A driver on which every statement raises. *)
Definition failing_execute : string -> list Session.sqlarg -> unit -> Session.reply unit :=
  fun _ _ d => Session.Raised d.

(** *** Scenarios *)

(** A migration with one statement in its up section. *)
Definition up_only (stmt : string) : Parser.Migration := {["up" := [stmt]]}.

(** A batch of five whose third migration has a statement that raises. *)
Definition batch_before : list (string * Parser.Migration) :=
  [("20240101-a.sql", up_only "CREATE TABLE a;");
   ("20240102-b.sql", up_only "CREATE TABLE b;")].

Definition batch_failing : string * Parser.Migration :=
  ("20240103-c.sql", up_only "FAIL TABLE c;").

Definition batch_after : list (string * Parser.Migration) :=
  [("20240104-d.sql", up_only "CREATE TABLE d;");
   ("20240105-e.sql", up_only "CREATE TABLE e;")].

(** A database with an empty ledger, and one without a ledger table. *)
Definition empty_ledger : store := Store true [] [].
Definition no_ledger : store := Store false [] [].

(** A directory whose first migration creates the ledger table. *)
Definition install_disk : filesystem :=
  disk "migrations"
    [("20240101-install.sql", Some ("CREATE LEDGER;" ++ Parser.nl));
     ("20240102-a.sql", Some ("CREATE TABLE a;" ++ Parser.nl))].

(** A file with a comment between the lines of a statement. *)
Definition commented_lines : list string :=
  ["-- migrate: up" ++ Parser.nl;
   "CREATE TABLE t (" ++ Parser.nl;
   "  -- the key" ++ Parser.nl;
   "  id INT" ++ Parser.nl;
   ");" ++ Parser.nl].

Definition commented_disk : filesystem :=
  disk "." [("m.sql", Some (concat_lines commented_lines))].

(** The same content under two names in two directories. *)
Definition first_disk : filesystem :=
  disk "old" [("20240101-a.sql", Some (concat_lines commented_lines))].

Definition renamed_disk : filesystem :=
  disk "new" [("20250101-z.sql", Some (concat_lines commented_lines))].

(** A directory with a file that cannot be read, and a ledger with a row
    for it, a row for the file that can, and a row for no file. *)
Definition partly_unreadable_disk : filesystem :=
  disk "." [("20240101-a.sql", Some ("SELECT 1;" ++ Parser.nl));
            ("20240102-b.sql", None)].

Definition three_rows : store :=
  Store true [("20240101-a.sql", "h1"); ("20240102-b.sql", "h2");
              ("20240109-gone.sql", "h3")] [].

(** The two migrations of [install_disk], as they are read. *)
Definition install_item : string * Parser.Migration :=
  ("20240101-install.sql", Parser.read_lines ["CREATE LEDGER;" ++ Parser.nl]).

Definition second_item : string * Parser.Migration :=
  ("20240102-a.sql", Parser.read_lines ["CREATE TABLE a;" ++ Parser.nl]).

(** The statement of [commented_lines]. *)
Definition commented_statement : string :=
  concat_lines ["CREATE TABLE t (" ++ Parser.nl; "  id INT" ++ Parser.nl;
                ");" ++ Parser.nl].

End Doubles.

(** ** Notions about what the parser reads *)
Module Reading.
Import Text Files Parser.

(** A line the loop of [read_migration] appends to the statement it
    collects: COMMENTS does not match it and it is not blank. *)
Definition kept (line : string) : bool :=
  match COMMENTS_match line with
  | Some _ => false
  | None => negb (EMPTY_LINE_match line)
  end.

(** The key a directive line switches to. *)
Definition directive_key (line : string) : option string :=
  match COMMENTS_match line with
  | Some c => MIGRATE_KEY_match c
  | None => None
  end.

(** The text the reader holds: the statements filed under prolog and the
    lines of the statement it collects. *)
Definition held (st : reader) : string :=
  concat_lines (section (sections st) "prolog") ++ concat_lines (current st).

(** No section but prolog. *)
Definition only_prolog (m : Migration) : Prop :=
  ∀ k, k ≠ "prolog" → m !! k = None.

(** A line that does not end a statement. *)
Definition open_line (line : string) : Prop := SQL_IS_COMPLETE_match line = false.

(** The lines of the file the loop appends, in their order. *)
Definition kept_lines (lines : list string) : list string :=
  filter (fun l => kept l = true) lines.

(** The statement [s] is made of the kept lines [ls] and [l], which follow
    one another in the file, and none of [ls] ends a statement. *)
Definition run_of (lines ls : list string) (l s : string) : Prop :=
  (∃ pre post, kept_lines lines = pre ++ ls ++ [l] ++ post)%list
  ∧ s = concat_lines (ls ++ [l])
  ∧ Forall open_line ls.

(** A statement made of kept lines that follow one another in the file, of
    which only the last may end a statement. *)
Definition one_terminator (lines : list string) (s : string) : Prop :=
  ∃ ls l, run_of lines ls l s.

Definition all_one_terminator (lines : list string) (m : Migration) : Prop :=
  ∀ key stmts, m !! key = Some stmts → Forall (one_terminator lines) stmts.

(** The line [l] is the last line of a statement of [m]. *)
Definition ended (lines : list string) (m : Migration) (l : string) : Prop :=
  ∃ key stmts ls s, m !! key = Some stmts ∧ s ∈ stmts ∧ run_of lines ls l s.

(** What holds of the reader after the lines [seen]. *)
Definition cut_ok (seen : list string) (st : reader) : Prop :=
  all_one_terminator seen (sections st)
  ∧ (∃ pre, kept_lines seen = pre ++ current st)%list
  ∧ Forall open_line (current st)
  ∧ (∀ l, l ∈ seen → kept l = true → SQL_IS_COMPLETE_match l = true →
          ended seen (sections st) l).

(** The keys a reader may hold after the lines [seen]: prolog, and the keys
    of the directives among them, each of which it does hold. *)
Definition keys_ok (seen : list string) (st : reader) : Prop :=
  (key st = "prolog" ∨ ∃ l, l ∈ seen ∧ directive_key l = Some (key st))
  ∧ (∀ k, is_Some (sections st !! k) →
          k = "prolog" ∨ ∃ l, l ∈ seen ∧ directive_key l = Some k)
  ∧ (∀ l k, l ∈ seen → directive_key l = Some k → is_Some (sections st !! k)).

(** A file without directives: two statements, a comment, a blank line. *)
Definition bare_lines : list string :=
  ["CREATE TABLE a;" ++ nl; "-- a comment" ++ nl; nl; "CREATE TABLE b;" ++ nl].

(** The last line of [Doubles.commented_lines]. *)
Definition closing_line : string := ");" ++ nl.

Definition bare_disk : filesystem :=
  Doubles.disk "." [("bare.sql", Some (concat_lines bare_lines))].

End Reading.

(** ** Naming and selecting migrations *)
Module Naming.
Import Text Files Parser Selector.

Definition SQL_EXT : string := "sql".

(** [migration_name(name, step, date)]; [today] is what
    [datetime.today().strftime('%Y%m%d')] gives when [date] is [None]. *)
Definition migration_name (today : string) (name : string) (step : Z)
    (date : option string) : string :=
  let date := match date with
              | None => today
              | Some d => d
              end in
  date ++ str_of_Z step ++ "-" ++ name ++ "." ++ SQL_EXT.

(** The range test of [load_migrations] with the bounds as they stand in
    the token: an empty bound is open. *)
Definition within (a b name : string) : bool :=
  (String.eqb a "" || str_le a name) && (String.eqb b "" || str_le name b).

(** A name that does not start with a dot. *)
Definition visible (name : string) : bool :=
  match name with
  | EmptyString => false
  | String c _ => negb (Ascii.eqb c ".")
  end.

(** A name that starts with a dot. *)
Definition dotted (name : string) : bool :=
  match name with
  | EmptyString => false
  | String c _ => Ascii.eqb c "."
  end.

(** A directory with a hidden file, a text file, a subdirectory and two
    migrations, as the system lists it. *)
Definition mixed_entries : list (string * bool) :=
  [("20240102-b.sql", true); (".hidden.sql", true); ("notes.txt", true);
   ("20240103-dir.sql", false); ("20240101-a.sql", true)].

Definition mixed_disk : filesystem :=
  {| fs_scandir := fun d => if String.eqb d "." then Some mixed_entries else None;
     fs_read := fun _ => None |}.

End Naming.

(** ** Notions about what the executor sends *)
Module Running.
Import Text Files Parser Selector Py Session Executor.

(** The statements of a migration in the order [execute_migration] chains
    them. *)
Definition queries_of (template migration : Migration) (kind : Kind) : list string :=
  (section template "prolog" ++ section migration "prolog"
   ++ section template (Kind_value kind) ++ section migration (Kind_value kind)
   ++ section migration "epilog" ++ section template "epilog")%list.

(** The calls that send [queries], each after the substitution of MAY_FAIL. *)
Definition sent (queries : list string) : list call :=
  (fun q => Execute (MAY_FAIL_sub q) []) <$> queries.

(** [may_fail] of [execute_migration]: the substitution changed the
    statement. *)
Definition may_fail (query : string) : bool :=
  negb (String.eqb (MAY_FAIL_sub query) query).

(** The working contents after [sql] was sent without parameters, and
    whether that raised. *)
Definition after_call {db} (execute : string -> list sqlarg -> db -> reply db)
    (sql : string) (d : db) : db :=
  match execute sql [] d with
  | Raised d' => d'
  | Returned d' _ _ => d'
  end.

Definition raises {db} (execute : string -> list sqlarg -> db -> reply db)
    (sql : string) (d : db) : bool :=
  match execute sql [] d with
  | Raised _ => true
  | Returned _ _ _ => false
  end.

(** The working contents after [queries] were sent in turn, each after the
    substitution of MAY_FAIL. *)
Definition replay {db} (execute : string -> list sqlarg -> db -> reply db)
    (queries : list string) (d : db) : db :=
  fold_left (fun d q => after_call execute (MAY_FAIL_sub q) d) queries d.

(** A statement that raises on the contents [d] and is not may-fail. *)
Definition fatal {db} (execute : string -> list sqlarg -> db -> reply db)
    (query : string) (d : db) : bool :=
  raises execute (MAY_FAIL_sub query) d && negb (may_fail query).

(** The ledger update of a migration: an insert of its name and hash going
    up, a delete of its name going down. *)
Definition ledger_call (kind : Kind) (table : string) (item : string * Migration)
    : call :=
  match kind with
  | UP => Execute (insert_sql table) [ArgStr item.1; ArgStr (hash_migration item.2)]
  | DOWN => Execute (delete_sql table) [ArgStr item.1]
  end.

(** The calls of one turn of the loop of [apply_migrations] that succeeds. *)
Definition turn_calls (kind : Kind) (one_transaction : bool) (table : string)
    (item : string * Migration) : list call :=
  ((if one_transaction then [] else [Begin])
   ++ sent (queries_of ∅ item.2 kind) ++ [ledger_call kind table item]
   ++ (if one_transaction then [] else [Commit]))%list.

(** A line of the status report for [name]: a code among P, A and D, the
    name, and the rest, separated by spaces. *)
Definition status_line_of (name line : string) : Prop :=
  ∃ code rest, code ∈ ["P"; "A"; "D"] ∧ line = code ++ " " ++ name ++ " " ++ rest.

(** The query of the status of a migration. *)
Definition status_call (table : string) (item : string * Migration) : call :=
  Execute (status_sql table) [ArgStr (hash_migration item.2); ArgStr item.1].

(** The line of a pending migration in the status report. *)
Definition pending_line (item : string * Migration) : string :=
  "P " ++ item.1 ++ " " ++ hash_migration item.2.

(** What a run from [w] to [w'] leaves as it is: the committed contents
    and the output; and the calls it adds are [more]. *)
Definition adds {db} (w w' : world db) (more : list call) : Prop :=
  calls (cnx w') = (calls (cnx w) ++ more)%list
  ∧ committed (cnx w') = committed (cnx w)
  ∧ stdout w' = stdout w.

End Running.

(** ** Notions about escaped text *)
Module Escaping.
Import Text Py Dumper.

(** The character an escape stands for: the one after the backslash. *)
Definition unescape_char (x : ascii) : ascii :=
  if Ascii.eqb x "0" then "000"
  else if Ascii.eqb x "n" then "010"
  else if Ascii.eqb x "r" then "013"
  else if Ascii.eqb x "Z" then "026"
  else x.

(** Reading escaped text back. *)
Fixpoint unescape (s : string) : string :=
  match s with
  | EmptyString => EmptyString
  | String c r =>
      if Ascii.eqb c backslash then
        match r with
        | String x r' => String (unescape_char x) (unescape r')
        | EmptyString => String c EmptyString
        end
      else String c (unescape r)
  end.

(** The characters that may follow a backslash. *)
Definition escape_letter (x : ascii) : bool :=
  Ascii.eqb x "0" || Ascii.eqb x backslash || Ascii.eqb x "n" || Ascii.eqb x "r"
  || Ascii.eqb x "Z" || Ascii.eqb x dquote || Ascii.eqb x "'".

(** The characters that do not stand for themselves in a literal. *)
Definition special (c : ascii) : bool :=
  Ascii.eqb c "000" || Ascii.eqb c "010" || Ascii.eqb c "013" || Ascii.eqb c "026"
  || Ascii.eqb c dquote || Ascii.eqb c "'" || Ascii.eqb c backslash.

(** Text made of characters that are not special and of escapes: no quote
    and no control character of the table stands in it unescaped. *)
Fixpoint well_escaped (s : string) : bool :=
  match s with
  | EmptyString => true
  | String c r =>
      if Ascii.eqb c backslash then
        match r with
        | String x r' => escape_letter x && well_escaped r'
        | EmptyString => false
        end
      else negb (special c) && well_escaped r
  end.

End Escaping.

(** ** Dumping tables *)
Module Dump.
Import Text Files Parser Py Session Executor Dumper Reading.
Local Open Scope session_scope.

Definition show_create_database_sql (database : string) : string :=
  "SHOW CREATE DATABASE `" ++ database ++ "`".

Definition show_create_table_sql (table : string) : string :=
  "SHOW CREATE TABLE `" ++ table ++ "`".

Definition select_all_sql (table : string) : string :=
  "SELECT * FROM `" ++ table ++ "`".

(** [("@" if may_fail else "")] *)
Definition mark (may_fail : bool) : string :=
  if may_fail then "@" else "".

(** The first line [dump_values] prints. *)
Definition insert_line (table : string) (may_fail : bool) : string :=
  mark may_fail ++ "INSERT INTO `" ++ table ++ "` VALUES".

(** The last line [dump_table] prints. *)
Definition create_line (content : string) (may_fail : bool) : string :=
  mark may_fail ++ content ++ ";".

(** The first line [dump_table] prints. *)
Definition table_comment (name : string) : string := "-- Table: " ++ name.

Definition drop_line (table : string) : string :=
  "@DROP TABLE `" ++ table ++ "`;".

(** [", ".join(escape(f) for f in entry)]: [None] when [escape] raises. *)
Definition escape_entry (entry : list value) : option string :=
  join ", " <$> mapM escape entry.

(** The line of a row, with its comma when [comma] holds. *)
Definition row_line (fields : string) (comma : bool) : string :=
  "(" ++ fields ++ ")" ++ (if comma then "," else "").

Section Driver.
Context {db : Type}.
Variable execute : string -> list sqlarg -> db -> reply db.

(** In the functions below the prints go to [file]; the output of the
    world stands for that stream. *)

(** [dump_database(cnx, database, file, may_fail)] *)
Definition dump_database (database : string) (may_fail : bool) : M db unit :=
  let* r := cursor_execute execute (show_create_database_sql database) [] in
  if r.1 then
    match head r.2 with
    | Some row =>
        match row !! 0%nat with
        | Some name =>
            print ("-- Database: " ++ str name);;
            match row !! 1%nat with
            | Some content => print (mark may_fail ++ str content ++ ";")
            | None => raise
            end
        | None => raise
        end
    | None => raise
    end
  else ret tt.

(** [dump_table(cnx, table, file, may_fail)]; unpacking the row into [name]
    and [content] raises unless it has two columns. *)
Definition dump_table (table : string) (may_fail : bool) : M db unit :=
  let* r := cursor_execute execute (show_create_table_sql table) [] in
  if r.1 then
    match head r.2 with
    | Some [name; content] =>
        print (table_comment (str name));;
        print (create_line (str content) may_fail)
    | _ => raise
    end
  else ret tt.

(** The loop of [dump_values] over the rows [fetchone] gives: it ends at
    the end of the rows or at a row that is false, which an empty row is. *)
Fixpoint values_loop (counter : Z) (rows : list row) : M db unit :=
  match rows with
  | [] => ret tt
  | [] :: _ => ret tt
  | entry :: rest =>
      let counter := (counter - 1)%Z in
      match escape_entry entry with
      | Some fields =>
          print (row_line fields (negb (counter =? 0)%Z));;
          values_loop counter rest
      | None => raise
      end
  end.

(** [dump_values(cnx, table, file, may_fail)]; [rowcount] is what
    [cursor.rowcount] gives after the query. *)
Definition dump_values (rowcount : Z) (table : string) (may_fail : bool) : M db unit :=
  let* r := cursor_execute execute (select_all_sql table) [] in
  if r.1 then
    print (insert_line table may_fail);;
    values_loop rowcount r.2;;
    print ";"
  else ret tt.

(** The body of the loop of [dump] over the tables, for one table and the
    stream [fd] it is written to. *)
Definition dump_one (rowcount : Z) (table : string)
    (may_fail create_table insert add_down : bool) : M db unit :=
  (if create_table then dump_table table may_fail else ret tt);;
  (if insert then dump_values rowcount table may_fail else ret tt);;
  if add_down then
    print "-- migrate: down";;
    if create_table then print (drop_line table)
    else if insert then
      print "-- You should probably add a WHERE clause on the next line ";;
      print "@DELETE FROM `table`;"
    else ret tt
  else ret tt.

(** The first block of [dump], for the database itself.  The DROP DATABASE
    line is to be printed to [fd], a local variable that is bound only
    later, by the loop over the tables: evaluating it raises. *)
Definition dump_start (database : string)
    (may_fail create_database add_down : bool) : M db unit :=
  if create_database then
    dump_database database may_fail;;
    if add_down then
      print "-- migrate: down";;
      raise
    else ret tt
  else ret tt.

End Driver.

(** The lines of the rows: each but the last with a comma. *)
Fixpoint row_lines (fields : list string) : list string :=
  match fields with
  | [] => []
  | [f] => [row_line f false]
  | f :: rest => row_line f true :: row_lines rest
  end.

(** What [dump] prints for a table when it dumps its definition, not its
    rows, and adds the way down. *)
Definition dumped_lines (name content table : string) (may_fail : bool)
    : list string :=
  [table_comment name; create_line content may_fail; "-- migrate: down";
   drop_line table].

(** The migration such a file is: the definition going up, the drop going
    down. *)
Definition dumped_migration (content table : string) (may_fail : bool) : Migration :=
  <["up" := [create_line content may_fail ++ nl]]>
    (<["down" := [drop_line table ++ nl]]> ∅).

(** The text of a file that the lines were printed to. *)
Definition printed (lines : list string) : string :=
  concat_lines ((fun l => l ++ nl) <$> lines).

(** No carriage return in [s]. *)
Fixpoint no_cr (s : string) : bool :=
  match s with
  | EmptyString => true
  | String c r => negb (is_cr c) && no_cr r
  end.

(** A text that reads as one statement: its lines are neither blank nor
    comments, and the last of them, and no other, ends a statement. *)
Definition one_statement (text : string) : Prop :=
  ∃ ls l, file_lines text = (ls ++ [l])%list
          ∧ Forall (fun x => kept x = true ∧ SQL_IS_COMPLETE_match x = false) ls
          ∧ kept l = true ∧ SQL_IS_COMPLETE_match l = true.

(** The answer of a small database to the one query of [dump_table]. *)
Definition table_reply (table name content : string) (sql : string)
    (args : list sqlarg) (d : unit) : reply unit :=
  if String.eqb sql (show_create_table_sql table)
  then Returned d true [[PStr name; PStr content]]
  else Returned d false [].

(** A table definition on three lines. *)
Definition users_ddl : string :=
  "CREATE TABLE `users` (" ++ nl ++ "  `id` int NOT NULL" ++ nl ++ ")".

(** The answer of a small database to the one query of [dump_values]. *)
Definition rows_reply (table : string) (rows : list row) (sql : string)
    (args : list sqlarg) (d : unit) : reply unit :=
  if String.eqb sql (select_all_sql table)
  then Returned d true rows
  else Returned d false [].

Definition users_rows : list row :=
  [[PInt 1; PStr "it's"; PNone]; [PInt 2; PStr "b"; PBool true]].

End Dump.

(** ** The definitions on small inputs *)
Module Checks.
Import Text Files Parser Selector Py Dumper.

Example COMMENTS_on_directive :
  COMMENTS_match ("  -- migrate: up" ++ nl) = Some "migrate: up".
Proof. reflexivity. Qed.

Example SQL_IS_COMPLETE_trailing_comment :
  SQL_IS_COMPLETE_match ("SELECT 1; -- x" ++ nl) = true.
Proof. reflexivity. Qed.

Example MIGRATION_PATERN_on_names :
  MIGRATION_PATERN_match "2020-a.sql" = true
  ∧ MIGRATION_PATERN_match ".hidden.sql" = false
  ∧ MIGRATION_PATERN_match "notes.txt" = false.
Proof. repeat split; reflexivity. Qed.

Example split_dotdot_on_dots :
  split_dotdot "a...b" = ["a"; ".b"]
  ∧ split_dotdot "...." = [""; ""; ""]
  ∧ split_dotdot ".." = [""; ""]
  ∧ split_dotdot "abc" = ["abc"].
Proof. repeat split; reflexivity. Qed.

Example COMMENTS_after_wide_space :
  COMMENTS_match (Doubles.wide_space ++ "-- note" ++ Doubles.nbsp ++ nl)
  = Some "note".
Proof. reflexivity. Qed.

Example MIGRATE_KEY_before_nbsp :
  COMMENTS_match ("-- " ++ Doubles.nbsp ++ "migrate: up" ++ nl) = Some "migrate: up"
  ∧ MIGRATE_KEY_match ("migrate:" ++ Doubles.nbsp ++ "up" ++ Doubles.nbsp ++ "x")
    = Some "up".
Proof. split; reflexivity. Qed.

Example EMPTY_LINE_on_spaces :
  EMPTY_LINE_match (" " ++ Doubles.wide_space ++ Doubles.nbsp ++ nl) = true
  ∧ EMPTY_LINE_match (String "194" " ") = false.
Proof. split; reflexivity. Qed.

Example directive_after_nbsp :
  directive (Doubles.nbsp ++ "-- migrate: down" ++ nl) = true
  ∧ dropped_comment (Doubles.wide_space ++ "-- note" ++ nl) = true
  ∧ read_lines [Doubles.nbsp ++ "-- migrate: down" ++ nl; "DROP TABLE t;" ++ nl]
    = <["down" := ["DROP TABLE t;" ++ nl]]> ∅.
Proof. repeat split; vm_compute; reflexivity. Qed.

Example SQL_IS_COMPLETE_before_nbsp :
  SQL_IS_COMPLETE_match ("SELECT 1;" ++ Doubles.nbsp ++ "-- x" ++ nl) = true.
Proof. reflexivity. Qed.

Example sha256_of_empty :
  Sha256.sha256_hex ""
  = "e3b0c44298fc1c149afbf4c8996fb92427ae41e4649b934ca495991b7852b855".
Proof. vm_compute. reflexivity. Qed.

Example sha256_of_abc :
  Sha256.sha256_hex "abc"
  = "ba7816bf8f01cfea414140de5dae2223b00361a396177a9cb410ff61f20015ad".
Proof. vm_compute. reflexivity. Qed.

Example sha256_of_two_blocks :
  Sha256.sha256_hex "abcdbcdecdefdefgefghfghighijhijkijkljklmklmnlmnomnopnopq"
  = "248d6a61d20638b8e5c026930c3e6039a33ce45964ff2167f6ecedd419db06c1".
Proof. vm_compute. reflexivity. Qed.

Example universal_newlines_on_returns :
  universal_newlines ("a" ++ String "013" (String "010" "b") ++ String "013" "c")
  = "a" ++ nl ++ "b" ++ nl ++ "c".
Proof. reflexivity. Qed.

Example path_join_on_paths :
  path_join "." "a.sql" = "./a.sql" ∧ path_join "" "a" = "a"
  ∧ path_join "d/" "a" = "d/a" ∧ path_join "d" "/a" = "/a".
Proof. repeat split; reflexivity. Qed.

Example read_lines_up_and_down :
  read_lines (file_lines ("-- migrate: up" ++ nl ++ "CREATE TABLE t(id INT);" ++ nl
                          ++ "-- migrate: down" ++ nl ++ "DROP TABLE t;" ++ nl))
  = <["down" := ["DROP TABLE t;" ++ nl]]>
      (<["up" := ["CREATE TABLE t(id INT);" ++ nl]]> ∅).
Proof. vm_compute. reflexivity. Qed.

Example read_lines_bare_file :
  read_lines (file_lines ("SELECT" ++ nl ++ " -- c" ++ nl ++ " 1;" ++ nl ++ "x"))
    !! "up"
  = Some ["SELECT" ++ nl ++ " 1;" ++ nl; "x"].
Proof. vm_compute. reflexivity. Qed.

Example parse_migrations_rev_on_tokens :
  let int := Doubles.int_of_digits in
  _parse_migrations_rev int (Some ["a..b"]) = Selection (Some "a") (Some "b") None None
  ∧ _parse_migrations_rev int (Some [".."]) = Selection None None None None
  ∧ _parse_migrations_rev int (Some ["3"]) = Selection None None None (Some 3%Z)
  ∧ _parse_migrations_rev int (Some ["0"]) = Selection None None (Some ["0"]) None.
Proof. repeat split; reflexivity. Qed.

Example sort_names_on_names :
  sort_names ["b"; "a"; "c"; "ab"] = ["a"; "ab"; "b"; "c"].
Proof. reflexivity. Qed.

Example filter_selection_star :
  filter_selection (Some ["orders"; "*"]) ["users"; "orders"] = ["orders"; "users"].
Proof. vm_compute. reflexivity. Qed.

Example escape_on_values :
  escape (PStr ("it's" ++ nl)) = Some "'it\'s\n'"
  ∧ escape (PDatetime (Datetime 2024 1 2 3 4 5 0)) = Some "'2024-01-02 03:04:05'"
  ∧ escape PNone = Some "NULL"
  ∧ escape (PInt (-12)) = Some "-12".
Proof. repeat split; vm_compute; reflexivity. Qed.

End Checks.

(** ** Properties of the text recognisers *)
Module TextFacts.
Import Text.

Lemma COMMENTS_match_eq line :
  COMMENTS_match line =
  if String.prefix "--" (lstrip line)
  then (let body := strip (drop_chars 2 (lstrip line)) in
        if has_newline body then None else Some body)
  else None.
Proof.
  unfold COMMENTS_match. destruct (lstrip line) as [|c1 [|c2 r]]; [done| |].
  - destruct c1 as [[] [] [] [] [] [] [] []]; reflexivity.
  - destruct c1 as [[] [] [] [] [] [] [] []]; try reflexivity.
    destruct c2 as [[] [] [] [] [] [] [] []]; try reflexivity.
    by destruct r.
Qed.

Lemma newline_free_to_end_tail c s :
  newline_free_to_end (String c s) = true → newline_free_to_end s = true.
Proof. cbn. destruct (is_newline c); [by destruct s|done]. Qed.

(** [lstrip] by the whitespace character at the start. *)
Lemma lstrip_unfold s :
  lstrip s = match space_prefix s with Some r => lstrip r | None => s end.
Proof.
  destruct s as [|c1 [|c2 [|c3 r3]]]; cbn [lstrip space_prefix]; [done| | |].
  - by destruct (is_space c1).
  - destruct (is_space c1); [done|]. by destruct (is_space2 c1 c2).
  - destruct (is_space c1); [done|]. destruct (is_space2 c1 c2); [done|].
    by destruct (is_space3 c1 c2 c3).
Qed.

Lemma space_prefix_suffix s r :
  space_prefix s = Some r → ∃ p, s = p ++ r ∧ (0 < String.length p)%nat.
Proof.
  destruct s as [|c1 [|c2 [|c3 r3]]]; cbn [space_prefix]; [done| | |].
  - destruct (is_space c1); [|done]. intros [= <-].
    exists (String c1 ""). split; [done|cbn; lia].
  - destruct (is_space c1).
    { intros [= <-]. exists (String c1 ""). split; [done|cbn; lia]. }
    destruct (is_space2 c1 c2); [|done]. intros [= <-].
    exists (String c1 (String c2 "")). split; [done|cbn; lia].
  - destruct (is_space c1).
    { intros [= <-]. exists (String c1 ""). split; [done|cbn; lia]. }
    destruct (is_space2 c1 c2).
    { intros [= <-]. exists (String c1 (String c2 "")). split; [done|cbn; lia]. }
    destruct (is_space3 c1 c2 c3); [|done]. intros [= <-].
    exists (String c1 (String c2 (String c3 ""))). split; [done|cbn; lia].
Qed.

Lemma append_cons x (a b : string) : String x a ++ b = String x (a ++ b).
Proof. reflexivity. Qed.

Lemma append_assoc (a b c : string) : (a ++ b) ++ c = a ++ (b ++ c).
Proof. induction a as [|x a IH]; [done|]. rewrite !append_cons. by f_equal. Qed.

Lemma length_append (a b : string) :
  String.length (a ++ b) = (String.length a + String.length b)%nat.
Proof. induction a as [|c a IH]; [done|]. rewrite append_cons. cbn. by rewrite IH. Qed.

(** No whitespace character starts with a byte below 194 that is not
    itself whitespace. *)
Lemma space_prefix_low c s :
  is_space c = false → (nat_of_ascii c <? 194)%nat = true →
  space_prefix (String c s) = None.
Proof.
  intros Hc Hlow. apply Nat.ltb_lt in Hlow. cbn [space_prefix]. rewrite Hc.
  destruct s as [|c2 [|c3 r]]; [done| |].
  - unfold is_space2. cbn zeta.
    by destruct (Nat.eqb_spec (nat_of_ascii c) 194); [lia|].
  - unfold is_space2, is_space3. cbn zeta.
    destruct (Nat.eqb_spec (nat_of_ascii c) 194); [lia|].
    destruct (Nat.eqb_spec (nat_of_ascii c) 225); [lia|].
    destruct (Nat.eqb_spec (nat_of_ascii c) 226); [lia|].
    by destruct (Nat.eqb_spec (nat_of_ascii c) 227); [lia|].
Qed.

Lemma lstrip_low c s :
  is_space c = false → (nat_of_ascii c <? 194)%nat = true →
  lstrip (String c s) = String c s.
Proof. intros Hc Hlow. by rewrite lstrip_unfold, space_prefix_low. Qed.

(** What [lstrip] leaves is the end of the text. *)
Lemma lstrip_suffix s : ∃ p, s = p ++ lstrip s.
Proof.
  remember (String.length s) as n eqn:Hn. revert s Hn.
  induction (lt_wf n) as [n _ IH]. intros s ->.
  rewrite lstrip_unfold. destruct (space_prefix s) as [r|] eqn:Hs.
  - destruct (space_prefix_suffix s r Hs) as (p & -> & Hp).
    destruct (IH (String.length r)) with (s := r) as [q Hq]; [|done|].
    { rewrite length_append. lia. }
    exists (p ++ q). by rewrite append_assoc, <- Hq.
  - by exists "".
Qed.

Lemma newline_free_to_end_app p s :
  newline_free_to_end (p ++ s) = true → newline_free_to_end s = true.
Proof.
  induction p as [|c p IH]; [done|]. intros H.
  by apply IH, (newline_free_to_end_tail c).
Qed.

Lemma newline_free_to_end_lstrip s :
  newline_free_to_end s = true → newline_free_to_end (lstrip s) = true.
Proof.
  destruct (lstrip_suffix s) as [p Hp]. rewrite Hp at 1.
  apply newline_free_to_end_app.
Qed.

Lemma newline_free_to_end_drop n s :
  newline_free_to_end s = true → newline_free_to_end (drop_chars n s) = true.
Proof.
  revert s. induction n as [|n IH]; intros [|c s] H; try done.
  cbn. eauto using newline_free_to_end_tail.
Qed.

Lemma is_newline_space c : is_newline c = true → is_space c = true.
Proof. unfold is_newline. intros ->%Ascii.eqb_eq. reflexivity. Qed.

Lemma rstrip_no_newline s :
  newline_free_to_end s = true → has_newline (rstrip s) = false.
Proof.
  induction s as [|c s IH]; [done|]. cbn [newline_free_to_end rstrip].
  destruct (is_newline c) eqn:Hc.
  - destruct s; [|done]. intros _.
    unfold all_space. cbn [lstrip]. by rewrite (is_newline_space c Hc).
  - intros H. destruct (all_space (String c s)); [done|].
    cbn [has_newline]. by rewrite Hc, IH.
Qed.

(** On a line of a file, COMMENTS matches exactly when the first characters
    after the leading whitespace are two dashes. *)
Lemma COMMENTS_match_line line :
  newline_free_to_end line = true →
  COMMENTS_match line =
  if String.prefix "--" (lstrip line)
  then Some (strip (drop_chars 2 (lstrip line)))
  else None.
Proof.
  intros H. rewrite COMMENTS_match_eq. destruct (String.prefix _ _); [|done].
  cbn zeta. unfold strip. rewrite rstrip_no_newline; [done|].
  by apply newline_free_to_end_lstrip, newline_free_to_end_drop,
    newline_free_to_end_lstrip.
Qed.

(** *** The may-fail marker *)

Lemma lstrip_length s : (String.length (lstrip s) <= String.length s)%nat.
Proof.
  destruct (lstrip_suffix s) as [p Hp]. rewrite Hp at 2.
  rewrite length_append. lia.
Qed.

Lemma has_at_app p s : has_at s = true → has_at (p ++ s) = true.
Proof.
  intros H. induction p as [|c p IH]; [done|].
  rewrite append_cons. cbn [has_at]. by rewrite IH, orb_true_r.
Qed.

Lemma lstrip_has_at s : has_at (lstrip s) = true → has_at s = true.
Proof.
  destruct (lstrip_suffix s) as [p Hp]. rewrite Hp at 2. apply has_at_app.
Qed.

Lemma MAY_FAIL_at_length s r :
  MAY_FAIL_at s = Some r → (String.length r < String.length s)%nat.
Proof.
  unfold MAY_FAIL_at. pose proof (lstrip_length s) as Hl.
  destruct (lstrip s) as [|c r']; [done|].
  destruct (Ascii.eqb_spec c "@") as [->|Hc].
  - intros [= <-]. cbn in Hl. lia.
  - by destruct c as [[] [] [] [] [] [] [] []].
Qed.

Lemma MAY_FAIL_at_has_at s r : MAY_FAIL_at s = Some r → has_at s = true.
Proof.
  unfold MAY_FAIL_at. intros H. apply lstrip_has_at.
  destruct (lstrip s) as [|c r']; [done|].
  destruct (Ascii.eqb_spec c "@") as [->|Hc]; [done|].
  by destruct c as [[] [] [] [] [] [] [] []].
Qed.

Lemma MAY_FAIL_sub_length s :
  (String.length (MAY_FAIL_sub s) <= String.length s)%nat.
Proof.
  induction s as [|c s IH]; [done|]. cbn [MAY_FAIL_sub].
  destruct (MAY_FAIL_at (String c s)) as [r|] eqn:E.
  - apply MAY_FAIL_at_length in E. lia.
  - cbn. lia.
Qed.

(** The substitution changes a statement exactly when the statement has an
    at sign, wherever it stands. *)
Lemma MAY_FAIL_sub_changes s :
  negb (String.eqb (MAY_FAIL_sub s) s) = has_at s.
Proof.
  induction s as [|c s IH]; [done|]. cbn [MAY_FAIL_sub has_at].
  destruct (MAY_FAIL_at (String c s)) as [r|] eqn:E.
  - pose proof (MAY_FAIL_at_has_at _ _ E) as Hat. cbn [has_at] in Hat.
    rewrite Hat. apply MAY_FAIL_at_length in E. apply negb_true_iff, String.eqb_neq.
    intros ->. lia.
  - assert (Ascii.eqb c "@" = false) as ->.
    { destruct (Ascii.eqb_spec c "@") as [->|]; [|done].
      unfold MAY_FAIL_at in E. by rewrite lstrip_low in E. }
    cbn [orb]. rewrite <- IH. f_equal. cbn [String.eqb].
    by rewrite Ascii.eqb_refl.
Qed.

End TextFacts.

(** ** Properties of the parser and of the hash *)
Module ParserFacts.
Import Text Files Parser Doubles TextFacts.

Lemma file_lines_single text :
  Forall (fun l => newline_free_to_end l = true) (file_lines text).
Proof.
  induction text as [|c r IH]; cbn [file_lines]; [constructor|].
  destruct (is_newline c) eqn:Hc.
  - constructor; [|done]. cbn. by rewrite Hc.
  - destruct (file_lines r) as [|l ls].
    + constructor; [|done]. cbn. by rewrite Hc.
    + inversion IH; subst. constructor; [|done]. cbn. by rewrite Hc.
Qed.

Lemma open_lines_single fs path lines :
  open_lines fs path = Some lines →
  Forall (fun l => newline_free_to_end l = true) lines.
Proof.
  unfold open_lines. destruct (fs_read fs path); [|done].
  intros [= <-]. apply file_lines_single.
Qed.

(** A dropped comment leaves the reader as it is. *)
Lemma read_line_dropped st line :
  newline_free_to_end line = true → dropped_comment line = true →
  read_line st line = st.
Proof.
  unfold dropped_comment, full_line_comment, directive, read_line.
  intros Hl. rewrite (COMMENTS_match_line line Hl).
  destruct (String.prefix _ _); [|done]. cbn.
  by destruct (MIGRATE_KEY_match _).
Qed.

Lemma fold_read_line_filter lines st :
  Forall (fun l => newline_free_to_end l = true) lines →
  fold_left read_line (filter (fun l => dropped_comment l = false) lines) st
  = fold_left read_line lines st.
Proof.
  intros H. revert st. induction H as [|l ls Hl _ IH]; intros st; [done|].
  rewrite filter_cons. destruct (dropped_comment l) eqn:Hd.
  - rewrite decide_False by done. cbn. by rewrite read_line_dropped.
  - rewrite decide_True by done. cbn. apply IH.
Qed.

Section Provenance.
Variable lines : list string.

Lemma flush_built key cur m :
  all_built lines m → Forall (clean lines) cur → all_built lines (flush key cur m).
Proof.
  intros Hm Hcur key' stmts. unfold flush. rewrite lookup_insert.
  case_decide as Hk; [|by apply Hm]. intros [= <-].
  assert (Forall (built lines) (default [] (m !! key))) as Hold.
  { destruct (m !! key) eqn:E; [by eapply Hm|constructor]. }
  destruct cur as [|l cur]; [done|].
  apply Forall_app. split; [done|]. constructor; [|constructor].
  by exists (l :: cur).
Qed.

Lemma read_line_ok st l : l ∈ lines → reader_ok lines st → reader_ok lines (read_line st l).
Proof.
  intros Hl [Hm Hcur]. unfold read_line.
  destruct (COMMENTS_match l) as [c|] eqn:Hc.
  - destruct (MIGRATE_KEY_match c); [|done].
    split; cbn; [by apply flush_built|constructor].
  - destruct (EMPTY_LINE_match l); [done|].
    assert (Forall (clean lines) (current st ++ [l])) as Hcur'.
    { apply Forall_app. split; [done|]. by repeat constructor. }
    destruct (SQL_IS_COMPLETE_match l); [|done].
    split; cbn; [by apply flush_built|constructor].
Qed.

Lemma fold_read_line_ok ls st :
  Forall (fun l => l ∈ lines) ls → reader_ok lines st →
  reader_ok lines (fold_left read_line ls st).
Proof.
  intros H. revert st. induction H as [|l ls Hl _ IH]; intros st Hst; [done|].
  cbn. by apply IH, read_line_ok.
Qed.

Lemma read_finish_built st :
  reader_ok lines st → all_built lines (read_finish st).
Proof.
  intros [Hm Hcur]. unfold read_finish.
  set (m := match current st with [] => sections st | _ => _ end).
  assert (all_built lines m) as Hb.
  { subst m. destruct (current st); [done|]. by apply flush_built. }
  clearbody m. destruct (m !! "up") eqn:Hup; [done|].
  destruct (m !! "prolog") as [p|] eqn:Hp; [|done].
  intros key stmts. rewrite lookup_delete. case_decide; [done|].
  rewrite lookup_insert. case_decide; [|by apply Hb].
  intros [= <-]. by eapply Hb.
Qed.

Lemma read_lines_built : all_built lines (read_lines lines).
Proof.
  apply read_finish_built, fold_read_line_ok.
  - by apply Forall_forall.
  - split; [|constructor]. intros key stmts. cbn. by rewrite lookup_empty.
Qed.

End Provenance.

Lemma hex_digit_is_hex x : Sha256.is_hex (Sha256.hex_digit x) = true.
Proof.
  unfold Sha256.is_hex, Sha256.hex_digit. apply bool_decide_eq_true_2.
  generalize (Z.to_nat (Z.land x 15)). intros n.
  do 16 (destruct n as [|n]; [by apply (bool_decide_unpack _)|]).
  destruct n; by apply (bool_decide_unpack _).
Qed.

Lemma hex8_length w rest :
  String.length (Sha256.hex8 w rest) = (8 + String.length rest)%nat.
Proof. reflexivity. Qed.

Lemma hex8_all_hex w rest :
  Sha256.all_hex (Sha256.hex8 w rest) = Sha256.all_hex rest.
Proof.
  unfold Sha256.hex8. cbn [Sha256.all_hex]. by rewrite !hex_digit_is_hex.
Qed.

(** C3: the hash is 64 hexadecimal digits; it is the same for two section
    maps that agree on prolog, up, down and epilog; and so it is the same
    for two files of equal content, whatever their names and directories. *)
Theorem hash_migration_content_only :
  (∀ m, String.length (hash_migration m) = 64%nat
        ∧ Sha256.all_hex (hash_migration m) = true)
  ∧ (∀ m1 m2,
       (∀ key, key ∈ ["prolog"; "up"; "down"; "epilog"] →
               section m1 key = section m2 key) →
       hash_migration m1 = hash_migration m2)
  ∧ (∀ fs1 path1 directory1 fs2 path2 directory2,
       fs_read fs1 (path_join directory1 path1)
       = fs_read fs2 (path_join directory2 path2) →
       hash_migration <$> read_migration fs1 path1 directory1
       = hash_migration <$> read_migration fs2 path2 directory2).
Proof.
  split; [|split].
  - intros m. unfold hash_migration, Sha256.sha256_hex, Sha256.hex_of_regs.
    split; [by rewrite !hex8_length|by rewrite !hex8_all_hex].
  - intros m1 m2 H. unfold hash_migration.
    rewrite !(H _) by (apply (bool_decide_unpack _); reflexivity). done.
  - intros fs1 path1 directory1 fs2 path2 directory2 H.
    unfold read_migration, open_lines. by rewrite H.
Qed.

(** The same content read under two names in two directories, and two
    section maps that differ outside the four sections. *)
Lemma hash_migration_content_only_witness :
  hash_migration <$> read_migration first_disk "20240101-a.sql" "old"
  = hash_migration <$> read_migration renamed_disk "20250101-z.sql" "new"
  ∧ hash_migration (<["notes" := ["x"]]> (up_only "CREATE TABLE a;"))
    = hash_migration (up_only "CREATE TABLE a;").
Proof.
  destruct hash_migration_content_only as (_ & Hsections & Hfiles). split.
  - apply Hfiles. vm_compute. reflexivity.
  - apply Hsections. intros key Hkey. apply list_elem_of_In in Hkey.
    destruct Hkey as [<-|[<-|[<-|[<-|[]]]]]; vm_compute; reflexivity.
Defined.

(** C8: the migration read from a file is the one read from the file without
    its full-line comments that are not directives; and every statement of
    the result is the concatenation of lines of the file, none of which
    starts, after its leading whitespace, with two dashes. *)
Theorem read_migration_drops_comments fs path directory lines :
  open_lines fs (path_join directory path) = Some lines →
  read_migration fs path directory
  = Some (read_lines (filter (fun l => dropped_comment l = false) lines))
  ∧ ∀ m key stmts s,
      read_migration fs path directory = Some m →
      m !! key = Some stmts → s ∈ stmts →
      ∃ ls, s = concat_lines ls ∧ ls ≠ []
            ∧ ∀ l, l ∈ ls → l ∈ lines ∧ full_line_comment l = false.
Proof.
  intros Hopen. pose proof (open_lines_single _ _ _ Hopen) as Hsingle.
  unfold read_migration. rewrite Hopen. cbn. split.
  - unfold read_lines. by rewrite fold_read_line_filter.
  - intros m key stmts s [= <-] Hkey Hs.
    pose proof (read_lines_built lines key stmts Hkey) as Hb.
    rewrite Forall_forall in Hb. destruct (Hb s Hs) as (ls & -> & Hne & Hls).
    exists ls. split; [done|]. split; [done|]. intros l Hl.
    rewrite Forall_forall in Hls. destruct (Hls l Hl) as [Hin Hc].
    split; [done|]. rewrite Forall_forall in Hsingle.
    rewrite (COMMENTS_match_line l (Hsingle l Hin)) in Hc.
    unfold full_line_comment. by destruct (String.prefix _ _).
Qed.

(** A comment between the lines of the one statement of a file. *)
Lemma read_migration_drops_comments_witness :
  read_migration commented_disk "m.sql" "."
  = Some (read_lines (filter (fun l => dropped_comment l = false) commented_lines))
  ∧ ∃ ls, commented_statement = concat_lines ls ∧ ls ≠ []
          ∧ ∀ l, l ∈ ls → l ∈ commented_lines ∧ full_line_comment l = false.
Proof.
  destruct (read_migration_drops_comments commented_disk "m.sql" "." commented_lines)
    as [Hread Hstmts]; [vm_compute; reflexivity|].
  split; [exact Hread|].
  apply (Hstmts (read_lines commented_lines) "up" [commented_statement]).
  - vm_compute. reflexivity.
  - vm_compute. reflexivity.
  - left.
Defined.

End ParserFacts.
(** ** Properties of the selector *)
Module SelectorFacts.
Import Text Files Parser Selector Doubles.

(** A token without two dots in a row is not cut. *)
Lemma split_dotdot_whole s : contains_dotdot s = false → split_dotdot s = [s].
Proof.
  induction s as [|c s IH]; [done|]. cbn [contains_dotdot split_dotdot].
  intros [Hc Hs]%orb_false_elim. rewrite (IH Hs). destruct s as [|c' r']; [done|].
  by rewrite Hc.
Qed.

(** A token that [split_dotdot] cuts in two has two dots in a row. *)
Lemma split_two_contains s a b : split_dotdot s = [a; b] → contains_dotdot s = true.
Proof.
  revert a b. induction s as [|c s IH]; intros a b; [done|].
  cbn [split_dotdot contains_dotdot]. destruct s as [|c' r'].
  - done.
  - destruct (is_dot c && is_dot c') eqn:E; [done|].
    cbn [orb]. destruct (split_dotdot (String c' r')) as [|h [|h' [|? ?]]] eqn:Hs;
      try done.
    intros _. by eapply IH.
Qed.

Section Count.
Variables (fs : filesystem) (directory : string) (n : Z).

Lemma load_loop_count done candidates :
  load_loop fs directory (Selection None None None (Some n)) done candidates
  = omap (loaded fs directory) (take (Z.to_nat (n - done)) candidates).
Proof.
  revert done. induction candidates as [|name rest IH]; intros done.
  - by rewrite take_nil.
  - cbn [load_loop]. unfold wanted. cbn [start_at stop_at includes count andb].
    destruct (Z.ltb_spec done n) as [Hlt|Hge].
    + replace (Z.to_nat (n - done)) with (S (Z.to_nat (n - (done + 1)))) by lia.
      cbn [take omap list_omap]. unfold loaded at 1. rewrite IH.
      by destruct (read_migration fs name directory).
    + rewrite IH. by replace (Z.to_nat (n - done)) with 0%nat by lia.
Qed.

Lemma omap_loaded_all names :
  (∀ name, name ∈ names → is_Some (read_migration fs name directory)) →
  (omap (loaded fs directory) names).*1 = names.
Proof.
  induction names as [|name rest IH]; intros H; [done|].
  cbn. unfold loaded at 1. destruct (H name) as [m ->]; [by left|].
  cbn. f_equal. apply IH. intros ? ?. apply H. by right.
Qed.

End Count.

Section Int.
Variable int : string -> option Z.

(** C4, amended: a single token that the separator cuts in exactly two parts
    is a range, each empty part an open bound; a single token that is not
    cut in exactly two parts, as is every token without the separator, and
    that [int] reads as a positive number is a count; every other list of
    tokens that is not empty is a set of names; and an absent or empty filter
    keeps every candidate. *)
Theorem parse_migrations_rev_dispatch :
  (∀ token a b, split_dotdot token = [a; b] →
     _parse_migrations_rev int (Some [token])
     = Selection (bound a) (bound b) None None)
  ∧ (∀ token n, length (split_dotdot token) ≠ 2%nat →
       int token = Some n → (0 < n)%Z →
       _parse_migrations_rev int (Some [token]) = Selection None None None (Some n))
  ∧ (∀ token, contains_dotdot token = false → split_dotdot token = [token])
  ∧ (∀ filters, filters ≠ [] →
       (∀ token, filters = [token] →
          length (split_dotdot token) ≠ 2%nat
          ∧ ∀ n, int token = Some n → (n ≤ 0)%Z) →
       _parse_migrations_rev int (Some filters)
       = Selection None None (Some filters) None)
  ∧ (∀ filters, filters = None ∨ filters = Some [] →
       _parse_migrations_rev int filters = Selection None None filters None
       ∧ ∀ done name, wanted (_parse_migrations_rev int filters) done name = true).
Proof.
  split; [|split; [|split; [|split]]].
  - intros token a b H. unfold _parse_migrations_rev. by rewrite H.
  - intros token n Hlen Hint Hpos. unfold _parse_migrations_rev. rewrite Hint.
    destruct (Z.ltb_spec 0 n); [|lia].
    by destruct (split_dotdot token) as [|a [|b [|? ?]]].
  - apply split_dotdot_whole.
  - intros filters Hne H. unfold _parse_migrations_rev.
    destruct filters as [|token [|? ?]]; [done| |done].
    destruct (H token eq_refl) as [Hlen Hint].
    destruct (split_dotdot token) as [|a [|b [|? ?]]]; try done;
      (destruct (int token) as [n|]; [|done]);
      (destruct (Z.ltb_spec 0 n); [|done]); specialize (Hint n eq_refl); lia.
  - by intros filters [-> | ->].
Qed.

(** C5, amended: under a count filter [n], the migrations yielded are the
    first [n] candidates, in their order, without those that fail to load;
    when each of the first [n] candidates loads, they are the first [n]
    candidates and their number is the least of [n] and the number of
    candidates. *)
Theorem load_migrations_count fs directory candidates filters n :
  _parse_migrations_rev int filters = Selection None None None (Some n) →
  load_migrations int fs candidates directory filters
  = omap (loaded fs directory) (take (Z.to_nat n) candidates)
  ∧ ((∀ name, name ∈ take (Z.to_nat n) candidates →
              is_Some (read_migration fs name directory)) →
     (load_migrations int fs candidates directory filters).*1
     = take (Z.to_nat n) candidates
     ∧ length (load_migrations int fs candidates directory filters)
       = Nat.min (Z.to_nat n) (length candidates)).
Proof.
  intros Hparse. unfold load_migrations. rewrite Hparse, load_loop_count.
  replace (n - 0)%Z with n by lia. split; [done|]. intros Hall.
  pose proof (omap_loaded_all fs directory _ Hall) as Hnames.
  split; [done|].
  rewrite <- (length_fmap fst), Hnames, length_take. done.
Qed.

End Int.

(** The claim C4 as stated fails, whatever [int] reads: a token with two
    separators is cut in three parts, which is not a range. *)
Lemma range_token_counterexample :
  ¬ (∃ int, ∀ token, contains_dotdot token = true →
       ∃ a b, _parse_migrations_rev int (Some [token]) = Selection a b None None).
Proof.
  intros [int H]. destruct (H "a..b..c" eq_refl) as (a & b & Heq).
  unfold _parse_migrations_rev in Heq. cbn [split_dotdot is_dot] in Heq.
  change (split_dotdot "a..b..c") with ["a"; "b"; "c"] in Heq.
  destruct (int "a..b..c") as [n|]; [|discriminate Heq].
  destruct (0 <? n)%Z; discriminate Heq.
Qed.

(** A range, a count, a token cut in three parts and the empty list. *)
Lemma parse_migrations_rev_dispatch_witness :
  _parse_migrations_rev int_of_digits (Some ["2024..2025"])
  = Selection (Some "2024") (Some "2025") None None
  ∧ _parse_migrations_rev int_of_digits (Some ["3"])
    = Selection None None None (Some 3%Z)
  ∧ split_dotdot "3" = ["3"]
  ∧ _parse_migrations_rev int_of_digits (Some ["a..b..c"])
    = Selection None None (Some ["a..b..c"]) None
  ∧ wanted (_parse_migrations_rev int_of_digits (Some [])) 7 "x.sql" = true.
Proof.
  destruct (parse_migrations_rev_dispatch int_of_digits)
    as (Hrange & Hcount & Hwhole & Hnames & Hall).
  split; [|split; [|split; [|split]]].
  - apply (Hrange "2024..2025" "2024" "2025"). reflexivity.
  - apply (Hcount "3" 3%Z); [by vm_compute|reflexivity|lia].
  - apply (Hwhole "3"). reflexivity.
  - apply (Hnames ["a..b..c"]); [discriminate|].
    intros token [= <-]. split; [by vm_compute|]. intros n. by vm_compute.
  - apply (Hall (Some [])). by right.
Defined.

(** The claim C5 as stated fails for every [int] that reads 1: a candidate
    that cannot be loaded is counted and not yielded. *)
Lemma count_yield_counterexample :
  ¬ (∃ int, int "1" = Some 1%Z
       ∧ ∀ fs directory candidates token n,
           _parse_migrations_rev int (Some [token])
           = Selection None None None (Some n) →
           length (load_migrations int fs candidates directory (Some [token]))
           = Nat.min (Z.to_nat n) (length candidates)).
Proof.
  intros (int & Hone & H).
  assert (_parse_migrations_rev int (Some ["1"])
          = Selection None None None (Some 1%Z)) as Hparse.
  { unfold _parse_migrations_rev. change (split_dotdot "1") with ["1"].
    by rewrite Hone. }
  specialize (H (disk "." [("a.sql", None); ("b.sql", Some "SELECT 1;")]) "."
                ["a.sql"; "b.sql"] "1" 1%Z Hparse).
  unfold load_migrations in H. rewrite Hparse in H.
  vm_compute in H. discriminate H.
Qed.

(** Three candidates, a count of two, every file readable. *)
Lemma load_migrations_count_witness :
  let fs := disk "." [("a.sql", Some "SELECT 1;"); ("b.sql", Some "SELECT 2;");
                      ("c.sql", Some "SELECT 3;")] in
  (load_migrations int_of_digits fs ["a.sql"; "b.sql"; "c.sql"] "." (Some ["2"])).*1
  = ["a.sql"; "b.sql"].
Proof.
  intros fs.
  apply (load_migrations_count int_of_digits fs "." ["a.sql"; "b.sql"; "c.sql"]
           (Some ["2"]) 2%Z).
  - reflexivity.
  - intros name Hin. apply list_elem_of_In in Hin.
    destruct Hin as [<-|[<-|[]]]; eexists; vm_compute; reflexivity.
Defined.

End SelectorFacts.
(** ** Properties of the dumper *)
Module DumperFacts.
Import Text Py Dumper.

Lemma pick_fold existings selection st :
  let st' := fold_left (pick existings) selection st in
  res st' = (res st ++ named selection existings)%list
  ∧ present st' = list_to_set (excluded selection) ∪ list_to_set (named selection existings) ∪ present st
  ∧ star_present st' = star_present st || forces_all selection.
Proof.
  revert st. induction selection as [|item rest IH]; intros st; cbn zeta.
  - cbn. rewrite app_nil_r, orb_false_r. split; [done|]. split; [set_solver|done].
  - cbn [fold_left]. destruct (IH (pick existings st item)) as (Hres & Hpres & Hstar).
    rewrite Hres, Hpres, Hstar. clear IH Hres Hpres Hstar.
    unfold pick, forces_all. cbn [existsb excluded named].
    destruct (String.eqb item "*"); [|destruct (String.prefix "-" item);
      [|destruct (bool_decide (item ∈ existings))]];
      cbn [res present star_present orb app list_to_set foldr];
      rewrite ?orb_true_r, <- ?app_assoc; cbn [app];
      (split; [done|]); (split; [set_solver|done]).
Qed.

(** What [filter_selection] returns, in closed form. *)
Lemma filter_selection_eq selection existings :
  filter_selection (Some selection) existings =
  if (match selection with [] => true | _ => false end) || forces_all selection
  then (named selection existings
          ++ filter (fun e => (e ∉ excluded selection) ∧ (e ∉ named selection existings))
              existings)%list
  else named selection existings.
Proof.
  unfold filter_selection. change (default [] (Some selection)) with selection.
  destruct (pick_fold existings selection
              (Picking [] ∅ match selection with [] => true | _ => false end))
    as (Hres & Hpres & Hstar).
  cbn zeta in *. rewrite Hres, Hpres, Hstar. cbn [res present star_present].
  destruct (_ || _); [|done]. cbn. f_equal.
  apply list_filter_iff. intros e. set_solver.
Qed.

(** C7: with no selection every existing table is selected; once a token is
    the star or starts with a dash, every existing table that is not
    excluded is selected, and nothing is selected that is excluded without
    being named; with tables users and orders and the selection [-users],
    exactly orders is selected. *)
Theorem filter_selection_selects (existings : list string) :
  filter_selection None existings = existings
  ∧ filter_selection (Some []) existings = existings
  ∧ (∀ selection e, forces_all selection = true →
       e ∈ filter_selection (Some selection) existings ↔
       e ∈ existings ∧ (e ∉ excluded selection ∨ e ∈ named selection existings))
  ∧ filter_selection (Some ["-users"]) ["users"; "orders"] = ["orders"].
Proof.
  assert (Hall : ∀ (P : string → Prop) `{!∀ x, Decision (P x)} (l : list string),
             (∀ x, P x) → filter P l = l).
  { intros P ? l HP. induction l as [|x l IH]; [done|].
    rewrite filter_cons, decide_True by done. by rewrite IH. }
  split; [apply Hall; set_solver|]. split; [apply Hall; set_solver|].
  split; [|by vm_compute].
  intros selection e Hstar. rewrite filter_selection_eq, Hstar, orb_true_r.
  rewrite elem_of_app, list_elem_of_filter.
  assert (e ∈ named selection existings → e ∈ existings).
  { clear. induction selection as [|item rest IH]; cbn; [by intros ?%elem_of_nil|].
    repeat case_match; try done. rewrite elem_of_cons. intros [->|?]; [|by auto].
    by eapply bool_decide_eq_true_1. }
  destruct (decide (e ∈ named selection existings)); tauto.
Qed.

(** A selection with a dash token, on the two tables of the example. *)
Lemma filter_selection_selects_witness :
  "orders" ∈ filter_selection (Some ["-users"; "users"]) ["users"; "orders"].
Proof.
  apply (proj1 (proj2 (proj2 (filter_selection_selects ["users"; "orders"])))
           ["-users"; "users"] "orders").
  - reflexivity.
  - split; [|left]; by apply (bool_decide_unpack _).
Defined.

(** C9: [escape] raises exactly on the values that are neither [None] nor an
    instance of [str], [int], [datetime] or [Decimal]; [True], an [int], is
    printed as [True]. *)
Theorem escape_raises_exactly_unsupported :
  (∀ v, match escape v with
        | Some _ => supported v = true
        | None => supported v = false
        end)
  ∧ escape (PBool true) = Some "True".
Proof.
  split; [|reflexivity]. intros v. destruct v; reflexivity.
Qed.

End DumperFacts.
(** ** Properties of the executor *)
Module ExecutorFacts.
Import Text Files Parser Selector Py Session Executor Doubles TextFacts.
Local Open Scope session_scope.

Section Committed.
Context {db : Type}.
Variable execute : string -> list sqlarg -> db -> reply db.
Variable int : string -> option Z.

Lemma keeps_ret {A} (a : A) : keeps_committed (@ret db A a).
Proof. by intros w r w' [= <- <-]. Qed.

Lemma keeps_raise {A} : keeps_committed (@raise db A).
Proof. by intros w r w' [= <- <-]. Qed.

Lemma keeps_bind {A B} (m : M db A) (f : A → M db B) :
  keeps_committed m → (∀ a, keeps_committed (f a)) → keeps_committed (bind m f).
Proof.
  intros Hm Hf w r w'. unfold bind. destruct (m w) as [[a|] w1] eqn:E.
  - intros H. rewrite (Hf _ _ _ _ H). eauto.
  - intros [= <- <-]. eauto.
Qed.

Lemma keeps_try {A} (m h : M db A) :
  keeps_committed m → keeps_committed h → keeps_committed (try_except m h).
Proof.
  intros Hm Hh w r w'. unfold try_except. destruct (m w) as [[a|] w1] eqn:E.
  - intros [= <- <-]. eauto.
  - intros H. rewrite (Hh _ _ _ H). eauto.
Qed.

Lemma keeps_begin : keeps_committed (@begin db).
Proof. by intros w r w' [= <- <-]. Qed.

Lemma keeps_rollback : keeps_committed (@rollback db).
Proof. by intros w r w' [= <- <-]. Qed.

Lemma keeps_print line : keeps_committed (@print db line).
Proof. by intros w r w' [= <- <-]. Qed.

Lemma keeps_cursor_execute sql args :
  keeps_committed (cursor_execute execute sql args).
Proof.
  intros w r w'. unfold cursor_execute.
  by destruct (execute _ _ _); intros [= <- <-].
Qed.

Create HintDb keeps discriminated.
#[local] Hint Resolve keeps_ret keeps_raise keeps_begin keeps_rollback
  keeps_print keeps_cursor_execute : keeps.
#[local] Hint Extern 2 (keeps_committed (bind _ _)) =>
  apply keeps_bind; [|intros ?] : keeps.
#[local] Hint Extern 2 (keeps_committed (try_except _ _)) =>
  apply keeps_try : keeps.
#[local] Hint Extern 3 (keeps_committed (if ?b then _ else _)) =>
  destruct b : keeps.
#[local] Hint Extern 3 (keeps_committed (match ?k with UP => _ | DOWN => _ end)) =>
  destruct k : keeps.

Lemma keeps_run_queries queries : keeps_committed (run_queries execute queries).
Proof. induction queries; cbn [run_queries]; auto 10 with keeps. Qed.
#[local] Hint Resolve keeps_run_queries : keeps.

Lemma keeps_execute_migration name migration kind table template :
  keeps_committed (execute_migration execute name migration kind table template).
Proof. unfold execute_migration. auto 10 with keeps. Qed.

Lemma keeps_record_migration name migration kind table :
  keeps_committed (record_migration execute name migration kind table).
Proof.
  unfold record_migration, insert_migration, delete_migration.
  auto 10 with keeps.
Qed.
#[local] Hint Resolve keeps_execute_migration keeps_record_migration : keeps.

(** [execute_migration] catches whatever its statements raise. *)
Lemma execute_migration_returns name migration kind table template w :
  ∃ ok w', execute_migration execute name migration kind table template w
           = (Val ok, w').
Proof.
  unfold execute_migration, try_except, bind, ret. run_cases; eauto.
Qed.

(** In a single transaction a turn of the loop commits nothing. *)
Lemma apply_one_single_keeps kind table item :
  keeps_committed (apply_one execute kind true table item).
Proof. unfold apply_one. cbn [negb]. auto 10 with keeps. Qed.

Lemma apply_loop_single_keeps kind table migrations :
  keeps_committed (apply_loop execute kind true table migrations).
Proof.
  induction migrations; cbn [apply_loop];
    auto 10 using apply_one_single_keeps with keeps.
Qed.

(** With a transaction for each migration, a turn that succeeds commits all
    the work, and a turn that fails commits nothing. *)
Lemma apply_one_each kind table item w r w' :
  apply_one execute kind false table item w = (r, w') →
  match r with
  | Val true => committed (cnx w') = working (cnx w')
  | _ => committed (cnx w') = committed (cnx w)
  end.
Proof.
  unfold apply_one, bind.
  destruct (begin w) as [[[]|] w1] eqn:E1; [|done].
  pose proof (keeps_begin _ _ _ E1) as K1.
  destruct (execute_migration _ _ _ _ _ _ w1) as [[ok|] w2] eqn:E2.
  2: { intros [= <- <-]. rewrite <- K1. by eapply keeps_execute_migration. }
  pose proof (keeps_execute_migration _ _ _ _ _ _ _ _ E2) as K2.
  destruct ok; cbn [negb].
  - destruct (record_migration _ _ _ _ _ w2) as [[recorded|] w3] eqn:E3.
    2: { intros [= <- <-]. rewrite <- K1, <- K2.
         by eapply keeps_record_migration. }
    pose proof (keeps_record_migration _ _ _ _ _ _ _ E3) as K3.
    destruct recorded.
    + intros [= <- <-]. reflexivity.
    + intros [= <- <-]. cbn. congruence.
  - intros [= <- <-]. cbn. congruence.
Qed.

Lemma apply_loop_each kind table migrations w w' :
  committed (cnx w) = working (cnx w) →
  apply_loop execute kind false table migrations w = (Val true, w') →
  committed (cnx w') = working (cnx w').
Proof.
  revert w. induction migrations as [|item rest IH]; intros w Hw.
  - by intros [= <-].
  - cbn [apply_loop]. unfold bind.
    destruct (apply_one _ _ _ _ _ w) as [[[]|] w1] eqn:E1; try done.
    apply IH. by apply (apply_one_each _ _ _ _ _ _ E1).
Qed.

Lemma apply_loop_app kind one_transaction table l1 l2 w :
  apply_loop execute kind one_transaction table (l1 ++ l2) w =
  match apply_loop execute kind one_transaction table l1 w with
  | (Val true, w1) => apply_loop execute kind one_transaction table l2 w1
  | other => other
  end.
Proof.
  revert w. induction l1 as [|item l1 IH]; intros w; [done|].
  cbn [app apply_loop]. unfold bind.
  destruct (apply_one _ _ _ _ _ w) as [[[]|] w1]; [apply IH|done|done].
Qed.

(** C1: let the migrations [pre] of a batch succeed, leaving the world [w1],
    and let the turn of the next migration fail, by a statement that is not
    may-fail or by the ledger update, leaving the world [w2].  Then the batch
    ends in [w2] whatever follows the failed migration: nothing more is run.
    With one transaction for the batch the committed contents are those
    before the batch; with one transaction for each migration they are the
    contents after [pre], all of whose work, ledger rows included, is
    committed, and they are what the batch [pre] alone commits.  So nothing
    of the failed migration, and no ledger row for it, is committed. *)
Theorem apply_migrations_failure kind one_transaction table template
    pre item post d0 w1 r w2 :
  apply_batch execute pre kind one_transaction table (connect d0) = (Val true, w1) →
  apply_one execute kind one_transaction table item w1 = (r, w2) →
  r ≠ Val true →
  (apply_migrations execute (pre ++ item :: post) kind one_transaction table
     template (connect d0)).2 = w2
  ∧ (if one_transaction then committed (cnx w2) = d0
     else committed (cnx w2) = working (cnx w1)
          ∧ committed (cnx w1) = working (cnx w1)
          ∧ committed (cnx (apply_migrations execute pre kind false table
                              template (connect d0)).2)
            = committed (cnx w2)).
Proof.
  intros Hpre Hitem Hfail. split.
  - unfold apply_migrations, apply_batch, bind in *.
    destruct ((if one_transaction then begin else ret tt) (connect d0))
      as [[[]|] ws] eqn:Es; [|done].
    rewrite apply_loop_app, Hpre. cbn [apply_loop]. unfold bind.
    rewrite Hitem. by destruct r as [[]|].
  - destruct one_transaction.
    + rewrite (apply_one_single_keeps _ _ _ _ _ _ Hitem).
      unfold apply_batch, bind in Hpre. cbn in Hpre.
      by rewrite (apply_loop_single_keeps _ _ _ _ _ _ Hpre).
    + unfold apply_batch, bind in Hpre. cbn in Hpre.
      pose proof (apply_loop_each _ _ _ (connect d0) _ eq_refl Hpre) as Hclean.
      pose proof (apply_one_each _ _ _ _ _ _ Hitem) as Hsame.
      assert (committed (cnx w2) = committed (cnx w1)) as ->
        by (by destruct r as [[]|]).
      split; [done|]. split; [done|].
      unfold apply_migrations, apply_batch, bind. cbn. by rewrite Hpre.
Qed.

(** *** Listing the pending migrations *)

Lemma pending_loop_total table loaded w :
  ∃ out w', pending_loop execute table loaded w = (Val out, w').
Proof.
  revert w. induction loaded as [|[name migration] rest IH]; intros w.
  - by eexists _, _.
  - cbn [pending_loop]. unfold bind, try_except, ret.
    destruct (is_pending execute name migration table w) as [[keep|] w1];
      destruct (IH w1) as (out & w' & ->); by eexists _, _.
Qed.

Lemma pending_loop_app table l1 l2 w out1 w1 :
  pending_loop execute table l1 w = (Val out1, w1) →
  pending_loop execute table (l1 ++ l2) w
  = match pending_loop execute table l2 w1 with
    | (Val out2, w') => (Val (out1 ++ out2)%list, w')
    | (Exc, w') => (Exc, w')
    end.
Proof.
  revert w out1. induction l1 as [|[name migration] l1 IH]; intros w out1.
  - intros [= <- <-]. cbn. by destruct (pending_loop _ _ _ _) as [[?|] ?].
  - cbn [app pending_loop]. unfold bind, try_except, ret.
    destruct (is_pending execute name migration table w) as [[keep|] wa].
    + destruct (pending_loop execute table l1 wa) as [[o1|] wb] eqn:E1; [|done].
      intros [= <- <-]. rewrite (IH _ _ E1).
      destruct (pending_loop execute table l2 _) as [[?|] ?]; [|done].
      by destruct keep.
    + destruct (pending_loop execute table l1 wa) as [[o1|] wb] eqn:E1; [|done].
      intros [= <- <-]. rewrite (IH _ _ E1).
      by destruct (pending_loop execute table l2 _) as [[?|] ?].
Qed.

(** C6: when the pending check of a loaded migration raises, as it does when
    the ledger table does not exist, the migration is yielded, after the
    migrations yielded before it, and the listing goes on with the
    migrations after it; the listing itself returns. *)
Theorem pending_migrations_keeps_unchecked fs directory filters table names
    l1 name migration l2 w out1 w1 w2 :
  list_directory fs directory false = Some names →
  load_migrations int fs names directory filters
  = (l1 ++ (name, migration) :: l2)%list →
  pending_loop execute table l1 w = (Val out1, w1) →
  is_pending execute name migration table w1 = (Exc, w2) →
  ∃ out2 w',
    pending_loop execute table l2 w2 = (Val out2, w')
    ∧ pending_migrations execute int fs directory filters table w
      = (Val (out1 ++ (name, migration) :: out2)%list, w').
Proof.
  intros Hdir Hload H1 Hraise.
  destruct (pending_loop_total table l2 w2) as (out2 & w' & H2).
  exists out2, w'. split; [done|].
  unfold pending_migrations. rewrite Hdir. cbn [lift_option]. unfold bind at 1.
  cbn [ret]. rewrite Hload, (pending_loop_app _ _ _ _ _ _ H1).
  cbn [pending_loop]. unfold bind, try_except, ret. by rewrite Hraise, H2.
Qed.

(** *** The status report *)

Lemma load_migrations_all fs names directory :
  (load_migrations int fs names directory None).*1
  = filter (fun name => is_Some (read_migration fs name directory)) names.
Proof.
  unfold load_migrations. cbn [_parse_migrations_rev]. generalize 0%Z.
  induction names as [|name rest IH]; intros n0; [done|].
  rewrite filter_cons. cbn [load_loop]. unfold wanted.
  cbn [start_at stop_at includes count andb].
  destruct (read_migration fs name directory) eqn:E.
  - rewrite decide_True by done. cbn [fmap list_fmap fst]. by rewrite IH.
  - rewrite decide_False by (by intros [? ?]). apply IH.
Qed.

Lemma print_lines_run lines (w : world db) :
  print_lines lines w = (Val tt, World (cnx w) (stdout w ++ lines)%list).
Proof.
  revert w. induction lines as [|l rest IH]; intros w; cbn [print_lines].
  - rewrite app_nil_r. by destruct w.
  - unfold bind, print. cbn. rewrite IH. cbn. by rewrite <- app_assoc.
Qed.

Lemma cursor_execute_silent sql args w r w' :
  cursor_execute execute sql args w = (r, w') → stdout w' = stdout w.
Proof. unfold cursor_execute. by destruct (execute _ _ _); intros [= <- <-]. Qed.

(** With [show_missings] the first loop prints nothing, and [found] grows by
    the name of every migration that was loaded. *)
Lemma status_loop_missings table loaded found w :
  match status_loop execute true table loaded found w with
  | (Val f, w') => f = (found ++ loaded.*1)%list ∧ stdout w' = stdout w
  | (Exc, w') => stdout w' = stdout w
  end.
Proof.
  revert found w. induction loaded as [|[name migration] rest IH]; intros found w.
  - cbn. by rewrite app_nil_r.
  - cbn [status_loop]. unfold _migration_status. unfold bind, ret.
    destruct (cursor_execute execute (status_sql table)
                [ArgStr (hash_migration migration); ArgStr name] w)
      as [[a|] wa] eqn:Ea;
      pose proof (cursor_execute_silent _ _ _ _ _ Ea) as Sa; [|done].
    cbn [fst snd].
    assert (∃ r, status_line name (hash_migration migration)
                   (if a.1 then head a.2 else None) wa = (r, wa)) as [r ->].
    { unfold status_line, ret, raise. repeat case_match; by eexists. }
    destruct r as [line|]; [|done].
    specialize (IH (found ++ [name])%list wa).
    destruct (status_loop _ _ _ _ _ wa) as [[f|] wb].
    + destruct IH as [-> ->]. cbn. by rewrite <- app_assoc, Sa.
    + by rewrite IH.
Qed.

(** C10, amended: with [show_missings] the filters play no role; nothing is
    printed for the migrations of the directory; the one query asks for the
    ledger rows whose name is not in [found], which holds the empty name and
    the name of every migration of the directory that loads; and what is
    printed is one M line for each row of the answer.  When a status lookup
    or that query raises, nothing is printed. *)
Theorem status_missings_only fs directory filters table names w :
  list_directory fs directory false = Some names →
  let found := EmptyString
               :: filter (fun name => is_Some (read_migration fs name directory)) names in
  status_migrations execute int fs directory filters true table w
  = status_migrations execute int fs directory None true table w
  ∧ match status_migrations execute int fs directory filters true table w with
    | (Val _, w') =>
        ∃ w1 d res rows,
          stdout w1 = stdout w
          ∧ execute (missing_sql table) [ArgList found] (working (cnx w1))
            = Returned d res rows
          ∧ stdout w' = (stdout w ++ (missing_line <$> rows))%list
    | (Exc, w') => stdout w' = stdout w
    end.
Proof.
  intros Hdir found. split; [done|].
  unfold status_migrations. rewrite Hdir. cbn [lift_option]. unfold bind at 1.
  cbn [ret]. unfold bind at 1.
  pose proof (status_loop_missings table (load_migrations int fs names directory None)
                [EmptyString] w) as Hloop.
  destruct (status_loop _ _ _ _ _ w) as [[f|] w1]; [|done].
  destruct Hloop as [-> Hout]. rewrite load_migrations_all. cbn [app].
  fold found. unfold bind, cursor_execute. cbn.
  destruct (execute (missing_sql table) [ArgList found] (working (cnx w1)))
    as [d|d res rows] eqn:E; [done|].
  rewrite print_lines_run. cbn. exists w1, d, res, rows. by rewrite Hout.
Qed.

End Committed.

(** The claim C10 as stated fails: a file of the directory that cannot be
    loaded does not count as found. *)
Lemma missings_found_counterexample :
  ¬ (∃ int, ∀ fs directory table names found (w w' : world unit),
       list_directory fs directory false = Some names →
       status_loop FakeConnection_execute true table
         (load_migrations int fs names directory None) [EmptyString] w
       = (Val found, w') →
       ∀ name, name ∈ names → name ∈ found).
Proof.
  intros [int H].
  specialize (H (disk "." [("a.sql", None)]) "." "migrate" ["a.sql"] [""]
                (connect tt) (connect tt) eq_refl eq_refl "a.sql").
  assert (Hin : "a.sql" ∈ [EmptyString]) by (apply H; by left).
  apply list_elem_of_singleton in Hin. discriminate Hin.
Qed.

(** *** The scenarios *)

(** The batch of five whose third migration fails, with a transaction for
    each migration and with one transaction for the batch. *)
Lemma apply_migrations_failure_witness :
  let execute := memory_execute "migrate" in
  let batch := (batch_before ++ batch_failing :: batch_after)%list in
  (let w1 := (apply_batch execute batch_before UP false "migrate"
                (connect empty_ledger)).2 in
   let w2 := (apply_one execute UP false "migrate" batch_failing w1).2 in
   (apply_migrations execute batch UP false "migrate" ∅ (connect empty_ledger)).2 = w2
   ∧ committed (cnx w2) = working (cnx w1)
     ∧ committed (cnx w1) = working (cnx w1)
     ∧ committed (cnx (apply_migrations execute batch_before UP false "migrate" ∅
                         (connect empty_ledger)).2)
       = committed (cnx w2))
  ∧ (let w1 := (apply_batch execute batch_before UP true "migrate"
                  (connect empty_ledger)).2 in
     let w2 := (apply_one execute UP true "migrate" batch_failing w1).2 in
     (apply_migrations execute batch UP true "migrate" ∅ (connect empty_ledger)).2 = w2
     ∧ committed (cnx w2) = empty_ledger).
Proof.
  intros execute batch. split.
  - intros w1 w2.
    apply (apply_migrations_failure execute UP false "migrate" ∅
             batch_before batch_failing batch_after empty_ledger w1 (Val false) w2).
    + vm_compute. reflexivity.
    + vm_compute. reflexivity.
    + discriminate.
  - intros w1 w2.
    apply (apply_migrations_failure execute UP true "migrate" ∅
             batch_before batch_failing batch_after empty_ledger w1 (Val false) w2).
    + vm_compute. reflexivity.
    + vm_compute. reflexivity.
    + discriminate.
Defined.

(** What that batch leaves committed and printed, in each mode. *)
Example batch_of_five_each :
  let w := (apply_migrations (memory_execute "migrate")
              (batch_before ++ batch_failing :: batch_after) UP false "migrate" ∅
              (connect empty_ledger)).2 in
  (ledger (committed (cnx w))).*1 = ["20240102-b.sql"; "20240101-a.sql"]
  ∧ ran (committed (cnx w)) = ["CREATE TABLE a;"; "CREATE TABLE b;"]
  ∧ stdout w = ["20240101-a.sql"; "20240102-b.sql"].
Proof. vm_compute. done. Qed.

Example batch_of_five_single :
  let w := (apply_migrations (memory_execute "migrate")
              (batch_before ++ batch_failing :: batch_after) UP true "migrate" ∅
              (connect empty_ledger)).2 in
  committed (cnx w) = empty_ledger
  ∧ stdout w = ["20240101-a.sql"; "20240102-b.sql"].
Proof. vm_compute. done. Qed.

(** A database without a ledger table: the check of the first migration
    raises, and the migration is listed. *)
Lemma pending_migrations_keeps_unchecked_witness :
  ∃ out2 w',
    pending_migrations (memory_execute "migrate") int_of_digits install_disk
      "migrations" None "migrate" (connect no_ledger)
    = (Val (install_item :: out2), w').
Proof.
  destruct (pending_migrations_keeps_unchecked (memory_execute "migrate")
              int_of_digits install_disk "migrations" None "migrate"
              ["20240101-install.sql"; "20240102-a.sql"]
              [] install_item.1 install_item.2 [second_item]
              (connect no_ledger) [] (connect no_ledger)
              (is_pending (memory_execute "migrate") install_item.1 install_item.2
                 "migrate" (connect no_ledger)).2)
    as (out2 & w' & _ & Hlist).
  - vm_compute. reflexivity.
  - vm_compute. reflexivity.
  - reflexivity.
  - vm_compute. reflexivity.
  - by exists out2, w'.
Defined.

Example pending_without_ledger :
  (pending_migrations (memory_execute "migrate") int_of_digits install_disk
     "migrations" None "migrate" (connect no_ledger)).1
  = Val [install_item; second_item].
Proof. vm_compute. reflexivity. Qed.

(** Applying what is listed there creates the ledger table and records
    both migrations. *)
Example bootstrap_creates_ledger :
  let w := (apply_migrations (memory_execute "migrate") [install_item; second_item]
              UP false "migrate" ∅ (connect no_ledger)).2 in
  has_ledger (committed (cnx w)) = true
  ∧ (ledger (committed (cnx w))).*1 = ["20240102-a.sql"; "20240101-install.sql"]
  ∧ ran (committed (cnx w)) = ["CREATE LEDGER;" ++ nl; "CREATE TABLE a;" ++ nl].
Proof. vm_compute. done. Qed.

(** A directory with a file that cannot be read, and a filter that the
    report does not look at. *)
Lemma status_missings_only_witness :
  let execute := memory_execute "migrate" in
  let w := connect three_rows in
  let found := EmptyString
               :: filter (fun name =>
                            is_Some (read_migration partly_unreadable_disk name "."))
                    ["20240101-a.sql"; "20240102-b.sql"] in
  status_migrations execute int_of_digits partly_unreadable_disk "."
    (Some ["20240102-b.sql"]) true "migrate" w
  = status_migrations execute int_of_digits partly_unreadable_disk "." None true
      "migrate" w
  ∧ match status_migrations execute int_of_digits partly_unreadable_disk "."
            (Some ["20240102-b.sql"]) true "migrate" w with
    | (Val _, w') =>
        ∃ w1 d res rows,
          stdout w1 = stdout w
          ∧ execute (missing_sql "migrate") [ArgList found] (working (cnx w1))
            = Returned d res rows
          ∧ stdout w' = (stdout w ++ (missing_line <$> rows))%list
    | (Exc, w') => stdout w' = stdout w
    end.
Proof.
  intros execute w found.
  apply (status_missings_only execute int_of_digits partly_unreadable_disk "."
           (Some ["20240102-b.sql"]) "migrate"
           ["20240101-a.sql"; "20240102-b.sql"] w).
  vm_compute. reflexivity.
Defined.

(** What is printed there: the file that cannot be read is reported as
    missing. *)
Example report_of_missings :
  let r := status_migrations (memory_execute "migrate") int_of_digits
             partly_unreadable_disk "."
             (Some ["20240102-b.sql"]) true "migrate" (connect three_rows) in
  r.1 = Val tt
  ∧ stdout r.2 = ["M 20240102-b.sql 2024-01-01 00:00:00 h2";
                  "M 20240109-gone.sql 2024-01-01 00:00:00 h3"].
Proof. vm_compute. done. Qed.

(** *** The may-fail marker *)

(** C2 fails on the code: a statement is flagged may-fail exactly when it
    has an at sign, wherever it stands.  The statement below starts with S,
    yet it is flagged, its text is changed before it is executed, and its
    failure does not abort the migration. *)
Theorem may_fail_marker_inside :
  (∀ query, negb (String.eqb (MAY_FAIL_sub query) query) = has_at query)
  ∧ MAY_FAIL_sub "SELECT 'a@b';" = "SELECT 'ab';"
  ∧ execute_migration failing_execute "m" (up_only "SELECT 'a@b';") UP
      "migrate" ∅ (connect tt)
    = (Val true, World (Connection tt tt [Execute "SELECT 'ab';" []]) []).
Proof.
  split; [apply MAY_FAIL_sub_changes|]. split; reflexivity.
Qed.

(** A leading marker is taken off with the whitespace before it, and a
    statement without an at sign runs as it is and its failure aborts. *)
Example may_fail_marker_leading :
  MAY_FAIL_sub "  @DROP TABLE t;" = "DROP TABLE t;"
  ∧ execute_migration failing_execute "m" (up_only "DROP TABLE t;") UP
      "migrate" ∅ (connect tt)
    = (Val false, World (Connection tt tt [Execute "DROP TABLE t;" []]) []).
Proof. split; reflexivity. Qed.

End ExecutorFacts.
(** ** More on the parser *)
Module ReadingFacts.
Import Text Files Parser Doubles Reading TextFacts.

Lemma append_nil_r (a : string) : a ++ "" = a.
Proof. induction a as [|x a IH]; [done|]. rewrite append_cons. by f_equal. Qed.

Lemma concat_lines_app (l1 l2 : list string) :
  concat_lines (l1 ++ l2) = concat_lines l1 ++ concat_lines l2.
Proof.
  induction l1 as [|x l1 IH]; [done|]. cbn. unfold concat_lines in IH.
  by rewrite IH, append_assoc.
Qed.

Lemma directive_key_directive line :
  directive line = false → directive_key line = None.
Proof.
  unfold directive, directive_key. destruct (COMMENTS_match line); [|done].
  by destruct (MIGRATE_KEY_match _).
Qed.

(** *** A file without directives *)

Lemma flush_prolog cur m :
  only_prolog m →
  only_prolog (flush "prolog" cur m)
  ∧ concat_lines (section (flush "prolog" cur m) "prolog")
    = concat_lines (section m "prolog") ++ concat_lines cur.
Proof.
  intros Hm. unfold flush, section. split.
  - intros k Hk. rewrite lookup_insert_ne by done. by apply Hm.
  - rewrite lookup_insert_eq. cbn. destruct cur as [|l cur].
    + cbn. by rewrite append_nil_r.
    + rewrite concat_lines_app. cbn. by rewrite append_nil_r.
Qed.

Lemma read_line_bare st line :
  key st = "prolog" → only_prolog (sections st) → directive line = false →
  key (read_line st line) = "prolog"
  ∧ only_prolog (sections (read_line st line))
  ∧ held (read_line st line)
    = held st ++ (if kept line then line else "").
Proof.
  intros Hk Hm Hd. unfold read_line, kept, held. unfold directive in Hd.
  destruct (COMMENTS_match line) as [c|].
  - destruct (MIGRATE_KEY_match c); [done|]. by rewrite append_nil_r.
  - destruct (EMPTY_LINE_match line); cbn [negb]; [by rewrite append_nil_r|].
    destruct (SQL_IS_COMPLETE_match line); cbn [key sections current].
    + rewrite Hk. destruct (flush_prolog (current st ++ [line]) _ Hm) as [H1 H2].
      split; [done|]. split; [done|]. rewrite H2, concat_lines_app. cbn.
      by rewrite !append_nil_r, append_assoc.
    + split; [done|]. split; [done|]. rewrite concat_lines_app. cbn.
      by rewrite !append_nil_r, append_assoc.
Qed.

Lemma fold_read_line_bare lines st :
  key st = "prolog" → only_prolog (sections st) →
  (∀ l, l ∈ lines → directive l = false) →
  let st' := fold_left read_line lines st in
  key st' = "prolog" ∧ only_prolog (sections st')
  ∧ held st' = held st ++ concat_lines (filter (fun l => kept l = true) lines).
Proof.
  revert st. induction lines as [|l lines IH]; intros st Hk Hm Hd; cbn zeta.
  - cbn. by rewrite append_nil_r.
  - destruct (read_line_bare st l Hk Hm) as (Hk' & Hm' & Ht').
    { apply Hd. by left. }
    destruct (IH (read_line st l) Hk' Hm') as (Hk2 & Hm2 & Ht2).
    { intros ? ?. apply Hd. by right. }
    cbn [fold_left]. split; [done|]. split; [done|].
    rewrite Ht2, Ht', append_assoc. f_equal. rewrite filter_cons.
    destruct (kept l); [by rewrite decide_True|by rewrite decide_False].
Qed.

(** A file without a directive is an up-only migration: the result has no
    section but up, and the statements of up, put end to end, are the lines
    of the file that are neither blank nor full-line comments, in their
    order. *)
Theorem read_migration_bare_file fs path directory lines :
  open_lines fs (path_join directory path) = Some lines →
  (∀ l, l ∈ lines → directive l = false) →
  ∃ m, read_migration fs path directory = Some m
       ∧ (∀ key, key ≠ "up" → m !! key = None)
       ∧ concat_lines (section m "up")
         = concat_lines (filter (fun l => kept l = true) lines).
Proof.
  intros Hopen Hd. unfold read_migration. rewrite Hopen. cbn [fmap option_fmap option_map].
  eexists. split; [reflexivity|].
  destruct (fold_read_line_bare lines reader_init eq_refl) as (Hk & Hm & Ht);
    [by intros k _; cbn; rewrite lookup_empty|done|].
  cbn zeta in *. unfold read_lines, read_finish.
  set (st := fold_left read_line lines reader_init) in *.
  change (held st = concat_lines (filter (fun l => kept l = true) lines)) in Ht.
  set (m := match current st with [] => sections st | _ => _ end).
  assert (only_prolog m ∧ concat_lines (section m "prolog")
          = concat_lines (filter (fun l => kept l = true) lines)) as [Hm' Ht'].
  { subst m. rewrite <- Ht. unfold held. destruct (current st) as [|l cur] eqn:Hc.
    - split; [done|]. cbn. by rewrite append_nil_r.
    - rewrite Hk. by apply flush_prolog. }
  clearbody m. rewrite (Hm' "up") by done.
  destruct (m !! "prolog") as [p|] eqn:Hp.
  - split.
    + intros k Hne. destruct (decide (k = "prolog")) as [->|Hkp].
      * by rewrite lookup_delete_eq.
      * rewrite lookup_delete_ne by done. rewrite lookup_insert_ne by done.
        by apply Hm'.
    + unfold section in *. rewrite lookup_delete_ne by done.
      rewrite lookup_insert_eq. by rewrite Hp in Ht'.
  - split.
    + intros k Hne. destruct (decide (k = "prolog")) as [->|Hkp]; [done|].
      by apply Hm'.
    + unfold section in *. rewrite (Hm' "up") by done. by rewrite Hp in Ht'.
Qed.

(** *** Where a statement ends *)

Lemma kept_lines_app l1 l2 :
  kept_lines (l1 ++ l2) = (kept_lines l1 ++ kept_lines l2)%list.
Proof. apply filter_app. Qed.

Lemma kept_lines_one line :
  kept_lines [line] = if kept line then [line] else [].
Proof.
  unfold kept_lines. rewrite filter_cons, filter_nil.
  destruct (kept line); [by rewrite decide_True|by rewrite decide_False].
Qed.

Lemma run_of_more lines more ls l s :
  run_of lines ls l s → run_of (lines ++ more) ls l s.
Proof.
  intros ((pre & post & Hk) & Hs & Hopen). split; [|done].
  exists pre, (post ++ kept_lines more)%list.
  by rewrite kept_lines_app, Hk, <- !app_assoc.
Qed.

Lemma all_one_terminator_more lines more m :
  all_one_terminator lines m → all_one_terminator (lines ++ more) m.
Proof.
  intros Hm key stmts Hkey. eapply Forall_impl; [by eapply Hm|].
  intros s (ls & l & Hrun). exists ls, l. by apply run_of_more.
Qed.

Lemma ended_more lines more m l : ended lines m l → ended (lines ++ more) m l.
Proof.
  intros (key & stmts & ls & s & Hkey & Hs & Hrun).
  exists key, stmts, ls, s. eauto using run_of_more.
Qed.

(** The statement that [flush] files is made of the lines collected. *)
Lemma flush_one_terminator lines key pre cur m :
  all_one_terminator lines m →
  kept_lines lines = (pre ++ cur)%list → Forall open_line (removelast cur) →
  all_one_terminator lines (flush key cur m).
Proof.
  intros Hm Hk Hcur key' stmts. unfold flush. rewrite lookup_insert.
  case_decide as Hkey; [|by apply Hm]. intros [= <-].
  assert (Forall (one_terminator lines) (default [] (m !! key))) as Hold.
  { destruct (m !! key) eqn:E; [by eapply Hm|constructor]. }
  destruct cur as [|x cur]; [done|].
  apply Forall_app. split; [done|]. constructor; [|constructor].
  exists (removelast (x :: cur)), (List.last (x :: cur) "").
  split; [|split; [|done]].
  - exists pre, []. rewrite app_nil_r, Hk. f_equal.
    by apply app_removelast_last.
  - f_equal. by apply app_removelast_last.
Qed.

(** [flush] keeps the statements there are. *)
Lemma flush_keeps key cur m k stmts s :
  m !! k = Some stmts → s ∈ stmts →
  ∃ stmts', flush key cur m !! k = Some stmts' ∧ s ∈ stmts'.
Proof.
  intros Hk Hs. unfold flush. rewrite lookup_insert. case_decide as Hkey.
  - subst k. rewrite Hk. cbn [default]. destruct cur.
    + by exists stmts.
    + eexists. split; [done|]. apply elem_of_app. by left.
  - by exists stmts.
Qed.

Lemma flush_ended lines key cur m l :
  ended lines m l → ended lines (flush key cur m) l.
Proof.
  intros (k & stmts & ls & s & Hk & Hs & Hrun).
  destruct (flush_keeps key cur m k stmts s Hk Hs) as (stmts' & Hk' & Hs').
  by exists k, stmts', ls, s.
Qed.

(** [flush] files the lines collected. *)
Lemma flush_files key cur l m :
  ∃ stmts, flush key (cur ++ [l]) m !! key = Some stmts
           ∧ concat_lines (cur ++ [l]) ∈ stmts.
Proof.
  unfold flush. rewrite lookup_insert_eq. eexists. split; [done|].
  destruct (cur ++ [l])%list eqn:E; [by destruct cur|].
  apply elem_of_app. right. by left.
Qed.

Lemma removelast_open cur : Forall open_line cur → Forall open_line (removelast cur).
Proof.
  induction 1 as [|l cur Hl Hcur IH]; [constructor|]. cbn.
  destruct cur; [constructor|]. by constructor.
Qed.

Lemma read_line_cut seen st line :
  cut_ok seen st → cut_ok (seen ++ [line]) (read_line st line).
Proof.
  intros (Hm & [pre Hpre] & Hcur & Hend).
  assert (kept line = false → cut_ok (seen ++ [line]) st) as Hsame.
  { intros Hk. split; [by apply all_one_terminator_more|]. split.
    - exists pre. by rewrite kept_lines_app, kept_lines_one, Hk, app_nil_r.
    - split; [done|].
      intros l [Hl|Hl%list_elem_of_singleton]%elem_of_app Hkl Hc.
      + by apply ended_more, Hend.
      + subst. congruence. }
  assert (kept line = false → ∀ k,
          cut_ok (seen ++ [line]) (Reader (flush k (current st) (sections st)) [] k))
    as Hflush.
  { intros Hk k. destruct (Hsame Hk) as (Hm' & [pre' Hpre'] & _ & Hend').
    split; [|split; [|split]]; cbn [sections current].
    - eapply flush_one_terminator; [done..|by apply removelast_open].
    - eexists. by rewrite app_nil_r.
    - constructor.
    - intros l Hl Hkl Hc. by apply flush_ended, Hend'. }
  unfold read_line. unfold kept in Hsame, Hflush.
  destruct (COMMENTS_match line) as [c|] eqn:Hcom.
  - destruct (MIGRATE_KEY_match c); [by apply Hflush|by apply Hsame].
  - destruct (EMPTY_LINE_match line) eqn:Hempty; [by apply Hsame|].
    assert (kept line = true) as Hk by (unfold kept; by rewrite Hcom, Hempty).
    assert (kept_lines (seen ++ [line]) = (pre ++ current st ++ [line])%list)
      as Hpre'.
    { by rewrite kept_lines_app, kept_lines_one, Hk, Hpre, <- app_assoc. }
    destruct (SQL_IS_COMPLETE_match line) eqn:Hc.
    + split; [|split; [|split]]; cbn [sections current].
      * eapply flush_one_terminator;
          [by apply all_one_terminator_more|done|by rewrite removelast_last].
      * eexists. by rewrite app_nil_r.
      * constructor.
      * intros l [Hl|Hl%list_elem_of_singleton]%elem_of_app Hkl Hcl.
        -- by apply flush_ended, ended_more, Hend.
        -- subst l.
           destruct (flush_files (key st) (current st) line (sections st))
             as (stmts & Hkey & Hin).
           exists (key st), stmts, (current st), (concat_lines (current st ++ [line])).
           split; [done|]. split; [done|]. split; [|done].
           exists pre, []. by rewrite app_nil_r.
    + split; [|split; [|split]]; cbn [sections current].
      * by apply all_one_terminator_more.
      * by exists pre.
      * apply Forall_app. split; [done|]. by repeat constructor.
      * intros l [Hl|Hl%list_elem_of_singleton]%elem_of_app Hkl Hcl.
        -- by apply ended_more, Hend.
        -- subst. congruence.
Qed.

Lemma fold_read_line_cut lines :
  cut_ok lines (fold_left read_line lines reader_init).
Proof.
  induction lines as [|line lines IH] using rev_ind.
  - split; [|split; [|split]].
    + intros key stmts. cbn. by rewrite lookup_empty.
    + by exists [].
    + constructor.
    + by intros l ?%elem_of_nil.
  - rewrite fold_left_app. cbn. by apply read_line_cut.
Qed.

Lemma read_lines_cut lines :
  all_one_terminator lines (read_lines lines)
  ∧ ∀ l, l ∈ lines → kept l = true → SQL_IS_COMPLETE_match l = true →
         ended lines (read_lines lines) l.
Proof.
  destruct (fold_read_line_cut lines) as (Hm & [pre Hpre] & Hcur & Hend).
  unfold read_lines, read_finish.
  set (st := fold_left read_line lines reader_init) in *.
  set (m := match current st with [] => sections st | _ => _ end).
  assert (all_one_terminator lines m
          ∧ ∀ l, l ∈ lines → kept l = true → SQL_IS_COMPLETE_match l = true →
                 ended lines m l) as [Hb He].
  { subst m. destruct (current st) as [|x cur] eqn:Hc; [done|]. split.
    - eapply flush_one_terminator; [done..|by apply removelast_open].
    - intros l Hl Hk Hcl. by apply flush_ended, Hend. }
  clearbody m. destruct (m !! "up") eqn:Hup; [done|].
  destruct (m !! "prolog") as [p|] eqn:Hp; [|done]. split.
  - intros key stmts. rewrite lookup_delete. case_decide; [done|].
    rewrite lookup_insert. case_decide; [|by apply Hb].
    intros [= <-]. by eapply Hb.
  - intros l Hl Hk Hcl.
    destruct (He l Hl Hk Hcl) as (key & stmts & ls & s & Hkey & Hs & Hrun).
    destruct (decide (key = "prolog")) as [->|Hne].
    + exists "up", stmts, ls, s. split; [|done].
      rewrite lookup_delete_ne by done. rewrite lookup_insert_eq. congruence.
    + exists key, stmts, ls, s. split; [|done].
      rewrite lookup_delete_ne by done. rewrite lookup_insert_ne; [done|].
      intros <-. congruence.
Qed.

(** Every terminator ends a statement.  The kept lines of a file are its
    lines that COMMENTS does not match and that are not blank.  Every
    statement of a migration is made of kept lines that follow one another
    in the file, and none of them but the last matches SQL_IS_COMPLETE: no
    statement goes on after a line that ends in a semicolon.  And every kept
    line that matches SQL_IS_COMPLETE is the last line of such a statement
    of the migration. *)
Theorem read_migration_one_terminator fs path directory lines m :
  open_lines fs (path_join directory path) = Some lines →
  read_migration fs path directory = Some m →
  (∀ key stmts s, m !! key = Some stmts → s ∈ stmts →
     ∃ ls l pre post,
       filter (fun x => kept x = true) lines = (pre ++ ls ++ [l] ++ post)%list
       ∧ s = concat_lines (ls ++ [l])
       ∧ ∀ x, x ∈ ls → SQL_IS_COMPLETE_match x = false)
  ∧ (∀ l, l ∈ lines → kept l = true → SQL_IS_COMPLETE_match l = true →
     ∃ key stmts ls pre post,
       m !! key = Some stmts
       ∧ concat_lines (ls ++ [l]) ∈ stmts
       ∧ filter (fun x => kept x = true) lines = (pre ++ ls ++ [l] ++ post)%list
       ∧ ∀ x, x ∈ ls → SQL_IS_COMPLETE_match x = false).
Proof.
  intros Hopen. unfold read_migration. rewrite Hopen. intros [= <-].
  destruct (read_lines_cut lines) as [Hb He]. split.
  - intros key stmts s Hkey Hs. specialize (Hb key stmts Hkey).
    rewrite Forall_forall in Hb.
    destruct (Hb s Hs) as (ls & l & (pre & post & Hk) & -> & Hls).
    exists ls, l, pre, post. split; [done|]. split; [done|].
    by apply Forall_forall.
  - intros l Hl Hk Hc.
    destruct (He l Hl Hk Hc)
      as (key & stmts & ls & s & Hkey & Hs & (pre & post & Hrun) & -> & Hls).
    exists key, stmts, ls, pre, post. split; [done|]. split; [done|].
    split; [done|]. by apply Forall_forall.
Qed.

(** The last line of the file with one directive and a comment ends the
    statement that its kept lines make. *)
Lemma read_migration_one_terminator_witness :
  ∃ key stmts ls pre post,
    read_lines commented_lines !! key = Some stmts
    ∧ concat_lines (ls ++ [closing_line]) ∈ stmts
    ∧ filter (fun x => kept x = true) commented_lines
      = (pre ++ ls ++ [closing_line] ++ post)%list
    ∧ ∀ x, x ∈ ls → SQL_IS_COMPLETE_match x = false.
Proof.
  destruct (read_migration_one_terminator commented_disk "m.sql" "."
              commented_lines (read_lines commented_lines)) as [_ He].
  - vm_compute. reflexivity.
  - vm_compute. reflexivity.
  - apply (He closing_line).
    + apply list_elem_of_In. cbn. tauto.
    + vm_compute. reflexivity.
    + vm_compute. reflexivity.
Defined.

(** *** The sections of a migration *)

Lemma flush_lookup key cur m k :
  is_Some (flush key cur m !! k) ↔ k = key ∨ is_Some (m !! k).
Proof.
  unfold flush. rewrite lookup_insert. case_decide as Hk.
  - subst. split; [by left|]. intros _. by eexists.
  - split; [by right|]. intros [->|?]; done.
Qed.

Lemma read_line_keys seen st line :
  keys_ok seen st → keys_ok (seen ++ [line]) (read_line st line).
Proof.
  intros (Hkey & Hdom & Hall). unfold read_line.
  assert (keys_ok (seen ++ [line]) st → directive_key line = None →
          ∀ cur, keys_ok (seen ++ [line])
                   (Reader (flush (key st) cur (sections st)) [] (key st))) as Hflush.
  { intros (Hkey' & Hdom' & Hall') Hnone cur. split; [done|]. split.
    - intros k [->|Hk]%flush_lookup; [|by apply Hdom'].
      destruct Hkey' as [->|?]; [by left|by right].
    - intros l k Hl Hd. apply flush_lookup. right. by eapply Hall'. }
  assert (directive_key line = None → keys_ok (seen ++ [line]) st) as Hsame.
  { intros Hnone. split; [|split].
    - destruct Hkey as [?|(l & Hl & Hd)]; [by left|].
      right. exists l. split; [|done]. apply elem_of_app. by left.
    - intros k Hk. destruct (Hdom k Hk) as [?|(l & Hl & Hd)]; [by left|].
      right. exists l. split; [|done]. apply elem_of_app. by left.
    - intros l k [Hl|Hl%list_elem_of_singleton]%elem_of_app Hd; [by eapply Hall|].
      subst. congruence. }
  assert (directive_key line
          = match COMMENTS_match line with
            | Some c => MIGRATE_KEY_match c
            | None => None
            end) as Hdk by done.
  destruct (COMMENTS_match line) as [c|].
  - destruct (MIGRATE_KEY_match c) as [k'|]; [|by apply Hsame].
    assert (line ∈ (seen ++ [line])%list) as Hin.
    { apply elem_of_app. right. by left. }
    split; [|split]; cbn [key sections].
    + right. by exists line.
    + intros k [->|Hk]%flush_lookup; [right; by exists line|].
      destruct (Hdom k Hk) as [?|(l & Hl & Hd)]; [by left|].
      right. exists l. split; [|done]. apply elem_of_app. by left.
    + intros l k [Hl|Hl%list_elem_of_singleton]%elem_of_app Hd.
      * apply flush_lookup. right. by eapply Hall.
      * subst. apply flush_lookup. left. congruence.
  - destruct (EMPTY_LINE_match line); [by apply Hsame|].
    destruct (SQL_IS_COMPLETE_match line).
    + apply Hflush; [by apply Hsame|done].
    + destruct (Hsame Hdk) as (? & ? & ?). by split.
Qed.

Lemma fold_read_line_keys lines :
  keys_ok lines (fold_left read_line lines reader_init).
Proof.
  induction lines as [|line lines IH] using rev_ind.
  - split; [by left|]. split.
    + intros k [? Hk]. cbn in Hk. by rewrite lookup_empty in Hk.
    + by intros l k ?%elem_of_nil.
  - rewrite fold_left_app. cbn. by apply read_line_keys.
Qed.

(** The sections of a migration: a prolog section only comes with an up
    section; every section is prolog, up, or the key of a directive of the
    file; and every key of a directive is a section of the result, be it
    empty, but for a prolog that became up. *)
Theorem read_migration_sections fs path directory lines m :
  open_lines fs (path_join directory path) = Some lines →
  read_migration fs path directory = Some m →
  (is_Some (m !! "prolog") → is_Some (m !! "up"))
  ∧ (∀ k, is_Some (m !! k) →
          k = "prolog" ∨ k = "up"
          ∨ ∃ l, l ∈ lines ∧ directive_key l = Some k)
  ∧ (∀ l k, l ∈ lines → directive_key l = Some k →
            is_Some (m !! k) ∨ (k = "prolog" ∧ is_Some (m !! "up"))).
Proof.
  intros Hopen. unfold read_migration. rewrite Hopen. intros [= <-].
  destruct (fold_read_line_keys lines) as (Hkey & Hdom & Hall).
  unfold read_lines, read_finish.
  set (st := fold_left read_line lines reader_init) in *.
  set (m := match current st with [] => sections st | _ => _ end).
  assert ((∀ k, is_Some (m !! k) →
             k = "prolog" ∨ ∃ l, l ∈ lines ∧ directive_key l = Some k)
          ∧ (∀ l k, l ∈ lines → directive_key l = Some k → is_Some (m !! k)))
    as [Hdom' Hall'].
  { subst m. destruct (current st); [done|]. split.
    - intros k [->|Hk]%flush_lookup; [|by apply Hdom].
      destruct Hkey as [->|?]; [by left|by right].
    - intros l' k Hl Hd. apply flush_lookup. right. by eapply Hall. }
  clearbody m. destruct (m !! "up") as [u|] eqn:Hup.
  - split; [by eexists|]. split.
    + intros k Hk. destruct (Hdom' k Hk) as [?|?]; auto.
    + intros l k Hl Hd. left. by eapply Hall'.
  - destruct (m !! "prolog") as [p|] eqn:Hp.
    + split; [|split].
      * by rewrite lookup_delete_eq; intros [? ?].
      * intros k. rewrite lookup_delete. case_decide; [by intros [? ?]|].
        rewrite lookup_insert. case_decide; [auto|].
        intros Hk. destruct (Hdom' k Hk) as [?|?]; auto.
      * intros l k Hl Hd. destruct (decide (k = "prolog")) as [->|Hne].
        -- right. split; [done|]. rewrite lookup_delete_ne by done.
           rewrite lookup_insert_eq. by eexists.
        -- left. rewrite lookup_delete_ne by done.
           rewrite lookup_insert. case_decide; [by eexists|]. by eapply Hall'.
    + split; [by rewrite Hp; intros [? ?]|]. split.
      * intros k Hk. destruct (Hdom' k Hk) as [?|?]; auto.
      * intros l k Hl Hd. left. by eapply Hall'.
Qed.

(** The file with one directive and a comment. *)
Lemma read_migration_sections_witness :
  is_Some (read_lines commented_lines !! "up")
  ∨ ("up" = "prolog" ∧ is_Some (read_lines commented_lines !! "up")).
Proof.
  destruct (read_migration_sections commented_disk "m.sql" "." commented_lines
              (read_lines commented_lines)) as (_ & _ & Hall).
  - vm_compute. reflexivity.
  - vm_compute. reflexivity.
  - apply (Hall ("-- migrate: up" ++ nl) "up"); [left|vm_compute; reflexivity].
Defined.

(** A file without directives, with a comment and a blank line. *)
Lemma read_migration_bare_file_witness :
  ∃ m, read_migration bare_disk "bare.sql" "." = Some m
       ∧ (∀ key, key ≠ "up" → m !! key = None)
       ∧ concat_lines (section m "up")
         = concat_lines (filter (fun l => kept l = true) bare_lines).
Proof.
  apply (read_migration_bare_file bare_disk "bare.sql" "." bare_lines).
  - vm_compute. reflexivity.
  - intros l Hl. apply list_elem_of_In in Hl.
    destruct Hl as [<-|[<-|[<-|[<-|[]]]]]; vm_compute; reflexivity.
Defined.


(** *** What the hash does not see *)

(** The hash is taken over the four sections put end to end, their
    statements joined by newlines: so moving every statement of up to an
    empty down section leaves the hash as it is, and so does writing two
    statements as one with a newline between them. *)
Theorem hash_migration_blind (m : Migration) (stmts : list string) (a b : string)
    (rest : list string) :
  hash_migration (<["up" := stmts]> (<["down" := []]> m))
  = hash_migration (<["up" := []]> (<["down" := stmts]> m))
  ∧ hash_migration (<["up" := a :: b :: rest]> m)
    = hash_migration (<["up" := (a ++ nl ++ b) :: rest]> m).
Proof.
  unfold hash_migration, section, update. split.
  - rewrite !lookup_insert_eq.
    rewrite !(lookup_insert_ne _ "up" "down") by done.
    rewrite !lookup_insert_eq.
    rewrite !(lookup_insert_ne _ "up" "prolog") by done.
    rewrite !(lookup_insert_ne _ "down" "prolog") by done.
    rewrite !(lookup_insert_ne _ "up" "epilog") by done.
    rewrite !(lookup_insert_ne _ "down" "epilog") by done.
    cbn [default]. apply f_equal. apply (f_equal (fun x => x ++ _)).
    change (join nl []) with "". by rewrite !append_nil_r.
  - rewrite !lookup_insert_eq.
    rewrite !(lookup_insert_ne _ "up" "down") by done.
    rewrite !(lookup_insert_ne _ "up" "prolog") by done.
    rewrite !(lookup_insert_ne _ "up" "epilog") by done.
    cbn [default]. apply f_equal. apply (f_equal (fun x => x ++ _)).
    apply (f_equal (fun x => x ++ _)). apply f_equal. unfold id.
    destruct rest; cbn [join]; by rewrite ?append_assoc.
Qed.

End ReadingFacts.
(** ** More on the selector *)
Module NamingFacts.
Import Text Files Parser Selector Doubles Naming TextFacts SelectorFacts ReadingFacts.

(** *** Filters without a count *)

Lemma load_loop_uncounted fs directory sel n0 candidates :
  count sel = None →
  load_loop fs directory sel n0 candidates
  = omap (loaded fs directory)
      (filter (fun name => wanted sel 0 name = true) candidates).
Proof.
  intros Hc. revert n0. induction candidates as [|name rest IH]; intros n0; [done|].
  cbn [load_loop]. rewrite filter_cons.
  assert (wanted sel n0 name = wanted sel 0 name) as ->.
  { unfold wanted. by rewrite Hc. }
  destruct (wanted sel 0 name).
  - rewrite decide_True by done. cbn [omap list_omap]. unfold loaded at 1.
    rewrite !IH. by destruct (read_migration fs name directory).
  - rewrite decide_False by done. apply IH.
Qed.

Lemma filter_ext_bool (f g : string → bool) (l : list string) :
  (∀ x, f x = g x) →
  filter (fun x => f x = true) l = filter (fun x => g x = true) l.
Proof.
  intros H. apply list_filter_iff. intros x. by rewrite H.
Qed.

(** A range token keeps, in the order of the candidates, those between its
    bounds that load: each bound is inclusive, and an empty bound is open. *)
Theorem load_migrations_range int fs directory candidates token a b :
  split_dotdot token = [a; b] →
  load_migrations int fs candidates directory (Some [token])
  = omap (loaded fs directory)
      (filter (fun name => within a b name = true) candidates).
Proof.
  intros Hsplit. unfold load_migrations, _parse_migrations_rev. rewrite Hsplit.
  rewrite load_loop_uncounted by done. f_equal. apply filter_ext_bool.
  intros name. unfold wanted, within. cbn [start_at stop_at includes count].
  rewrite !andb_true_r. by destruct a, b.
Qed.

(** Two files in a range that is open to the right. *)
Lemma load_migrations_range_witness :
  (load_migrations int_of_digits install_disk
     ["20240101-install.sql"; "20240102-a.sql"] "migrations"
     (Some ["20240102.."])).*1
  = ["20240102-a.sql"].
Proof.
  rewrite (load_migrations_range int_of_digits install_disk "migrations"
             ["20240101-install.sql"; "20240102-a.sql"] "20240102.." "20240102" "").
  - vm_compute. reflexivity.
  - reflexivity.
Defined.

(** Two tokens or more are names, whatever they look like: the migrations
    yielded are the candidates that are among the tokens and load, in the
    order of the candidates. *)
Theorem load_migrations_names int fs directory candidates filters :
  (2 <= length filters)%nat →
  load_migrations int fs candidates directory (Some filters)
  = omap (loaded fs directory)
      (filter (fun name => name ∈ filters) candidates).
Proof.
  intros Hlen. unfold load_migrations.
  assert (_parse_migrations_rev int (Some filters)
          = Selection None None (Some filters) None) as ->.
  { destruct filters as [|t1 [|t2 rest]]; cbn in Hlen; [lia|lia|done]. }
  rewrite load_loop_uncounted by done. f_equal.
  apply list_filter_iff. intros name. unfold wanted.
  cbn [start_at stop_at includes count andb]. rewrite andb_true_r.
  destruct filters as [|t1 rest]; [cbn in Hlen; lia|]. cbn [length Nat.eqb orb].
  apply bool_decide_eq_true.
Qed.

(** Two tokens, given in the other order than the files. *)
Lemma load_migrations_names_witness :
  (load_migrations int_of_digits install_disk
     ["20240101-install.sql"; "20240102-a.sql"] "migrations"
     (Some ["20240102-a.sql"; "20240101-install.sql"])).*1
  = ["20240101-install.sql"; "20240102-a.sql"].
Proof.
  rewrite (load_migrations_names int_of_digits install_disk "migrations"
             ["20240101-install.sql"; "20240102-a.sql"]
             ["20240102-a.sql"; "20240101-install.sql"]).
  - vm_compute. reflexivity.
  - cbn. lia.
Defined.

(** Whatever the filter, the names yielded are candidates, in the order of
    the candidates and none more often than it is a candidate, and each
    comes with the migration read from its file. *)
Theorem load_migrations_sublist int fs directory candidates filters :
  (load_migrations int fs candidates directory filters).*1 `sublist_of` candidates
  ∧ ∀ name m, (name, m) ∈ load_migrations int fs candidates directory filters →
              read_migration fs name directory = Some m.
Proof.
  unfold load_migrations. generalize (_parse_migrations_rev int filters) 0%Z.
  intros sel. induction candidates as [|name rest IH]; intros n0.
  - split; [done|]. by intros ? ? ?%elem_of_nil.
  - cbn [load_loop]. destruct (wanted sel n0 name).
    + destruct (read_migration fs name directory) as [m|] eqn:Hm.
      * destruct (IH (n0 + 1)%Z) as [Hs Hr]. split.
        -- cbn. by apply sublist_skip.
        -- intros n' m' [[= -> ->]|Hin]%elem_of_cons; [done|]. by apply Hr.
      * destruct (IH (n0 + 1)%Z) as [Hs Hr]. split; [by apply sublist_cons|done].
    + destruct (IH n0) as [Hs Hr]. split; [by apply sublist_cons|done].
Qed.

(** *** Listing a directory *)

Lemma str_le_total a b : str_le a b = false → str_le b a = true.
Proof.
  unfold str_le. rewrite (String.compare_antisym b a).
  by destruct (String.compare a b).
Qed.

Lemma insert_sorted_perm x l : insert_sorted x l ≡ₚ x :: l.
Proof.
  induction l as [|y r IH]; [done|]. cbn.
  destruct (str_le x y); [done|]. rewrite IH. apply Permutation_swap.
Qed.

Lemma sort_names_perm l : sort_names l ≡ₚ l.
Proof.
  induction l as [|x l IH]; [done|]. cbn. rewrite insert_sorted_perm.
  by constructor.
Qed.

Lemma insert_sorted_sorted x l :
  Sorted (fun a b => str_le a b = true) l →
  Sorted (fun a b => str_le a b = true) (insert_sorted x l).
Proof.
  induction 1 as [|y r Hr IH Hhd]; cbn; [by repeat constructor|].
  destruct (str_le x y) eqn:Hxy.
  - constructor; [by constructor|]. by constructor.
  - constructor; [done|]. apply str_le_total in Hxy.
    destruct r as [|z r]; cbn; [by constructor|].
    destruct (str_le x z); constructor; [done|]. by inversion Hhd.
Qed.

Lemma sort_names_sorted l : Sorted (fun a b => str_le a b = true) (sort_names l).
Proof.
  induction l as [|x l IH]; cbn; [constructor|]. by apply insert_sorted_sorted.
Qed.

Lemma MIGRATION_PATERN_visible name :
  MIGRATION_PATERN_match name = true → visible name = true.
Proof. destruct name as [|c r]; [done|]. cbn. by intros [? ?]%andb_prop. Qed.

Lemma list_directory_elem fs directory entries name :
  fs_scandir fs directory = Some entries →
  name ∈ default [] (list_directory fs directory false)
  ↔ (name, true) ∈ entries ∧ MIGRATION_PATERN_match name = true.
Proof.
  intros Hscan. unfold list_directory. rewrite Hscan. cbn.
  rewrite sort_names_perm, list_elem_of_fmap. split.
  - intros ([n f] & -> & [Hm Hf]%list_elem_of_filter). cbn in *.
    apply andb_prop in Hm as [Hm Hb]. by subst.
  - intros [Hin Hm]. exists (name, true). split; [done|].
    apply list_elem_of_filter. split; [|done]. cbn. rewrite Hm. done.
Qed.

(** The names [list_directory] returns are in ascending order; they are
    the entries of the directory that are files and match
    MIGRATION_PATERN, so none starts with a dot; and with [reverse] the
    same names come in the opposite order. *)
Theorem list_directory_sorted fs directory entries names :
  fs_scandir fs directory = Some entries →
  list_directory fs directory false = Some names →
  Sorted (fun a b => str_le a b = true) names
  ∧ (∀ name, name ∈ names
             ↔ (name, true) ∈ entries ∧ MIGRATION_PATERN_match name = true)
  ∧ (∀ name, name ∈ names → visible name = true)
  ∧ list_directory fs directory true = Some (rev names).
Proof.
  intros Hscan Hlist.
  pose proof (fun name => list_directory_elem fs directory entries name Hscan) as Helem.
  rewrite Hlist in Helem. cbn in Helem.
  unfold list_directory in *. rewrite Hscan in *. cbn in *.
  injection Hlist as <-. split; [apply sort_names_sorted|].
  split; [done|]. split; [|done].
  intros name [_ Hm]%Helem. by apply MIGRATION_PATERN_visible.
Qed.

(** A directory with a hidden file, a text file and two migrations. *)
Lemma list_directory_sorted_witness :
  list_directory mixed_disk "." true = Some (rev ["20240101-a.sql"; "20240102-b.sql"]).
Proof.
  apply (list_directory_sorted mixed_disk "." mixed_entries
           ["20240101-a.sql"; "20240102-b.sql"]); vm_compute; reflexivity.
Defined.

(** *** The name of a new migration *)

Lemma has_newline_app a b : has_newline (a ++ b) = has_newline a || has_newline b.
Proof.
  induction a as [|c a IH]; [done|]. rewrite append_cons. cbn.
  by rewrite IH, orb_assoc.
Qed.

Lemma string_of_uint_plain d :
  has_newline (NilEmpty.string_of_uint d) = false
  ∧ dotted (NilEmpty.string_of_uint d) = false.
Proof. induction d as [|d [IH _]|d [IH _]|d [IH _]|d [IH _]|d [IH _]|d [IH _]
                        |d [IH _]|d [IH _]|d [IH _]|d [IH _]]; by cbn. Qed.

Lemma str_of_Z_plain n :
  has_newline (str_of_Z n) = false
  ∧ dotted (str_of_Z n) = false ∧ str_of_Z n ≠ "".
Proof.
  unfold str_of_Z, NilZero.string_of_int.
  destruct (Z.to_int n) as [d|d]; unfold NilZero.string_of_uint.
  - destruct (string_of_uint_plain d) as [H1 H2]. by destruct d.
  - destruct (string_of_uint_plain d) as [H1 H2]. by destruct d.
Qed.

Lemma ends_dot_sql_app s :
  has_newline s = false → ends_dot_sql (s ++ ".sql") = true.
Proof.
  induction s as [|c s IH]; [done|]. rewrite append_cons. cbn [has_newline].
  intros [Hc Hs]%orb_false_elim. cbn [ends_dot_sql].
  rewrite Hc, (IH Hs). cbn. by rewrite !orb_true_r.
Qed.

Lemma MIGRATION_PATERN_app p :
  p ≠ "" → dotted p = false → has_newline p = false →
  MIGRATION_PATERN_match (p ++ ".sql") = true.
Proof.
  destruct p as [|c r]; [done|]. intros _ Hd [Hc Hr]%orb_false_elim.
  rewrite append_cons. cbn in *. by rewrite Hd, ends_dot_sql_app.
Qed.

Lemma dotted_app a b :
  dotted a = false → dotted b = false → dotted (a ++ b) = false.
Proof. by destruct a. Qed.

Lemma migration_name_eq today name step date :
  migration_name today name step date
  = (match date with None => today | Some d => d end
     ++ str_of_Z step ++ "-" ++ name) ++ ".sql".
Proof.
  unfold migration_name. by rewrite !append_assoc.
Qed.

(** A name made by [migration_name] is the name of a migration: when the
    date prefix does not start with a dot and neither it nor the name holds
    a newline, the result matches MIGRATION_PATERN, and a file of that name
    in a directory is listed by [list_directory]. *)
Theorem migration_name_listed today name step date fs directory entries :
  let prefix := match date with None => today | Some d => d end in
  let file := migration_name today name step date in
  dotted prefix = false → has_newline prefix = false → has_newline name = false →
  MIGRATION_PATERN_match file = true
  ∧ (fs_scandir fs directory = Some entries → (file, true) ∈ entries →
     ∃ names, list_directory fs directory false = Some names ∧ file ∈ names).
Proof.
  intros prefix file Hd Hp Hn.
  destruct (str_of_Z_plain step) as (Hs1 & Hs2 & Hs3).
  assert (MIGRATION_PATERN_match file = true) as Hm.
  { subst file. rewrite migration_name_eq. fold prefix.
    apply MIGRATION_PATERN_app.
    - destruct prefix; [|done]. by destruct (str_of_Z step).
    - apply dotted_app; [done|]. by apply dotted_app.
    - rewrite !has_newline_app, Hp, Hs1, Hn. done. }
  split; [done|]. intros Hscan Hin.
  pose proof (proj2 (list_directory_elem fs directory entries file Hscan)
                (conj Hin Hm)) as Hel.
  destruct (list_directory fs directory false) as [names|]; [by exists names|].
  by apply elem_of_nil in Hel.
Qed.

(** A migration named on the last day of January 2024. *)
Lemma migration_name_listed_witness :
  MIGRATION_PATERN_match (migration_name "20240131" "add_users" 0 None) = true
  ∧ (fs_scandir mixed_disk "." = Some mixed_entries →
     (migration_name "20240131" "add_users" 0 None, true) ∈ mixed_entries →
     ∃ names, list_directory mixed_disk "." false = Some names
              ∧ migration_name "20240131" "add_users" 0 None ∈ names).
Proof.
  apply (migration_name_listed "20240131" "add_users" 0 None mixed_disk "."
           mixed_entries); reflexivity.
Defined.

End NamingFacts.
(** ** More on the executor *)
Module RunningFacts.
Import Text Files Parser Selector Py Session Executor Doubles Running.
Import TextFacts ReadingFacts.
Local Open Scope session_scope.

Section Calls.
Context {db : Type}.
Variable execute : string -> list sqlarg -> db -> reply db.
Variable int : string -> option Z.

Lemma adds_refl (w : world db) : adds w w [].
Proof. unfold adds. by rewrite app_nil_r. Qed.

Lemma adds_trans (w1 w2 w3 : world db) l1 l2 :
  adds w1 w2 l1 → adds w2 w3 l2 → adds w1 w3 (l1 ++ l2).
Proof.
  intros (C1 & K1 & S1) (C2 & K2 & S2). unfold adds.
  rewrite C2, C1, K2, K1, S2, S1. by rewrite app_assoc.
Qed.

Lemma cursor_execute_adds sql args w r w' :
  cursor_execute execute sql args w = (r, w') → adds w w' [Execute sql args].
Proof.
  unfold cursor_execute. by destruct (execute _ _ _); intros [= <- <-].
Qed.

Lemma run_queries_adds queries w r w' :
  run_queries execute queries w = (r, w') →
  ∃ n, adds w w' (sent (take n queries))
       ∧ (r = Val tt → n = length queries).
Proof.
  revert w. induction queries as [|q rest IH]; intros w.
  - intros [= <- <-]. exists 0%nat. split; [apply adds_refl|done].
  - cbn [run_queries]. unfold bind, try_except.
    destruct (cursor_execute execute (MAY_FAIL_sub q) [] w) as [[a|] w1] eqn:E1;
      pose proof (cursor_execute_adds _ _ _ _ _ E1) as A1.
    + cbn [ret]. intros (n & An & Hn)%IH. exists (S n). split.
      * apply (adds_trans _ _ _ _ _ A1 An).
      * intros ?. cbn. f_equal. auto.
    + destruct (negb (String.eqb (MAY_FAIL_sub q) q)).
      * cbn [ret]. intros (n & An & Hn)%IH. exists (S n). split.
        -- apply (adds_trans _ _ _ _ _ A1 An).
        -- intros ?. cbn. f_equal. auto.
      * cbn [raise]. intros [= <- <-]. exists 1%nat. split; [|done].
        cbn. by rewrite take_0.
Qed.

Lemma execute_migration_run name migration kind table template w :
  ∃ ok w' n,
    execute_migration execute name migration kind table template w = (Val ok, w')
    ∧ adds w w' (sent (take n (queries_of template migration kind)))
    ∧ (ok = true → n = length (queries_of template migration kind)).
Proof.
  unfold execute_migration, try_except, bind.
  fold (queries_of template migration kind).
  destruct (run_queries execute (queries_of template migration kind) w)
    as [[[]|] w1] eqn:E.
  - destruct (run_queries_adds _ _ _ _ E) as (n & A & Hn).
    exists true, w1, n. cbn [ret]. auto.
  - destruct (run_queries_adds _ _ _ _ E) as (n & A & Hn).
    exists false, w1, n. cbn [ret]. by split.
Qed.

(** The loop stops at the first statement that raises and is not may-fail,
    and only there. *)
Lemma run_queries_stops queries (w : world db) :
  let before k := replay execute (take k queries) (working (cnx w)) in
  ∃ r n,
    run_queries execute queries w
    = (r, World (Connection (committed (cnx w)) (before n)
                   (calls (cnx w) ++ sent (take n queries))) (stdout w))
    ∧ match r with
      | Val _ =>
          n = length queries
          ∧ ∀ k q, queries !! k = Some q → fatal execute q (before k) = false
      | Exc =>
          ∃ i q, n = S i ∧ queries !! i = Some q
                 ∧ fatal execute q (before i) = true
                 ∧ ∀ k q', (k < i)%nat → queries !! k = Some q' →
                           fatal execute q' (before k) = false
      end.
Proof.
  revert w. induction queries as [|q rest IH]; intros w; cbn zeta.
  - exists (Val tt), 0%nat. cbn. rewrite app_nil_r. destruct w as [[? ? ?] ?].
    split; [done|]. split; [done|]. by intros k q' ?.
  - cbn [run_queries]. unfold bind, try_except, cursor_execute.
    cbn [cnx stdout log_call committed working calls].
    set (d := working (cnx w)).
    set (w1 := World (Connection (committed (cnx w))
                        (after_call execute (MAY_FAIL_sub q) d)
                        (calls (cnx w) ++ [Execute (MAY_FAIL_sub q) []])) (stdout w)).
    assert (fatal execute q d = false →
            ∃ r n,
              run_queries execute rest w1
              = (r, World (Connection (committed (cnx w))
                             (replay execute (take n (q :: rest)) d)
                             (calls (cnx w) ++ sent (take n (q :: rest))))
                      (stdout w))
              ∧ match r with
                | Val _ =>
                    n = length (q :: rest)
                    ∧ ∀ k q', (q :: rest) !! k = Some q' →
                        fatal execute q' (replay execute (take k (q :: rest)) d)
                        = false
                | Exc =>
                    ∃ i q', n = S i ∧ (q :: rest) !! i = Some q'
                      ∧ fatal execute q' (replay execute (take i (q :: rest)) d)
                        = true
                      ∧ ∀ k q'', (k < i)%nat → (q :: rest) !! k = Some q'' →
                          fatal execute q'' (replay execute (take k (q :: rest)) d)
                          = false
                end) as Hgo.
    { intros Hq. destruct (IH w1) as (r & n & E & Hr). exists r, (S n).
      split.
      - rewrite E. subst w1. cbn. by rewrite <- app_assoc.
      - subst w1. cbn [cnx working] in Hr. destruct r as [[]|].
        + destruct Hr as [-> Hall]. split; [done|].
          intros [|k] q'; cbn; [by intros [= <-]|]. apply Hall.
        + destruct Hr as (i & q' & -> & Hi & Hf & Hbefore).
          exists (S i), q'. split; [done|]. split; [done|]. split; [done|].
          intros [|k] q''; cbn; [by intros _ [= <-]|].
          intros Hk. apply Hbefore. lia. }
    assert (fatal execute q d
            = raises execute (MAY_FAIL_sub q) d && negb (may_fail q)) as Hfatal
      by done.
    unfold raises in Hfatal. unfold after_call in w1.
    fold (may_fail q).
    destruct (execute (MAY_FAIL_sub q) [] d) as [d1|d1 res rows] eqn:E1.
    + destruct (may_fail q) eqn:Hmay.
      * cbn [ret]. apply Hgo. by rewrite Hfatal.
      * cbn [raise]. exists Exc, 1%nat. split.
        -- cbn. rewrite take_0. cbn. unfold after_call. fold d. by rewrite E1.
        -- exists 0%nat, q. split; [done|]. split; [done|]. split.
           ++ cbn. by rewrite Hfatal.
           ++ intros k q' Hk. lia.
    + cbn [ret]. apply Hgo. by rewrite Hfatal.
Qed.

(** [execute_migration] sends the statements of a migration in the order
    prolog of the template, prolog, direction of the template, direction,
    epilog, epilog of the template, each after the substitution of MAY_FAIL
    and without parameters.  It stops at the first statement that raises
    and is not may-fail, and returns false; a may-fail statement that
    raises is followed by the next statement; when no statement stops it,
    every statement was sent and it returns true.  It never raises, makes
    no other call, prints nothing and ends no transaction, and the working
    contents are what the statements sent leave. *)
Theorem execute_migration_calls name migration kind table template (w : world db) :
  let queries := queries_of template migration kind in
  let before k := replay execute (take k queries) (working (cnx w)) in
  ∃ ok n,
    execute_migration execute name migration kind table template w
    = (Val ok, World (Connection (committed (cnx w)) (before n)
                        (calls (cnx w) ++ sent (take n queries))) (stdout w))
    ∧ if ok
      then n = length queries
           ∧ ∀ k q, queries !! k = Some q → fatal execute q (before k) = false
      else ∃ i q, n = S i ∧ queries !! i = Some q
                  ∧ fatal execute q (before i) = true
                  ∧ ∀ k q', (k < i)%nat → queries !! k = Some q' →
                            fatal execute q' (before k) = false.
Proof.
  intros queries before. unfold execute_migration, try_except, bind.
  fold (queries_of template migration kind). fold queries.
  destruct (run_queries_stops queries w) as (r & n & -> & Hr).
  fold before in Hr |- *. destruct r as [[]|]; cbn [ret].
  - by exists true, n.
  - by exists false, n.
Qed.

(** *** One turn of the loop *)

Lemma record_migration_run name migration kind table w r w' :
  record_migration execute name migration kind table w = (r, w') →
  adds w w' [ledger_call kind table (name, migration)].
Proof.
  unfold record_migration, insert_migration, delete_migration, bind.
  destruct kind; cbn [ledger_call fst snd].
  - destruct (cursor_execute execute (insert_sql table) _ w) as [[a|] w1] eqn:E;
      pose proof (cursor_execute_adds _ _ _ _ _ E) as A.
    + cbn [ret]. destruct a.1; by intros [= <- <-].
    + by intros [= <- <-].
  - cbn [ret]. destruct (cursor_execute execute (delete_sql table) _ w)
      as [[a|] w1] eqn:E; pose proof (cursor_execute_adds _ _ _ _ _ E) as A;
      by intros [= <- <-].
Qed.

Lemma apply_one_run kind one_transaction table item w r w' :
  apply_one execute kind one_transaction table item w = (r, w') →
  match r with
  | Val true =>
      calls (cnx w')
      = (calls (cnx w) ++ turn_calls kind one_transaction table item)%list
      ∧ stdout w' = (stdout w ++ [item.1])%list
  | _ => stdout w' = stdout w
  end.
Proof.
  unfold apply_one, bind.
  set (start := if one_transaction then ret tt else begin).
  assert (∃ w0, start w = (Val tt, w0)
                ∧ adds w w0 (if one_transaction then [] else [Begin]))
    as (w0 & -> & A0).
  { subst start. destruct one_transaction; eexists; (split; [reflexivity|]).
    - apply adds_refl.
    - done. }
  destruct (execute_migration_run item.1 item.2 kind table ∅ w0)
    as (ok & w1 & n & -> & A1 & Hn).
  destruct ok; cbn [negb].
  - destruct (record_migration execute item.1 item.2 kind table w1)
      as [[recorded|] w2] eqn:E2;
      pose proof (record_migration_run _ _ _ _ _ _ _ E2) as A2.
    + pose proof (adds_trans _ _ _ _ _ (adds_trans _ _ _ _ _ A0 A1) A2)
        as (C & K & S).
      destruct recorded.
      * rewrite Hn, firstn_all in C by done. unfold turn_calls.
        destruct item as [name migration].
        destruct one_transaction; intros [= <- <-]; cbn in *;
          rewrite C, S, <- ?app_assoc; cbn; by rewrite <- ?app_assoc.
      * intros [= <- <-]. cbn. done.
    + pose proof (adds_trans _ _ _ _ _ (adds_trans _ _ _ _ _ A0 A1) A2)
        as (C & K & S).
      by intros [= <- <-].
  - destruct (adds_trans _ _ _ _ _ A0 A1) as (C & K & S).
    intros [= <- <-]. cbn. done.
Qed.

Lemma apply_loop_run kind one_transaction table migrations w r w' :
  apply_loop execute kind one_transaction table migrations w = (r, w') →
  (∃ n, stdout w' = (stdout w ++ take n migrations.*1)%list)
  ∧ (r = Val true →
     stdout w' = (stdout w ++ migrations.*1)%list
     ∧ calls (cnx w')
       = (calls (cnx w)
          ++ concat (turn_calls kind one_transaction table <$> migrations))%list).
Proof.
  revert w. induction migrations as [|item rest IH]; intros w.
  - intros [= <- <-]. split; [exists 0%nat|intros _]; cbn; by rewrite !app_nil_r.
  - cbn [apply_loop]. unfold bind.
    destruct (apply_one execute kind one_transaction table item w)
      as [[[]|] w1] eqn:E1; pose proof (apply_one_run _ _ _ _ _ _ _ E1) as H1;
      cbn in H1.
    + destruct H1 as [C1 S1]. intros [[n Hn] Hall]%IH. split.
      * exists (S n). rewrite Hn, S1, <- app_assoc. done.
      * intros Hr. destruct (Hall Hr) as [S2 C2].
        rewrite S2, C2, S1, C1, <- !app_assoc. done.
    + intros [= <- <-]. split; [|done]. exists 0%nat. cbn.
      by rewrite app_nil_r.
    + intros [= <- <-]. split; [|done]. exists 0%nat. cbn.
      by rewrite app_nil_r.
Qed.

(** A batch that goes through: the names of its migrations are printed in
    the order of the batch; the calls are, for each migration in turn, its
    statements and then its ledger update, each migration between a begin
    and a commit, or the whole batch between one begin and one commit; and
    at the end nothing is left uncommitted. *)
Theorem apply_migrations_success migrations kind one_transaction table template
    d0 w1 :
  apply_batch execute migrations kind one_transaction table (connect d0)
  = (Val true, w1) →
  ∃ w', apply_migrations execute migrations kind one_transaction table template
          (connect d0) = (Val tt, w')
        ∧ stdout w' = migrations.*1
        ∧ calls (cnx w')
          = ((if one_transaction then [Begin] else [])
             ++ concat (turn_calls kind one_transaction table <$> migrations)
             ++ (if one_transaction then [Commit] else []))%list
        ∧ committed (cnx w') = working (cnx w').
Proof.
  intros Hb. unfold apply_migrations, bind. rewrite Hb.
  unfold apply_batch, bind in Hb. destruct one_transaction.
  - cbn in Hb. destruct (apply_loop_run _ _ _ _ _ _ _ Hb) as [_ Hall].
    destruct (Hall eq_refl) as [S C]. cbn in S, C.
    eexists. split; [reflexivity|]. cbn. by rewrite S, C.
  - cbn in Hb. destruct (apply_loop_run _ _ _ _ _ _ _ Hb) as [_ Hall].
    destruct (Hall eq_refl) as [S C]. cbn in S, C.
    eexists. split; [reflexivity|]. cbn. rewrite S, C, app_nil_r.
    split; [done|]. split; [done|].
    by apply (ExecutorFacts.apply_loop_each execute kind table migrations
                (connect d0) w1).
Qed.

(** Whatever happens to a batch, what is printed is the names of its first
    migrations, in the order of the batch. *)
Theorem apply_migrations_prints_prefix migrations kind one_transaction table
    template w :
  ∃ n, stdout (apply_migrations execute migrations kind one_transaction table
                 template w).2
       = (stdout w ++ take n migrations.*1)%list.
Proof.
  unfold apply_migrations, apply_batch, bind.
  set (start := if one_transaction then begin else ret tt).
  assert (∃ w0, start w = (Val tt, w0) ∧ stdout w0 = stdout w) as (w0 & -> & S0).
  { subst start. destruct one_transaction; by eexists. }
  destruct (apply_loop execute kind one_transaction table migrations w0)
    as [[finished|] w1] eqn:E;
    destruct (apply_loop_run _ _ _ _ _ _ _ E) as [[n Hn] _]; exists n;
    rewrite <- S0, <- Hn; [|done].
  by destruct (finished && one_transaction).
Qed.

(** *** Listing and reporting *)

Lemma is_pending_run name migration table w r w' :
  is_pending execute name migration table w = (r, w') →
  adds w w' [status_call table (name, migration)].
Proof.
  unfold is_pending, _migration_status, bind.
  destruct (cursor_execute execute (status_sql table) _ w) as [[a|] w1] eqn:E;
    pose proof (cursor_execute_adds _ _ _ _ _ E) as A; cbn [ret fst snd].
  - destruct (if a.1 then head a.2 else None) as [row|]; [|by intros [= <- <-]].
    destruct (row !! 3%nat); by intros [= <- <-].
  - by intros [= <- <-].
Qed.

Lemma pending_loop_run table loaded w :
  ∃ out w', pending_loop execute table loaded w = (Val out, w')
            ∧ out `sublist_of` loaded
            ∧ adds w w' (status_call table <$> loaded).
Proof.
  revert w. induction loaded as [|[name migration] rest IH]; intros w.
  - exists [], w. split; [done|]. split; [done|]. apply adds_refl.
  - cbn [pending_loop]. unfold bind, try_except.
    destruct (is_pending execute name migration table w) as [[keep|] w1] eqn:E;
      pose proof (is_pending_run _ _ _ _ _ _ E) as A1; cbn [ret];
      destruct (IH w1) as (out & w' & E2 & Hsub & A2); rewrite E2;
      pose proof (adds_trans _ _ _ _ _ A1 A2) as A.
    + eexists _, w'. split; [reflexivity|]. split; [|done].
      destruct keep; [by apply sublist_skip|by apply sublist_cons].
    + eexists _, w'. split; [reflexivity|]. split; [|done]. by apply sublist_skip.
Qed.

(** The listing of the pending migrations returns whenever the directory
    can be listed; what it yields is taken from what [load_migrations]
    yields, in the same order; and it sends one status query for each
    loaded migration, in order, and nothing else: it prints nothing and ends
    no transaction. *)
Theorem pending_migrations_sublist fs directory filters table names w :
  list_directory fs directory false = Some names →
  ∃ out w',
    pending_migrations execute int fs directory filters table w = (Val out, w')
    ∧ out `sublist_of` load_migrations int fs names directory filters
    ∧ calls (cnx w')
      = (calls (cnx w)
         ++ (status_call table <$> load_migrations int fs names directory filters))%list
    ∧ committed (cnx w') = committed (cnx w)
    ∧ stdout w' = stdout w.
Proof.
  intros Hdir. unfold pending_migrations. rewrite Hdir. cbn [lift_option].
  unfold bind at 1. cbn [ret].
  destruct (pending_loop_run table (load_migrations int fs names directory filters) w)
    as (out & w' & E & Hsub & C & K & S).
  by exists out, w'.
Qed.

Lemma status_line_code name h m (w : world db) line w' :
  status_line name h m w = (Val (Some line), w') → status_line_of name line.
Proof.
  unfold status_line, status_line_of. destruct m as [row|].
  - destruct (row !! 3%nat) as [consistent|]; [|done].
    destruct (row !! 1%nat) as [applied|]; [|done].
    destruct (row !! 2%nat) as [stored|]; [|done].
    destruct (negb (truthy consistent)).
    + destruct stored; try done. intros [= <- <-].
      exists "D", (join " " [str applied; h; s]). split; [|done].
      by apply (bool_decide_unpack _).
    + intros [= <- <-]. exists "A", (join " " [str applied; h]).
      split; [|done]. by apply (bool_decide_unpack _).
  - intros [= <- <-]. exists "P", (join " " [h]). split; [|done].
    by apply (bool_decide_unpack _).
Qed.

Lemma status_line_world name h m (w : world db) r w' :
  status_line name h m w = (r, w') → w' = w.
Proof.
  unfold status_line. destruct m as [row|]; [|by intros [= <- <-]].
  repeat case_match; by intros [= <- <-].
Qed.

Lemma status_loop_report table loaded found w f w' :
  status_loop execute false table loaded found w = (Val f, w') →
  ∃ lines, stdout w' = (stdout w ++ lines)%list
           ∧ Forall2 (fun line item => status_line_of item.1 line) lines loaded
           ∧ calls (cnx w') = (calls (cnx w) ++ (status_call table <$> loaded))%list
           ∧ committed (cnx w') = committed (cnx w).
Proof.
  revert found w. induction loaded as [|[name migration] rest IH]; intros found w.
  - intros [= <- <-]. exists []. by rewrite !app_nil_r.
  - cbn [status_loop]. unfold _migration_status. unfold bind.
    destruct (cursor_execute execute (status_sql table)
                [ArgStr (hash_migration migration); ArgStr name] w)
      as [[a|] w1] eqn:E1; [|done].
    destruct (cursor_execute_adds _ _ _ _ _ E1) as (C1 & K1 & S1).
    cbn [ret fst snd].
    destruct (status_line name (hash_migration migration)
                (if a.1 then head a.2 else None) w1) as [[line|] w2] eqn:E2;
      [|done].
    pose proof (status_line_world _ _ _ _ _ _ E2) as ->.
    destruct line as [line|]; [|done].
    pose proof (status_line_code _ _ _ _ _ _ E2) as Hcode.
    unfold print. intros (lines & S & F & C & K)%IH. cbn in S, C, K.
    exists (line :: lines). split; [|split; [|split]].
    + by rewrite S, S1, <- app_assoc.
    + by constructor.
    + rewrite C, C1, <- app_assoc. done.
    + by rewrite K, K1.
Qed.

(** The status report without [show_missings], when it comes to its end:
    one line is printed for each migration that [load_migrations] yields,
    in order, made of a code among P, A and D, the name of the migration and
    the details; one status query is sent for each, and nothing else; no
    transaction is ended. *)
Theorem status_migrations_report fs directory filters table names w w' :
  list_directory fs directory false = Some names →
  status_migrations execute int fs directory filters false table w = (Val tt, w') →
  ∃ lines,
    stdout w' = (stdout w ++ lines)%list
    ∧ Forall2 (fun line item => status_line_of item.1 line) lines
        (load_migrations int fs names directory filters)
    ∧ calls (cnx w')
      = (calls (cnx w)
         ++ (status_call table <$> load_migrations int fs names directory filters))%list
    ∧ committed (cnx w') = committed (cnx w).
Proof.
  intros Hdir. unfold status_migrations. rewrite Hdir. cbn [lift_option].
  unfold bind at 1. cbn [ret]. unfold bind.
  destruct (status_loop execute false table _ [EmptyString] w) as [[f|] w1] eqn:E;
    [|done].
  intros [= <-]. by eapply status_loop_report.
Qed.

End Calls.

(** *** The fake driver *)

Lemma run_queries_fake queries (w : world unit) :
  run_queries FakeConnection_execute queries w
  = (Val tt, World (Connection (committed (cnx w)) (working (cnx w))
                      (calls (cnx w) ++ sent queries)) (stdout w)).
Proof.
  revert w. induction queries as [|q rest IH]; intros w.
  - cbn. rewrite app_nil_r. by destruct w as [[? ? ?] ?].
  - cbn [run_queries]. unfold bind, try_except, cursor_execute,
      FakeConnection_execute. cbn [ret]. rewrite IH. cbn.
    by rewrite <- app_assoc.
Qed.

(** With the fake driver a batch stops at its first migration: the
    statements of that migration are sent, then its ledger update, whose
    result is false, and then a rollback; nothing is printed and nothing is
    committed, whatever follows in the batch and in either mode. *)
Theorem apply_migrations_fake item rest kind one_transaction table template
    (w : world unit) :
  apply_migrations FakeConnection_execute (item :: rest) kind one_transaction
    table template w
  = (Val tt,
     World (Connection (committed (cnx w)) (committed (cnx w))
              (calls (cnx w) ++ [Begin] ++ sent (queries_of ∅ item.2 kind)
               ++ [ledger_call kind table item; Rollback]))
       (stdout w)).
Proof.
  unfold apply_migrations, apply_batch, apply_one. cbn [apply_loop].
  unfold apply_one, execute_migration, try_except, bind.
  fold (queries_of ∅ item.2 kind).
  destruct item as [name migration].
  destruct one_transaction, kind; cbn [begin ret]; rewrite run_queries_fake;
    cbn; rewrite <- ?app_assoc; reflexivity.
Qed.

(** With the fake driver every migration that loads is pending, and the
    status report gives each of them as pending, with its hash. *)
Theorem fake_driver_all_pending int fs directory filters table names (w : world unit) :
  list_directory fs directory false = Some names →
  (pending_migrations FakeConnection_execute int fs directory filters table w).1
  = Val (load_migrations int fs names directory filters)
  ∧ stdout (status_migrations FakeConnection_execute int fs directory filters false
              table w).2
    = (stdout w
       ++ (pending_line <$> load_migrations int fs names directory filters))%list.
Proof.
  intros Hdir. split.
  - unfold pending_migrations. rewrite Hdir. cbn [lift_option].
    unfold bind at 1. cbn [ret].
    generalize (load_migrations int fs names directory filters). clear.
    intros loaded. revert w. induction loaded as [|[name migration] rest IH];
      intros w; [done|].
    cbn [pending_loop]. unfold bind, try_except at 1. cbn.
    specialize (IH (World (log_call (Execute (status_sql table)
                     [ArgStr (hash_migration migration); ArgStr name]) (cnx w))
                     (stdout w))).
    unfold log_call in IH. cbn in IH.
    destruct (pending_loop FakeConnection_execute table rest _) as [[out|] w1];
      cbn in *; congruence.
  - unfold status_migrations. rewrite Hdir. cbn [lift_option].
    unfold bind at 1. cbn [ret]. unfold bind.
    generalize (load_migrations int fs names directory filters) [EmptyString].
    clear. intros loaded. revert w.
    induction loaded as [|[name migration] rest IH]; intros w found.
    + cbn. by rewrite app_nil_r.
    + cbn [status_loop]. unfold bind, _migration_status. cbn.
      unfold bind. cbn.
      specialize (IH (World (log_call (Execute (status_sql table)
                       [ArgStr (hash_migration migration); ArgStr name]) (cnx w))
                       (stdout w ++ [pending_line (name, migration)]))
                    (found ++ [name])%list).
      unfold log_call in IH. cbn in IH.
      destruct (status_loop FakeConnection_execute false table rest _ _)
        as [[f|] w1]; cbn in *; rewrite IH, <- app_assoc; done.
Qed.

(** *** Scenarios *)

(** The two migrations before the failing one, as a batch of their own. *)
Lemma apply_migrations_success_witness :
  ∃ w', apply_migrations (memory_execute "migrate") batch_before UP false
          "migrate" ∅ (connect empty_ledger) = (Val tt, w')
        ∧ stdout w' = batch_before.*1
        ∧ calls (cnx w')
          = ([] ++ concat (turn_calls UP false "migrate" <$> batch_before) ++ [])%list
        ∧ committed (cnx w') = working (cnx w').
Proof.
  apply (apply_migrations_success (memory_execute "migrate") batch_before UP
           false "migrate" ∅ empty_ledger
           (apply_batch (memory_execute "migrate") batch_before UP false
              "migrate" (connect empty_ledger)).2).
  vm_compute. reflexivity.
Defined.

(** The directory with the install migration, on a database without a
    ledger table. *)
Lemma pending_migrations_sublist_witness :
  ∃ out w',
    pending_migrations (memory_execute "migrate") int_of_digits install_disk
      "migrations" None "migrate" (connect no_ledger) = (Val out, w')
    ∧ out `sublist_of` load_migrations int_of_digits install_disk
                         ["20240101-install.sql"; "20240102-a.sql"]
                         "migrations" None
    ∧ calls (cnx w')
      = (calls (cnx (connect no_ledger))
         ++ (status_call "migrate"
               <$> load_migrations int_of_digits install_disk
                     ["20240101-install.sql"; "20240102-a.sql"]
                     "migrations" None))%list
    ∧ committed (cnx w') = committed (cnx (connect no_ledger))
    ∧ stdout w' = stdout (connect no_ledger).
Proof.
  apply (pending_migrations_sublist (memory_execute "migrate") int_of_digits
           install_disk "migrations" None "migrate"
           ["20240101-install.sql"; "20240102-a.sql"] (connect no_ledger)).
  vm_compute. reflexivity.
Defined.

(** The status of the one file that loads, on a ledger that holds it. *)
Lemma status_migrations_report_witness :
  let execute := memory_execute "migrate" in
  let w := connect three_rows in
  let w' := (status_migrations execute int_of_digits partly_unreadable_disk "."
               None false "migrate" w).2 in
  let loaded := load_migrations int_of_digits partly_unreadable_disk
                  ["20240101-a.sql"; "20240102-b.sql"] "." None in
  ∃ lines,
    stdout w' = (stdout w ++ lines)%list
    ∧ Forall2 (fun line item => status_line_of item.1 line) lines loaded
    ∧ calls (cnx w') = (calls (cnx w) ++ (status_call "migrate" <$> loaded))%list
    ∧ committed (cnx w') = committed (cnx w).
Proof.
  intros execute w w' loaded.
  apply (status_migrations_report execute int_of_digits partly_unreadable_disk "." None
           "migrate" ["20240101-a.sql"; "20240102-b.sql"] w w');
    vm_compute; reflexivity.
Defined.

(** The same directory with the fake driver. *)
Lemma fake_driver_all_pending_witness :
  (pending_migrations FakeConnection_execute int_of_digits install_disk
     "migrations" None "migrate" (connect tt)).1
  = Val (load_migrations int_of_digits install_disk
           ["20240101-install.sql"; "20240102-a.sql"] "migrations" None)
  ∧ stdout (status_migrations FakeConnection_execute int_of_digits install_disk
              "migrations" None false "migrate" (connect tt)).2
    = (stdout (connect tt)
       ++ (pending_line
             <$> load_migrations int_of_digits install_disk
                   ["20240101-install.sql"; "20240102-a.sql"] "migrations" None))%list.
Proof.
  apply (fake_driver_all_pending int_of_digits install_disk "migrations" None
           "migrate"
           ["20240101-install.sql"; "20240102-a.sql"] (connect tt)).
  vm_compute. reflexivity.
Defined.

End RunningFacts.
(** ** More on the dumper *)
Module EscapingFacts.
Import Text Py Dumper Escaping.
Import TextFacts ReadingFacts DumperFacts.

(** *** Selecting tables *)

Lemma named_existing selection existings e :
  e ∈ named selection existings → e ∈ existings.
Proof.
  induction selection as [|item rest IH]; cbn; [by intros ?%elem_of_nil|].
  repeat case_match; try done. rewrite elem_of_cons. intros [->|?]; [|by auto].
  by eapply bool_decide_eq_true_1.
Qed.

Lemma named_plain selection existings :
  forces_all selection = false →
  named selection existings = filter (fun item => item ∈ existings) selection.
Proof.
  induction selection as [|item rest IH]; [done|]. unfold forces_all.
  cbn [existsb named].
  intros [[H1 H2]%orb_false_elim H3]%orb_false_elim.
  rewrite H1, H2, filter_cons. rewrite <- IH by done.
  destruct (bool_decide (item ∈ existings)) eqn:E.
  - apply bool_decide_eq_true in E. by rewrite decide_True.
  - apply bool_decide_eq_false in E. by rewrite decide_False.
Qed.

(** [filter_selection] never selects a table that does not exist; and a
    selection of plain names, none the star and none with a dash, selects
    the names that exist, in the order of the selection and as often as
    they are given: a name that does not exist is left out without a word. *)
Theorem filter_selection_existing :
  (∀ selection existings e,
     e ∈ filter_selection selection existings → e ∈ existings)
  ∧ (∀ selection existings,
       selection ≠ [] → forces_all selection = false →
       filter_selection (Some selection) existings
       = filter (fun item => item ∈ existings) selection).
Proof.
  split.
  - intros [selection|] existings e.
    + rewrite filter_selection_eq. destruct (_ || _).
      * rewrite elem_of_app, list_elem_of_filter.
        intros [?|[_ ?]]; [by eapply named_existing|done].
      * apply named_existing.
    + unfold filter_selection. cbn. by intros [_ ?]%list_elem_of_filter.
  - intros selection existings Hne Hplain.
    rewrite filter_selection_eq, Hplain. destruct selection; [done|].
    cbn [orb]. by apply named_plain.
Qed.

(** *** Escaped strings *)

Lemma translate_cons table c r :
  translate table (String c r)
  = default (String c EmptyString) (table !! nat_of_ascii c) ++ translate table r.
Proof. reflexivity. Qed.

Lemma unescape_one c rest :
  unescape (default (String c EmptyString) (_escape_table !! nat_of_ascii c) ++ rest)
  = String c (unescape rest).
Proof. destruct c as [[] [] [] [] [] [] [] []]; reflexivity. Qed.

Lemma well_escaped_one c rest :
  well_escaped (default (String c EmptyString) (_escape_table !! nat_of_ascii c)
                ++ rest)
  = well_escaped rest.
Proof. destruct c as [[] [] [] [] [] [] [] []]; reflexivity. Qed.

Lemma unescape_translate s rest :
  unescape (translate _escape_table s ++ rest) = s ++ unescape rest.
Proof.
  induction s as [|c s IH]; [done|].
  by rewrite translate_cons, append_assoc, unescape_one, IH.
Qed.

Lemma well_escaped_translate s rest :
  well_escaped (translate _escape_table s ++ rest) = well_escaped rest.
Proof.
  induction s as [|c s IH]; [done|].
  by rewrite translate_cons, append_assoc, well_escaped_one, IH.
Qed.

Lemma append_inj_r (a b c : string) : a ++ c = b ++ c → a = b.
Proof.
  revert b. induction a as [|x a IH]; intros [|y b] H.
  - done.
  - apply (f_equal String.length) in H. rewrite !length_append in H.
    cbn in H. lia.
  - apply (f_equal String.length) in H. rewrite !length_append in H.
    cbn in H. lia.
  - rewrite !append_cons in H. injection H as -> H. f_equal. by apply IH.
Qed.

(** A string is escaped so that it can be read back: the text between the
    quotes of [escape] is made of characters that are not special and of
    escapes, so no quote and no newline stands in it as it is; undoing the
    escapes gives the string; and so two strings have the same literal only
    if they are equal. *)
Theorem escape_str_round_trip :
  (∀ s, escape (PStr s) = Some ("'" ++ translate _escape_table s ++ "'")
        ∧ well_escaped (translate _escape_table s) = true
        ∧ unescape (translate _escape_table s) = s)
  ∧ (∀ s1 s2, escape (PStr s1) = escape (PStr s2) → s1 = s2).
Proof.
  assert (∀ s, unescape (translate _escape_table s) = s) as Hround.
  { intros s. rewrite <- (append_nil_r (translate _ s)), unescape_translate.
    apply append_nil_r. }
  split.
  - intros s. split; [done|]. split; [|done].
    rewrite <- (append_nil_r (translate _ s)). apply well_escaped_translate.
  - intros s1 s2 H.
    change (Some (String "'" (translate _escape_table s1 ++ "'"))
            = Some (String "'" (translate _escape_table s2 ++ "'"))) in H.
    injection H as H. apply append_inj_r in H.
    by rewrite <- (Hround s1), H.
Qed.

End EscapingFacts.
(** ** Dumping tables *)
Module DumpFacts.
Import Text Files Parser Py Session Executor Dumper Doubles Reading Dump.
Import TextFacts ParserFacts ReadingFacts.
Local Open Scope session_scope.

(** *** The rows of a table *)

Section Rows.
Context {db : Type}.
Variable execute : string -> list sqlarg -> db -> reply db.

Lemma values_loop_run rows fields (w : world db) :
  mapM escape_entry rows = Some fields →
  Forall (fun entry => entry ≠ []) rows →
  values_loop (db:=db) (Z.of_nat (length rows)) rows w
  = (Val tt, World (cnx w) (stdout w ++ row_lines fields)).
Proof.
  revert fields w. induction rows as [|entry rest IH]; intros fields w Hf Hne.
  - injection Hf as <-. cbn. rewrite app_nil_r. by destruct w.
  - inversion Hne as [|? ? Hentry Hrest]; subst.
    cbn [mapM] in Hf. destruct (escape_entry entry) as [f|] eqn:Ef; [|done].
    cbn in Hf. destruct (mapM escape_entry rest) as [fs|] eqn:Efs; [|done].
    injection Hf as <-. cbn [values_loop]. destruct entry as [|v entry]; [done|].
    rewrite Ef. unfold bind, print.
    replace (Z.of_nat (length ((v :: entry) :: rest)) - 1)%Z
      with (Z.of_nat (length rest)) by (cbn [length]; lia).
    rewrite (IH fs) by done. cbn [cnx stdout].
    f_equal. f_equal. rewrite <- app_assoc. f_equal.
    destruct rest as [|entry' rest'].
    + injection Efs as <-. done.
    + cbn [mapM] in Efs. destruct (escape_entry entry'); [|done].
      cbn in Efs. destruct (mapM escape_entry rest'); [|done].
      injection Efs as <-. done.
Qed.

(** When the query returns rows, none of them empty, the driver reports
    their number as the row count, and every value is one [escape] accepts,
    [dump_values] prints the INSERT line, then one line for each row, each
    but the last with a comma, then the semicolon, and returns. *)
Theorem dump_values_rows rowcount table may_fail rows fields d w :
  execute (select_all_sql table) [] (working (cnx w)) = Returned d true rows →
  rowcount = Z.of_nat (length rows) →
  Forall (fun entry => entry ≠ []) rows →
  mapM escape_entry rows = Some fields →
  ∃ w', dump_values execute rowcount table may_fail w = (Val tt, w')
        ∧ stdout w'
          = (stdout w
             ++ [insert_line table may_fail] ++ row_lines fields ++ [";"])%list.
Proof.
  intros Hq -> Hne Hf. unfold dump_values, bind at 1, cursor_execute.
  cbn [log_call working]. rewrite Hq. cbn [fst snd]. unfold bind, print at 1.
  rewrite (values_loop_run rows fields) by done.
  eexists. split; [reflexivity|]. cbn. by rewrite <- !app_assoc.
Qed.

End Rows.

(** Two rows of three values. *)
Lemma dump_values_rows_witness :
  ∃ w', dump_values (rows_reply "users" users_rows) 2 "users" true (connect tt)
        = (Val tt, w')
        ∧ stdout w'
          = (stdout (connect tt)
             ++ [insert_line "users" true]
             ++ row_lines ["1, 'it\'s', NULL"; "2, 'b', True"] ++ [";"])%list.
Proof.
  apply (dump_values_rows (rows_reply "users" users_rows) 2 "users" true
           users_rows ["1, 'it\'s', NULL"; "2, 'b', True"] tt (connect tt)).
  - reflexivity.
  - reflexivity.
  - repeat constructor; discriminate.
  - vm_compute. reflexivity.
Defined.

(** *** Reading a dump back *)

Lemma has_newline_app_1 a b : has_newline (a ++ b) = has_newline a || has_newline b.
Proof.
  induction a as [|c a IH]; [done|]. rewrite append_cons. cbn.
  by rewrite IH, orb_assoc.
Qed.

Lemma no_cr_app a b : no_cr (a ++ b) = no_cr a && no_cr b.
Proof.
  induction a as [|c a IH]; [done|]. rewrite append_cons. cbn.
  by rewrite IH, andb_assoc.
Qed.

Lemma universal_newlines_no_cr s : no_cr s = true → universal_newlines s = s.
Proof.
  induction s as [|c s IH]; [done|]. cbn. intros [Hc Hs]%andb_prop.
  apply negb_true_iff in Hc. rewrite Hc. by rewrite IH.
Qed.

Lemma file_lines_nil s : file_lines s = [] → s = "".
Proof.
  destruct s as [|c s]; [done|]. cbn. destruct (is_newline c); [done|].
  by destruct (file_lines s).
Qed.

Lemma file_lines_app_nl a rest :
  file_lines (a ++ nl ++ rest) = (file_lines (a ++ nl) ++ file_lines rest)%list.
Proof.
  induction a as [|c a IH]; [done|]. rewrite !append_cons. cbn [file_lines].
  destruct (is_newline c); [by rewrite IH|]. rewrite IH.
  destruct (file_lines (a ++ nl)) as [|l ls] eqn:E; [|done].
  apply file_lines_nil in E. by destruct a.
Qed.

Lemma file_lines_one p : has_newline p = false → file_lines (p ++ nl) = [p ++ nl].
Proof.
  induction p as [|c p IH]; [done|]. rewrite append_cons. cbn.
  intros [Hc Hp]%orb_false_elim. by rewrite Hc, IH.
Qed.

Lemma concat_lines_file_lines s : concat_lines (file_lines s) = s.
Proof.
  induction s as [|c s IH]; [done|]. cbn [file_lines].
  destruct (is_newline c).
  - cbn. unfold concat_lines in IH. by rewrite IH.
  - destruct (file_lines s) as [|l ls] eqn:E.
    + apply file_lines_nil in E. by subst.
    + cbn in *. by rewrite <- IH.
Qed.

Lemma kept_reads line :
  kept line = true → COMMENTS_match line = None ∧ EMPTY_LINE_match line = false.
Proof.
  unfold kept. destruct (COMMENTS_match line); [done|].
  by destruct (EMPTY_LINE_match line).
Qed.

Lemma fold_read_line_open ls st :
  Forall (fun x => kept x = true ∧ SQL_IS_COMPLETE_match x = false) ls →
  fold_left read_line ls st = Reader (sections st) (current st ++ ls) (key st).
Proof.
  intros H. revert st. induction H as [|l ls [Hk Ho] _ IH]; intros st.
  - cbn. rewrite app_nil_r. by destruct st.
  - cbn [fold_left]. rewrite IH. unfold read_line.
    destruct (kept_reads l Hk) as [-> ->]. rewrite Ho. cbn.
    by rewrite <- app_assoc.
Qed.

Lemma read_line_complete st l :
  kept l = true → SQL_IS_COMPLETE_match l = true →
  read_line st l = Reader (flush (key st) (current st ++ [l]) (sections st)) [] (key st).
Proof.
  intros Hk Hc. unfold read_line. destruct (kept_reads l Hk) as [-> ->].
  by rewrite Hc.
Qed.

Lemma complete_suffix p :
  has_newline p = false → SQL_IS_COMPLETE_match (p ++ ";" ++ nl) = true.
Proof.
  induction p as [|c p IH]; [done|]. rewrite append_cons. cbn.
  intros [Hc Hp]%orb_false_elim. rewrite Hc, IH by done. cbn.
  by rewrite orb_true_r.
Qed.

Lemma rstrip_head c r :
  is_space c = false → (nat_of_ascii c <? 194)%nat = true →
  ∃ r', rstrip (String c r) = String c r'.
Proof.
  intros Hc Hlow. cbn [rstrip]. unfold all_space.
  rewrite lstrip_low by done. by eexists.
Qed.

Lemma table_comment_dropped name st :
  has_newline name = false → read_line st (table_comment name ++ nl) = st.
Proof.
  intros Hn. apply read_line_dropped.
  - change (newline_free_to_end (table_comment name ++ nl))
      with (newline_free_to_end (name ++ nl)).
    clear st. induction name as [|c name IH]; [done|]. rewrite append_cons.
    cbn in *. apply orb_false_elim in Hn as [Hc Hn]. rewrite Hc. by apply IH.
  - unfold dropped_comment, full_line_comment, directive.
    rewrite COMMENTS_match_line.
    + change (lstrip (table_comment name ++ nl))
        with ("-- Table: " ++ name ++ nl).
      change (String.prefix "--" ("-- Table: " ++ name ++ nl)) with true.
      cbn [andb negb]. unfold strip.
      change (lstrip (drop_chars 2 ("-- Table: " ++ name ++ nl)))
        with (String "T" ("able: " ++ name ++ nl)).
      destruct (rstrip_head "T" ("able: " ++ name ++ nl) eq_refl eq_refl) as [r' ->].
      reflexivity.
    + change (newline_free_to_end (table_comment name ++ nl))
        with (newline_free_to_end (name ++ nl)).
      clear st. induction name as [|c name IH]; [done|]. rewrite append_cons.
      cbn in *. apply orb_false_elim in Hn as [Hc Hn]. rewrite Hc. by apply IH.
Qed.

Lemma read_dumped name content table may_fail :
  has_newline name = false → has_newline table = false →
  one_statement (create_line content may_fail ++ nl) →
  read_lines (file_lines (printed (dumped_lines name content table may_fail)))
  = dumped_migration content table may_fail.
Proof.
  intros Hname Htable (ls & l & Hlines & Hopen & Hk & Hc).
  unfold printed, dumped_lines. cbn [fmap list_fmap concat_lines fold_right].
  rewrite append_nil_r.
  rewrite (append_assoc (table_comment name)), file_lines_app_nl.
  rewrite (append_assoc (create_line content may_fail)), file_lines_app_nl.
  change (file_lines (("-- migrate: down" ++ nl) ++ drop_line table ++ nl))
    with (("-- migrate: down" ++ nl) :: file_lines (drop_line table ++ nl)).
  rewrite (file_lines_one (table_comment name)) by done.
  rewrite (file_lines_one (drop_line table)).
  2: { unfold drop_line. rewrite !has_newline_app_1, Htable. done. }
  rewrite Hlines. unfold read_lines. cbn [app fold_left].
  rewrite table_comment_dropped by done.
  rewrite !fold_left_app. rewrite (fold_read_line_open ls) by done.
  cbn [fold_left]. rewrite (read_line_complete _ l) by done.
  cbn [key sections current reader_init app].
  assert (concat_lines (ls ++ [l]) = create_line content may_fail ++ nl) as Htext.
  { by rewrite <- Hlines, concat_lines_file_lines. }
  change (read_line ?st ("-- migrate: down" ++ nl))
    with (Reader (flush "down" (current st) (sections st)) [] "down").
  cbn [key sections current].
  rewrite read_line_complete.
  - cbn [key sections current app]. unfold read_finish. cbn [current sections].
    unfold flush, dumped_migration. rewrite Htext. cbn [concat_lines fold_right].
    rewrite append_nil_r. clear Htext Hlines.
    destruct (ls ++ [l])%list as [|x xs] eqn:Hcons; [by destruct ls|].
    apply map_eq. intros k.
    destruct (decide (k = "up")) as [->|Hup];
      [|destruct (decide (k = "down")) as [->|Hdown];
        [|destruct (decide (k = "prolog")) as [->|Hprolog]]];
      repeat (rewrite ?lookup_insert_eq, ?lookup_empty, ?lookup_delete_eq;
              first [rewrite lookup_insert_ne by done
                    |rewrite lookup_delete_ne by done
                    |idtac]; cbn [default app]); try done.
  - unfold kept, drop_line.
    change (COMMENTS_match ("@DROP TABLE `" ++ table ++ "`;" ++ nl)) with (@None string).
    reflexivity.
  - replace (drop_line table ++ nl)
      with (("@DROP TABLE `" ++ table ++ "`") ++ ";" ++ nl)
      by (unfold drop_line; by rewrite !append_assoc).
    apply complete_suffix. rewrite !has_newline_app_1, Htable. done.
Qed.

Section Tables.
Context {db : Type}.
Variable execute : string -> list sqlarg -> db -> reply db.

(** A dump reads back as a migration.  Let the database give the name and
    the definition of a table, neither name holding a newline, nothing
    holding a carriage return, and the definition with its semicolon reading
    as one statement.  Then what [dump] prints for that table, when it dumps
    the definition and adds the way down, is the comment, the definition
    with its mark and semicolon, the down directive and the DROP; and a file
    of that text is read by [read_migration] as the migration whose up
    section is the definition and whose down section is the DROP. *)
Theorem dump_table_reads_back rowcount table may_fail name content more d w :
  execute (show_create_table_sql table) [] (working (cnx w))
  = Returned d true ([PStr name; PStr content] :: more) →
  has_newline name = false → has_newline table = false →
  no_cr name = true → no_cr table = true → no_cr content = true →
  one_statement (create_line content may_fail ++ nl) →
  ∃ w', dump_one execute rowcount table may_fail true false true w = (Val tt, w')
        ∧ stdout w' = (stdout w ++ dumped_lines name content table may_fail)%list
        ∧ ∀ fs path directory,
            fs_read fs (path_join directory path)
            = Some (printed (dumped_lines name content table may_fail)) →
            read_migration fs path directory
            = Some (dumped_migration content table may_fail).
Proof.
  intros Hq Hname Htable Cname Ctable Ccontent Hone.
  unfold dump_one, dump_table, bind, cursor_execute. cbn [log_call working].
  rewrite Hq. cbn [fst snd head]. unfold print. cbn [ret cnx stdout].
  eexists. split; [reflexivity|]. cbn [stdout]. split.
  { unfold dumped_lines. by rewrite <- !app_assoc. }
  intros fs path directory Hread. unfold read_migration, open_lines.
  rewrite Hread. cbn [fmap option_fmap option_map]. f_equal.
  rewrite universal_newlines_no_cr.
  - by apply read_dumped.
  - unfold printed, dumped_lines, table_comment, create_line, drop_line, mark.
    cbn [fmap list_fmap concat_lines fold_right].
    rewrite !no_cr_app, Cname, Ctable, Ccontent. by destruct may_fail.
Qed.

End Tables.

(** The table users, with its definition on three lines, dumped with the
    mark. *)
Lemma dump_table_reads_back_witness :
  ∃ w', dump_one (table_reply "users" "users" users_ddl) 0 "users" true true
          false true (connect tt) = (Val tt, w')
        ∧ stdout w'
          = (stdout (connect tt) ++ dumped_lines "users" users_ddl "users" true)%list
        ∧ ∀ fs path directory,
            fs_read fs (path_join directory path)
            = Some (printed (dumped_lines "users" users_ddl "users" true)) →
            read_migration fs path directory
            = Some (dumped_migration users_ddl "users" true).
Proof.
  apply (dump_table_reads_back (table_reply "users" "users" users_ddl) 0 "users"
           true "users" users_ddl [] tt (connect tt)); try reflexivity.
  exists ["@CREATE TABLE `users` (" ++ nl; "  `id` int NOT NULL" ++ nl], (");" ++ nl).
  split; [vm_compute; reflexivity|]. split; [|split; vm_compute; reflexivity].
  repeat constructor; vm_compute; reflexivity.
Defined.

(** *** The database block *)

Section Database.
Context {db : Type}.
Variable execute : string -> list sqlarg -> db -> reply db.

(** Dumping the database with its way down never goes through: whatever
    the database answers, the first block of [dump] raises, after at most
    three lines, and so no table is dumped after it. *)
Theorem dump_start_down_raises database may_fail w :
  ∃ w' lines,
    dump_start execute database may_fail true true w = (Exc, w')
    ∧ stdout w' = (stdout w ++ lines)%list
    ∧ (length lines <= 3)%nat.
Proof.
  unfold dump_start, dump_database, bind, cursor_execute. cbn [log_call working].
  destruct (execute (show_create_database_sql database) [] (working (cnx w)))
    as [d|d res rows].
  - eexists _, []. split; [reflexivity|]. cbn. rewrite app_nil_r. split; [done|lia].
  - cbn [fst snd]. destruct res.
    + destruct (head rows) as [row|].
      * destruct (row !! 0%nat) as [name|].
        -- unfold print at 1. destruct (row !! 1%nat) as [content|].
           ++ eexists _, [_; _; _]. split; [reflexivity|]. cbn.
              rewrite <- !app_assoc. split; [done|lia].
           ++ eexists _, [_]. split; [reflexivity|]. cbn. split; [done|lia].
        -- eexists _, []. split; [reflexivity|]. cbn. rewrite app_nil_r.
           split; [done|lia].
      * eexists _, []. split; [reflexivity|]. cbn. rewrite app_nil_r.
        split; [done|lia].
    + eexists _, [_]. split; [reflexivity|]. cbn. split; [done|lia].
Qed.

End Database.

End DumpFacts.
